(* ===== verification/_CoqProject ===== *)
-Q . S2P
Prelude.v
JsNumber.v
JsObject.v
Registry.v
Versions.v
Chains.v
Validator.v
Concurrency.v
Scheduler.v
