(* ===== verification/Prelude.v ===== *)
(** * Verification of the delegation-deployments package

    The repository [src/packages/delegation-deployments] has two parts.

    - [src/index.ts], the registry.  [CHAIN_ID] is an object literal that
      names chain identifiers.  [DELEGATOR_CONTRACTS] is a nested object
      [version -> chainId -> contractName -> address].  Its keys are
      computed from [CHAIN_ID], and some of its entries are spreads of
      the [deployments_x_y_z] objects of [./contractAddresses] with one
      override.
    - [script/validate-contract-deployments.ts], the validator.  It builds
      a chain catalogue [chains] (the [viem/chains] namespace spread, then
      nine custom descriptors) and an RPC override table.  It selects the
      latest registry version with [compareVersions] in a [reduce], and
      prints it.  Then it fans out one async task per chain key.  Each
      task looks its chain up, awaits [getChainId], then fans out one
      async [getCode] check per contract and joins them.  The tasks set a
      shared [hasFailed] flag, which the final [Promise.all(...).then]
      turns into the summary line and the exit status.

    The registry feeds the validator: the script reads
    [DELEGATOR_CONTRACTS], and the keys the registry computes from
    [CHAIN_ID] are the ones the tasks [parseInt] back.

    ** Files

    The library lists its files in dependency order:

    - [Prelude] (this file): the [result] monad of thrown exceptions
      ([Ok] / [Throw (TypeError msg)]) with its bind notation in
      [js_scope].  Also the tactics [inv] and [str_eqb], the hint database
      [deploy], and the list lemmas the components share: [remove_at] and
      [set_nth] under [Permutation], [existsb], and the insertion sort
      [sort_by] with its permutation and sortedness lemmas, and the
      uniqueness of a strictly sorted permutation, and the subsequence
      order [subseq] in which the per-chain console lines are stated.
    - [JsNumber]: [Number.prototype.toString] on integers, [parseInt] and
      the array-index test on property keys, with the round trip
      [parseInt (toString z) = z].
    - [JsObject]: plain objects as ordered property lists.  It holds
      [js_set] (CreateDataProperty), [js_get], object literals with
      computed keys and spreads ([js_object]), and the key order of
      [Object.keys] / [Object.values]: array indices ascending, then
      creation order.  [own_keys_spec] states that order as ECMA-262
      does, and the typing rule [js_object_Forall] carries a property of
      every literal property to the object.
    - [Registry]: [CHAIN_ID] and [DELEGATOR_CONTRACTS] of [src/index.ts],
      as the literals evaluated by [JsObject].  The three deployment
      objects are Section variables.  [registry_ok] checks a registry
      against [DeployedContracts], with a predicate on addresses
      ([is_Address] for viem's type, [is_hex_address] for 20 bytes).
    - [Versions]: the [latestVersion] reduce of lines 171-179, proved
      against the class [CompareVersions] (the interface of the
      [compare-versions] package).  It also holds a semantic-version
      instance modelled from the spec.
    - [Chains]: the [Chain] record, the nine custom descriptors, the
      [chains] catalogue, [rpcUrlOverrides] and the lookup
      [Object.values(chains).find(...)] ([find_chain]).
    - [Validator]: the RPC client interface (the class [ChainRpc] with
      [getChainId] and [getCode]).  It holds the four phases of one chain
      task ([chain_start], [on_chain_id], [check_contract], [on_join]),
      the sequential reference run [run_chain_ref] / [run_ref], and the
      module top level [script_prefix].
    - [Concurrency]: the event-loop semantics.  A [world] holds the
      suspended tasks, the shared [hasFailed] flag, the console and the
      issued RPC requests.  [step] lets any pending settlement fire next,
      and [program_end] composes the top level with the fan-out.
    - [Scheduler]: an executable event loop.  [run_sched fuel w] settles
      the lowest-numbered pending task first, at most [fuel] times.  It
      runs concrete configurations by [vm_compute].

    ** Theorems

    - Concurrency: every terminal run refines the sequential reference
      ([fanout_refines]), so runs are deterministic up to the order of
      lines.  The exit status is 0 exactly when every chain passes, for
      the fan-out and for the whole script.  No chain's lines are lost,
      and the requests sent are the reference's ([fanout_calls]).  The
      shared flag equals the reduction the spec's design note proposes
      ([fanout_flag_is_reduction]).  Standard error is written exactly
      when the run fails.  The console is append-only: the header first,
      then the message of each chain missing from the catalogue, in key
      order ([fanout_header_first]).
      Within one chain the order is fixed: each contract check prints
      its lines as one block, and the summary line of the chain comes
      after all of them ([fanout_chain_lines], an invariant
      [chain_lines] of each task over the console by rule induction).
      The whole script crashes exactly when its top level throws or a
      chain's [getChainId] rejects ([program_crashed]); two runs that
      settle in different orders end alike ([fanout_deterministic]).
      The fan-out terminates (a measure) and always reaches a terminal
      world.  [getCode] is only requested after a confirmed chain id, and
      [hasFailed] only goes from [false] to [true].
    - Scheduler: every settlement of [run_sched] is a [step]; with
      enough fuel it stops in a terminal world, with the reference's
      outcome.  Its output is known exactly ([sched_exact]): the header,
      the missing chains' messages, then each chain's log in key order
      and the summary.  With every chain in the catalogue it equals the
      sequential [run_ref] line for line.
    - Validator: the behaviour of one task on each branch (missing
      descriptor, id mismatch, missing code, rejected request, success).
      On an empty registry the top level throws after printing version
      0.0.0; on any registry with a version above 0.0.0 it tests the
      maximum version and fans out over that version's chain keys
      ([script_prefix_tests_latest]).
    - Versions: the selected version is a maximum and a key, and an
      invalid key throws.
    - Chains: a viem export shadows a custom descriptor with the same id,
      and the override table's success and throwing paths.
    - Registry: chain keys are distinct, round-trip through [parseInt] and
      are array indices (so [Object.keys] sorts them numerically).  The
      spread overrides replace one address each, and the address
      literals are 20-byte hexadecimal.
    - Lemmas that check the model itself rather than the program, some
      of them used by the theorems above: the [parseInt] round trip and the
      array-index bound of [JsNumber], the equivalence of the modelled
      [Object.keys] with its ECMA-262 wording ([js_keys_spec]),
      conformance of [DELEGATOR_CONTRACTS] to its declared type, and the
      agreement of the custom descriptors with [CHAIN_ID].

    ** Bounds and fuel

    Every recursion is structural except the decimal printer
    [digits_rev].  Its fuel is [N.size n + 1], the bit length of the
    number plus one.  Dividing by 10 at least halves the number, so the
    fuel is always enough ([decimal_digits_value]).  Numbers are exact
    integers: the chain identifiers are far below 2^53, and the
    array-index bound 2^32 - 1 is kept as the code has it.
    [Concurrency] needs no fuel: the step relation is well founded
    ([fanout_terminates]), and a run has at most [2 + c] steps per chain
    key with [c] contracts ([fanout_steps_bound]).  [Scheduler] takes
    fuel: [world_measure w] settlements are enough from [w]
    ([run_sched_terminal]), and from the initial world the sum of
    [2 + c] over the chain keys is ([init_measure], used by
    [sched_exact]).

    ** Not modelled

    Every line of [src/index.ts] and of the validator script other than
    imports and comments is translated by a definition of this library.
    What is left is outside the sources, or is not a behaviour of the
    program:

    - The [viem] client and HTTP transport: their results are the
      abstract [ChainRpc] instance, so every theorem holds for any chain
      state.
    - The contents of [viem/chains]: a variable of the catalogue.
    - The address data of [./contractAddresses], which is not in the
      sources: Section variables.
    - [compare-versions]: an interface with the laws the selector needs,
      and an instance for major.minor.patch.  Pre-release tags are left
      out, as the spec assumes no pre-release handling.
    - Timing: a hung RPC call is a task that never settles.  [step]
      allows every order of settlement but not a stall.
    - The trace Node prints for an unhandled rejection: the outcome is
      [Crashed].  The lines printed before the crash stay in the [out] of
      the crashed world, where [fanout_header_first] and
      [fanout_chain_lines] describe them, but the outcome does not
      compare them: they depend on the interleaving, and the reference
      stops at the first rejected chain.
    *)

From Stdlib Require Import List String Ascii ZArith Lia Permutation Sorted Bool.
Import ListNotations.

(** ** The error monad of thrown exceptions *)

(** A JavaScript exception the modelled code can raise.  Only [TypeError]
    occurs in this program (property access on [undefined], invalid
    version strings). *)
Inductive js_error : Type :=
| TypeError (msg : string).

Inductive result (A : Type) : Type :=
| Ok (a : A)
| Throw (e : js_error).

Arguments Ok {A} a.
Arguments Throw {A} e.

Definition result_bind {A B : Type} (m : result A) (k : A -> result B) : result B :=
  match m with
  | Ok a => k a
  | Throw e => Throw e
  end.

Declare Scope js_scope.
Delimit Scope js_scope with js.
Notation "x <- m ;; k" := (result_bind m (fun x => k))
  (at level 61, m at next level, right associativity) : js_scope.

Lemma result_bind_ok {A B} (a : A) (k : A -> result B) :
  result_bind (Ok a) k = k a.
Proof. reflexivity. Qed.

Lemma result_bind_throw {A B} (e : js_error) (k : A -> result B) :
  result_bind (Throw e) k = Throw e.
Proof. reflexivity. Qed.

(** ** Tactics and hints shared by the components *)

Ltac inv H := inversion H; subst; clear H.

(** Case on every string equality test [String.eqb a b] in sight. *)
Ltac str_eqb :=
  repeat (simpl in *;
    match goal with
    | |- context [String.eqb ?a ?b] => destruct (String.eqb_spec a b); subst
    | H : context [String.eqb ?a ?b] |- _ => destruct (String.eqb_spec a b); subst
    end); try congruence.

(** The development's hint database.  The component files add to it the
    lemmas that close their routine goals: preservation of well-formed
    objects by every object construction (JsObject), and the closure of
    the step invariants under [star] (Concurrency). *)
Create HintDb deploy.

(** ** Lists *)

Section Lists.
Context {A : Type}.

(** Remove the element at position [j] (no change out of range). *)
Fixpoint remove_at (j : nat) (l : list A) : list A :=
  match l, j with
  | [], _ => []
  | _ :: t, O => t
  | h :: t, S j' => h :: remove_at j' t
  end.

Lemma remove_at_perm (j : nat) (l : list A) (x : A) :
  nth_error l j = Some x -> Permutation l (x :: remove_at j l).
Proof.
  revert j; induction l as [|h t IH]; intros [|j] H; simpl in *; try discriminate.
  - injection H as ->. reflexivity.
  - eapply perm_trans; [apply perm_skip, (IH j H) | apply perm_swap].
Qed.

Lemma remove_at_length (j : nat) (l : list A) (x : A) :
  nth_error l j = Some x -> S (List.length (remove_at j l)) = List.length l.
Proof.
  intros H. change (S (List.length (remove_at j l))) with (List.length (x :: remove_at j l)).
  symmetry. apply Permutation_length, remove_at_perm, H.
Qed.

Lemma existsb_perm (f : A -> bool) (l l' : list A) :
  Permutation l l' -> existsb f l = existsb f l'.
Proof.
  induction 1; simpl; try congruence.
  destruct (f x), (f y); reflexivity.
Qed.

Lemma existsb_remove_at (f : A -> bool) (j : nat) (l : list A) (x : A) :
  nth_error l j = Some x -> existsb f l = f x || existsb f (remove_at j l).
Proof.
  intros H. exact (existsb_perm f _ _ (remove_at_perm j l x H)).
Qed.

Lemma existsb_false_Forall (f : A -> bool) (l : list A) :
  existsb f l = false <-> Forall (fun x => f x = false) l.
Proof.
  induction l as [|x l IH]; simpl; [split; constructor|].
  rewrite orb_false_iff, IH. split; [intros [H1 H2]; constructor; assumption|].
  intros H'. inv H'. split; assumption.
Qed.

(** Replace the element at position [j] (no change out of range). *)
Fixpoint set_nth (j : nat) (x : A) (l : list A) : list A :=
  match l, j with
  | [], _ => []
  | _ :: t, O => x :: t
  | h :: t, S j' => h :: set_nth j' x t
  end.

Lemma set_nth_perm (j : nat) (x y : A) (l : list A) :
  nth_error l j = Some y -> Permutation (set_nth j x l) (x :: remove_at j l).
Proof.
  revert j; induction l as [|h t IH]; intros [|j] H; simpl in *; try discriminate; [reflexivity|].
  eapply perm_trans; [apply perm_skip, (IH j H) | apply perm_swap].
Qed.

Lemma nth_error_set_nth_inv (i j : nat) (x y : A) (l : list A) :
  nth_error (set_nth i x l) j = Some y -> (i = j /\ y = x) \/ nth_error l j = Some y.
Proof.
  revert i j; induction l as [|h t IH]; intros [|i] [|j] H; simpl in *; auto.
  - injection H as <-. auto.
  - destruct (IH i j H) as [[-> ->]|E]; auto.
Qed.

Lemma nth_error_snoc_inv (j : nat) (x y : A) (l : list A) :
  nth_error (l ++ [x]) j = Some y -> y = x \/ nth_error l j = Some y.
Proof.
  revert j; induction l as [|h t IH]; intros [|j] H; simpl in *.
  - injection H as <-. auto.
  - destruct j; discriminate.
  - auto.
  - auto.
Qed.

Lemma nth_error_snoc_cases (j : nat) (x y : A) (l : list A) :
  nth_error (l ++ [x]) j = Some y -> (j = List.length l /\ y = x) \/ (j < List.length l /\ nth_error l j = Some y).
Proof.
  revert j; induction l as [|h t IH]; intros [|j] H; simpl in *.
  - injection H as <-. auto.
  - destruct j; discriminate.
  - right. split; [lia | exact H].
  - destruct (IH j H) as [[-> ->]|[Lt E]]; [left | right]; split; auto; lia.
Qed.

Lemma Permutation_concat_map {B : Type} (g : A -> list B) (l l' : list A) :
  Permutation l l' -> Permutation (List.concat (map g l)) (List.concat (map g l')).
Proof.
  induction 1; simpl.
  - reflexivity.
  - apply Permutation_app_head. assumption.
  - apply Permutation_app_swap_app.
  - eapply perm_trans; eassumption.
Qed.

(** A boolean test for [NoDup], to decide it on concrete data. *)
Fixpoint nodupb (eqb : A -> A -> bool) (l : list A) : bool :=
  match l with
  | [] => true
  | x :: t => negb (existsb (eqb x) t) && nodupb eqb t
  end.

Lemma nodupb_NoDup (eqb : A -> A -> bool) (l : list A) :
  (forall x y, eqb x y = true <-> x = y) -> nodupb eqb l = true -> NoDup l.
Proof.
  intros Heq; induction l as [|x t IH]; simpl; intros H; [constructor|].
  apply andb_prop in H as [H1 H2]. constructor; [|exact (IH H2)].
  intros Hin. apply negb_true_iff in H1. rewrite <- not_true_iff_false in H1.
  apply H1, existsb_exists. exists x. split; [exact Hin | apply Heq; reflexivity].
Qed.

(** Two pairs with the same second component in a list whose second
    components are distinct are the same pair. *)
Lemma NoDup_snd_inj {B : Type} (l : list (B * A)) (b1 b2 : B) (a : A) :
  NoDup (map snd l) -> In (b1, a) l -> In (b2, a) l -> b1 = b2.
Proof.
  induction l as [|[b a'] l IH]; simpl; intros Hnd H1 H2; [contradiction|].
  inv Hnd. destruct H1 as [E1|H1], H2 as [E2|H2].
  - inv E1. inv E2. reflexivity.
  - inv E1. exfalso. apply H3, (in_map snd _ _ H2).
  - inv E2. exfalso. apply H3, (in_map snd _ _ H1).
  - exact (IH H4 H1 H2).
Qed.
Lemma set_nth_length (j : nat) (x : A) (l : list A) : List.length (set_nth j x l) = List.length l.
Proof. revert j; induction l as [|h t IH]; intros [|j]; simpl; auto. Qed.

Lemma nth_error_set_nth_eq (j : nat) (x y : A) (l : list A) :
  nth_error l j = Some y -> nth_error (set_nth j x l) j = Some x.
Proof. revert j; induction l as [|h t IH]; intros [|j] H; simpl in *; try discriminate; auto. Qed.

(** [subseq l1 l2]: the elements of [l1] occur in [l2] in the same
    order, possibly with others in between. *)
Inductive subseq : list A -> list A -> Prop :=
| subseq_nil : subseq [] []
| subseq_take x l1 l2 : subseq l1 l2 -> subseq (x :: l1) (x :: l2)
| subseq_skip x l1 l2 : subseq l1 l2 -> subseq l1 (x :: l2).

Lemma subseq_nil_l (l : list A) : subseq [] l.
Proof. induction l; constructor; assumption. Qed.

Lemma subseq_refl (l : list A) : subseq l l.
Proof. induction l; constructor; assumption. Qed.

Lemma subseq_app (l1 l2 l3 l4 : list A) : subseq l1 l2 -> subseq l3 l4 -> subseq (l1 ++ l3) (l2 ++ l4).
Proof. induction 1; simpl; auto using subseq_take, subseq_skip. Qed.

(** A subsequence stays one when lines are appended after it. *)
Lemma subseq_app_r (l1 l2 l : list A) : subseq l1 l2 -> subseq l1 (l2 ++ l).
Proof. intros H. rewrite <- (app_nil_r l1). apply subseq_app; [exact H | apply subseq_nil_l]. Qed.

(** Lines appended after a subsequence extend it. *)
Lemma subseq_snoc (l1 l2 l : list A) : subseq l1 l2 -> subseq (l1 ++ l) (l2 ++ l).
Proof. intros H. apply subseq_app; [exact H | apply subseq_refl]. Qed.

Lemma subseq_In (x : A) (l1 l2 : list A) : subseq l1 l2 -> In x l1 -> In x l2.
Proof. induction 1; simpl; intuition. Qed.
End Lists.

#[export] Hint Resolve subseq_nil_l subseq_refl subseq_app_r subseq_snoc : deploy.

Lemma In_strings (s : string) (l : list string) : existsb (String.eqb s) l = true -> In s l.
Proof.
  intros H. apply existsb_exists in H as (x & Hx & E). apply String.eqb_eq in E. subst. exact Hx.
Qed.

(** ** Insertion sort, used for the key order of objects and namespaces *)

Section Sorting.
Context {A : Type} (le : A -> A -> bool).

Fixpoint insert_by (x : A) (l : list A) : list A :=
  match l with
  | [] => [x]
  | y :: l' => if le x y then x :: l else y :: insert_by x l'
  end.

Definition sort_by (l : list A) : list A := fold_right insert_by [] l.

Lemma insert_by_perm (x : A) (l : list A) : Permutation (insert_by x l) (x :: l).
Proof.
  induction l as [|y l IH]; simpl; [reflexivity|].
  destruct (le x y); [reflexivity|].
  eapply perm_trans; [apply perm_skip, IH | apply perm_swap].
Qed.

Lemma sort_by_perm (l : list A) : Permutation (sort_by l) l.
Proof.
  induction l as [|x l IH]; simpl; [reflexivity|].
  eapply perm_trans; [apply insert_by_perm | apply perm_skip, IH].
Qed.

Hypothesis le_total : forall x y, le x y = false -> le y x = true.

Lemma insert_by_sorted (x : A) (l : list A) :
  Sorted (fun a b => le a b = true) l -> Sorted (fun a b => le a b = true) (insert_by x l).
Proof.
  induction 1 as [|y l Hs IH Hhd]; simpl; [repeat constructor|].
  destruct (le x y) eqn:Exy.
  - constructor; [constructor; assumption | constructor; assumption].
  - constructor; [exact IH|]. apply le_total in Exy.
    destruct l as [|z l]; simpl; [constructor; exact Exy|].
    inv Hhd. destruct (le x z); constructor; assumption.
Qed.

Lemma sort_by_sorted (l : list A) : Sorted (fun a b => le a b = true) (sort_by l).
Proof. induction l as [|x l IH]; simpl; [constructor | apply insert_by_sorted, IH]. Qed.
End Sorting.

(** Two lists sorted by the same strict order that are permutations of
    each other are equal: a sorted permutation is unique. *)
Lemma StronglySorted_perm_eq {A} (R : A -> A -> Prop) (l1 l2 : list A) :
  (forall a b, R a b -> R b a -> False) ->
  StronglySorted R l1 -> StronglySorted R l2 -> Permutation l1 l2 -> l1 = l2.
Proof.
  intros Asym S1. revert l2. induction S1 as [|a l1 S1 IH F1]; intros l2 S2 P.
  - symmetry. apply Permutation_nil, P.
  - destruct S2 as [|b l2 S2 F2]; [apply Permutation_sym, Permutation_nil in P; discriminate|].
    assert (a = b) as <-.
    { destruct (Permutation_in a P (or_introl eq_refl)) as [E|Ha]; [exact (eq_sym E)|].
      destruct (Permutation_in b (Permutation_sym P) (or_introl eq_refl)) as [E|Hb]; [exact E|].
      rewrite Forall_forall in F1, F2. exfalso. exact (Asym _ _ (F1 _ Hb) (F2 _ Ha)). }
    f_equal. apply IH; [exact S2 | exact (Permutation_cons_inv P)].
Qed.

Lemma Sorted_weaken {A} (R R' : A -> A -> Prop) (l : list A) :
  (forall a b, R a b -> R' a b) -> Sorted R l -> Sorted R' l.
Proof.
  intros HR. induction 1 as [|a l Hs IH Hhd]; constructor; [exact IH|].
  destruct Hhd; constructor. apply HR. assumption.
Qed.
