(* ===== verification/JsNumber.v ===== *)
(** * JavaScript numbers and their string forms

    The validator turns chain identifiers into property keys and back.
    Computed keys [[CHAIN_ID.x]] of [src/index.ts] are
    [Number.prototype.toString] of the number.  The script reads them back
    with [parseInt(chainIdAsString)] and uses the number again as a key in
    [rpcUrlOverrides[chainId]].  This file models the three conversions
    on the integers the program handles:

    - [jsnum_to_string]: ToString of an integral number, decimal and with
      no leading zeros ("NaN" for NaN);
    - [parseInt]: the ECMAScript algorithm with an undefined radix.  It
      skips leading white space and reads an optional sign, a "0x" prefix
      that switches to radix 16, and the longest prefix of digits of the
      radix;
    - [array_index]: whether a property key is an array index, that is
      the canonical decimal form of an integer below 2^32 - 1.  This
      decides the order of [Object.keys].

    Numbers are exact integers here.  JavaScript rounds digit strings
    above 2^53, and the chain identifiers are far below that bound. *)

From Stdlib Require Import List String Ascii ZArith NArith Lia Bool.
From S2P Require Import Prelude.
Import ListNotations.
Local Open Scope N_scope.

(** A JavaScript number as the program uses it: NaN or an integer. *)
Inductive jsnum : Type :=
| JNaN
| JInt (z : Z).

(** Strict equality [===] on numbers: NaN equals nothing. *)
Definition jsnum_eqb (a b : jsnum) : bool :=
  match a, b with
  | JInt x, JInt y => Z.eqb x y
  | _, _ => false
  end.

(** ** Printing *)

Definition digit_char (d : N) : ascii := ascii_of_N (48 + d).

(** Decimal digits of [n], least significant first.  Every call divides
    by 10, so [N.size n + 1] steps always reach a single digit. *)
Fixpoint digits_rev (fuel : nat) (n : N) : list N :=
  match fuel with
  | O => []
  | S f => if n <? 10 then [n] else (n mod 10) :: digits_rev f (n / 10)
  end.

Definition decimal_digits (n : N) : list N := rev (digits_rev (S (N.to_nat (N.size n))) n).

Fixpoint string_of_digits (ds : list N) : string :=
  match ds with
  | [] => EmptyString
  | d :: ds' => String (digit_char d) (string_of_digits ds')
  end.

Definition N_to_string (n : N) : string := string_of_digits (decimal_digits n).

(** Number::toString for integral numbers (radix 10). *)
Definition jsnum_to_string (x : jsnum) : string :=
  match x with
  | JNaN => "NaN"%string
  | JInt z =>
      if (z <? 0)%Z then String "-" (N_to_string (Z.abs_N z))
      else N_to_string (Z.to_N z)
  end.

(** ** Parsing *)

(** WhiteSpace and LineTerminator code points below 256: TAB, LF, VT,
    FF, CR, SPACE and NO-BREAK SPACE. *)
Definition is_js_space (c : ascii) : bool :=
  let n := N_of_ascii c in
  ((9 <=? n) && (n <=? 13)) || (n =? 32) || (n =? 160).

Fixpoint trim_start (s : string) : string :=
  match s with
  | String c r => if is_js_space c then trim_start r else s
  | EmptyString => s
  end.

(** Value of a digit character in radix 36: [0-9], then [a-z] or [A-Z]. *)
Definition digit_value (c : ascii) : option N :=
  let n := N_of_ascii c in
  if (48 <=? n) && (n <=? 57) then Some (n - 48)
  else if (97 <=? n) && (n <=? 122) then Some (n - 87)
  else if (65 <=? n) && (n <=? 90) then Some (n - 55)
  else None.

(** The longest prefix of [s] made of digits of the radix. *)
Fixpoint digits_prefix (radix : N) (s : string) : list N :=
  match s with
  | String c r =>
      match digit_value c with
      | Some d => if d <? radix then d :: digits_prefix radix r else []
      | None => []
      end
  | EmptyString => []
  end.

Definition digits_value (radix : N) (ds : list N) : N :=
  fold_left (fun acc d => radix * acc + d) ds 0.

(** Steps 4-6 of parseInt: an optional sign. *)
Definition strip_sign (s : string) : Z * string :=
  match s with
  | String c r =>
      if (c =? "-")%char then ((-1)%Z, r)
      else if (c =? "+")%char then (1%Z, r)
      else (1%Z, s)
  | EmptyString => (1%Z, s)
  end.

(** Steps 8-10 with an undefined radix: "0x" or "0X" selects radix 16. *)
Definition strip_prefix (s : string) : N * string :=
  match s with
  | String c0 (String x r) =>
      if (c0 =? "0")%char && ((x =? "x")%char || (x =? "X")%char) then (16, r) else (10, s)
  | _ => (10, s)
  end.

(** [parseInt(string)] with no radix argument (ECMA-262, 19.2.5). *)
Definition parseInt (s : string) : jsnum :=
  let '(sign, s2) := strip_sign (trim_start s) in
  let '(radix, s3) := strip_prefix s2 in
  match digits_prefix radix s3 with
  | [] => JNaN
  | ds => JInt (sign * Z.of_N (digits_value radix ds))%Z
  end.

(** ** Array indices *)

(** The value of [s] when it is a non-empty string of decimal digits. *)
Fixpoint decimal_value_acc (acc : N) (s : string) : option N :=
  match s with
  | EmptyString => Some acc
  | String c r =>
      match digit_value c with
      | Some d => if d <? 10 then decimal_value_acc (10 * acc + d) r else None
      | None => None
      end
  end.

Definition decimal_value (s : string) : option N :=
  match s with
  | EmptyString => None
  | _ => decimal_value_acc 0 s
  end.

(** A property key is an array index when it is the canonical decimal
    form of an integer below 2^32 - 1 (ECMA-262, 6.1.7). *)
Definition array_index (s : string) : option N :=
  match decimal_value s with
  | Some n => if (n <? 4294967295) && String.eqb (N_to_string n) s then Some n else None
  | None => None
  end.

(** ** Lemmas *)

(** Decide the boolean comparisons on [N] in the goal and hypotheses. *)
Ltac N_bool :=
  repeat match goal with
  | |- context [(?a <=? ?b)] => destruct (N.leb_spec a b)
  | |- context [(?a <? ?b)] => destruct (N.ltb_spec a b)
  | |- context [(?a =? ?b)] => destruct (N.eqb_spec a b)
  end; cbn [andb orb negb]; try lia; try (exfalso; lia).

Lemma N_of_digit_char (d : N) : d < 10 -> N_of_ascii (digit_char d) = 48 + d.
Proof. intros H. apply N_ascii_embedding. lia. Qed.

Lemma digit_value_char (d : N) : d < 10 -> digit_value (digit_char d) = Some d.
Proof.
  intros H. unfold digit_value. rewrite N_of_digit_char by exact H.
  N_bool; f_equal; lia.
Qed.

Lemma is_js_space_digit (d : N) : d < 10 -> is_js_space (digit_char d) = false.
Proof. intros H. unfold is_js_space. rewrite N_of_digit_char by exact H. N_bool. Qed.

(** A digit character differs from any character outside ['0'-'9']. *)
Lemma digit_char_eqb_other (d : N) (c : ascii) :
  d < 10 -> (N_of_ascii c < 48 \/ 57 < N_of_ascii c) -> (digit_char d =? c)%char = false.
Proof.
  intros Hd Hc. destruct (Ascii.eqb_spec (digit_char d) c) as [<-|]; [|reflexivity].
  rewrite N_of_digit_char in Hc by exact Hd. lia.
Qed.

Ltac digit_other := apply digit_char_eqb_other; [assumption | simpl; lia].

Lemma digits_rev_lt10 (f : nat) (n : N) : Forall (fun d => d < 10) (digits_rev f n).
Proof.
  revert n; induction f as [|f IH]; intros n; simpl; [constructor|].
  N_bool; constructor; auto; apply N.mod_lt; lia.
Qed.

Lemma digits_value_snoc (radix : N) (ds : list N) (d : N) :
  digits_value radix (ds ++ [d]) = radix * digits_value radix ds + d.
Proof. unfold digits_value. rewrite fold_left_app. reflexivity. Qed.

(** With [n < 2 ^ f], [f + 1] division steps print all of [n]. *)
Lemma digits_rev_value (f : nat) (n : N) :
  n < 2 ^ N.of_nat f -> digits_value 10 (rev (digits_rev (S f) n)) = n.
Proof.
  revert n; induction f as [|f IH]; intros n Hn.
  - simpl in Hn. assert (n = 0) as -> by lia. reflexivity.
  - rewrite Nat2N.inj_succ, N.pow_succ_r' in Hn.
    change (digits_rev (S (S f)) n)
      with (if n <? 10 then [n] else (n mod 10) :: digits_rev (S f) (n / 10)).
    destruct (N.ltb_spec n 10); [reflexivity|].
    cbn [rev]. rewrite digits_value_snoc, IH.
    + symmetry. apply N.div_mod. lia.
    + apply N.Div0.div_lt_upper_bound. lia.
Qed.

Lemma decimal_digits_value (n : N) : digits_value 10 (decimal_digits n) = n.
Proof.
  apply digits_rev_value. rewrite N2Nat.id. apply N.size_gt.
Qed.

Lemma decimal_digits_cons (n : N) :
  exists d ds, decimal_digits n = d :: ds /\ Forall (fun d => d < 10) (d :: ds).
Proof.
  unfold decimal_digits. pose proof (digits_rev_lt10 (S (N.to_nat (N.size n))) n) as H.
  apply Forall_rev in H. cbn [digits_rev] in *.
  destruct (n <? 10); simpl in *; eauto.
  destruct (rev (digits_rev (N.to_nat (N.size n)) (n / 10))) as [|d ds]; simpl in *; eauto.
Qed.

Lemma digits_prefix_digits (radix : N) (ds : list N) :
  10 <= radix -> Forall (fun d => d < 10) ds -> digits_prefix radix (string_of_digits ds) = ds.
Proof.
  intros Hr; induction 1 as [|d ds Hd _ IH]; simpl; [reflexivity|].
  rewrite digit_value_char by exact Hd. N_bool. now rewrite IH.
Qed.

Lemma strip_prefix_digits (ds : list N) :
  Forall (fun d => d < 10) ds -> strip_prefix (string_of_digits ds) = (10, string_of_digits ds).
Proof.
  intros H. destruct H as [|d ds Hd [|d' ds' Hd' _]]; simpl; [reflexivity..|].
  rewrite (digit_char_eqb_other d' "x"), (digit_char_eqb_other d' "X");
    [now rewrite andb_false_r | assumption | simpl; lia | assumption | simpl; lia].
Qed.

(** Parsing a non-empty string of decimal digits gives back its value. *)
Lemma parseInt_digits (d : N) (ds : list N) :
  Forall (fun d => d < 10) (d :: ds) ->
  parseInt (string_of_digits (d :: ds)) = JInt (Z.of_N (digits_value 10 (d :: ds))).
Proof.
  intros H. pose proof H as H'. inversion H' as [|? ? Hd _]; subst.
  unfold parseInt. cbn [string_of_digits trim_start].
  rewrite is_js_space_digit by exact Hd. cbn [strip_sign].
  rewrite (digit_char_eqb_other d "-"), (digit_char_eqb_other d "+") by (assumption || (simpl; lia)).
  change (String (digit_char d) (string_of_digits ds)) with (string_of_digits (d :: ds)).
  rewrite strip_prefix_digits, digits_prefix_digits by (assumption || lia).
  now rewrite Z.mul_1_l.
Qed.

Lemma trim_start_minus (s : string) : trim_start (String "-" s) = String "-" s.
Proof. reflexivity. Qed.

Lemma strip_sign_minus (s : string) : strip_sign (String "-" s) = ((-1)%Z, s).
Proof. reflexivity. Qed.

(** Round trip: [parseInt] reads back what [Number.prototype.toString]
    prints, for every integer, negative ones included. *)
Lemma parseInt_to_string (z : Z) : parseInt (jsnum_to_string (JInt z)) = JInt z.
Proof.
  unfold jsnum_to_string, N_to_string.
  destruct (Z.ltb_spec z 0) as [Hz|Hz].
  - destruct (decimal_digits_cons (Z.abs_N z)) as (d & ds & Heq & Hall).
    unfold parseInt. rewrite Heq, trim_start_minus, strip_sign_minus.
    rewrite strip_prefix_digits, digits_prefix_digits by (assumption || lia).
    rewrite <- Heq, decimal_digits_value. f_equal. lia.
  - destruct (decimal_digits_cons (Z.to_N z)) as (d & ds & Heq & Hall).
    rewrite Heq, parseInt_digits by exact Hall. rewrite <- Heq, decimal_digits_value.
    f_equal. lia.
Qed.

Lemma decimal_value_acc_digits (acc : N) (ds : list N) :
  Forall (fun d => d < 10) ds ->
  decimal_value_acc acc (string_of_digits ds) = Some (fold_left (fun a d => 10 * a + d) ds acc).
Proof.
  intros H; revert acc; induction H as [|d ds Hd _ IH]; intros acc; simpl; [reflexivity|].
  rewrite digit_value_char by exact Hd. N_bool. apply IH.
Qed.

Lemma decimal_value_to_string (n : N) : decimal_value (N_to_string n) = Some n.
Proof.
  unfold N_to_string. destruct (decimal_digits_cons n) as (d & ds & Heq & Hall).
  rewrite Heq. unfold decimal_value. cbn [string_of_digits].
  change (String (digit_char d) (string_of_digits ds)) with (string_of_digits (d :: ds)).
  rewrite decimal_value_acc_digits by exact Hall.
  rewrite <- Heq. f_equal. apply decimal_digits_value.
Qed.

(** The printed form of an integer below 2^32 - 1 is an array index,
    with that integer as its index. *)
Lemma array_index_to_string (n : N) :
  n < 4294967295 -> array_index (N_to_string n) = Some n.
Proof.
  intros H. unfold array_index. rewrite decimal_value_to_string, String.eqb_refl.
  destruct (N.ltb_spec n 4294967295); [reflexivity | lia].
Qed.

(** An array index is the printed form of its index. *)
Lemma array_index_canonical (s : string) (n : N) :
  array_index s = Some n -> N_to_string n = s /\ n < 4294967295.
Proof.
  unfold array_index. destruct (decimal_value s) as [m|]; [|discriminate].
  destruct (N.ltb_spec m 4294967295), (String.eqb_spec (N_to_string m) s);
    cbn [andb]; intros E; try discriminate. injection E as <-. auto.
Qed.

(** The key a number gives a property ([ToString]) is an array index
    exactly when the number is a non-negative integer below 2^32 - 1.
    Larger chain ids would lose the numeric order of [Object.keys]. *)
Theorem array_index_of_number (z : Z) :
  array_index (jsnum_to_string (JInt z)) =
    if (0 <=? z)%Z && (z <? 4294967295)%Z then Some (Z.to_N z) else None.
Proof.
  unfold jsnum_to_string. destruct (Z.ltb_spec z 0) as [Hz|Hz].
  - destruct (Z.leb_spec 0 z); [lia|]. reflexivity.
  - unfold array_index. rewrite decimal_value_to_string, String.eqb_refl.
    destruct (Z.leb_spec 0 z); [|lia]. cbn [andb].
    destruct (N.ltb_spec (Z.to_N z) 4294967295), (Z.ltb_spec z 4294967295); try reflexivity; lia.
Qed.

Lemma jsnum_eqb_spec (a b : jsnum) : jsnum_eqb a b = true <-> a = b /\ a <> JNaN.
Proof.
  destruct a as [|x], b as [|y]; simpl; split; try easy; try (intros [? []]; reflexivity).
  - intros E. apply Z.eqb_eq in E as ->. split; [reflexivity | discriminate].
  - intros [E _]. injection E as ->. apply Z.eqb_refl.
Qed.
