(* ===== verification/JsObject.v ===== *)
(** * JavaScript plain objects

    Every table of the program is a JavaScript object: [CHAIN_ID], the
    three levels of [DELEGATOR_CONTRACTS], the [chains] catalogue and
    [rpcUrlOverrides].  The code builds them with object literals
    ([{ k: v }], computed keys [{ [n]: v }] and spreads [{ ...o }]).  It
    reads them back with property access, [Object.keys] and
    [Object.values].  An object is its list of own properties in creation
    order:

    - [js_set] is CreateDataProperty.  It replaces the value of an
      existing key in place and appends a new key at the end;
    - [js_object] evaluates an object literal, one [prop_def] at a time;
      a spread copies the source's properties in its own key order;
    - [js_entries] is OrdinaryOwnPropertyKeys.  It puts the array-index
      keys first, in ascending numeric order, and the other keys after
      them in creation order.  [js_keys] and [js_values] project it.

    The well-formedness invariant is that keys are pairwise distinct
    ([js_wf]).  Every constructor preserves it.  On such objects the
    modelled key order is the only one that meets the specification's
    wording ([own_keys_spec], [js_keys_spec]). *)

From Stdlib Require Import List String ZArith NArith Lia Permutation Sorted Bool.
From S2P Require Import Prelude JsNumber.
Import ListNotations.

Definition jsobj (V : Type) : Type := list (string * V).

Inductive prop_def (V : Type) : Type :=
| PKey (k : string) (v : V)
| PSpread (src : jsobj V).

Arguments PKey {V} k v.
Arguments PSpread {V} src.

Section Objects.
Context {V : Type}.

(** Property access [o[k]]; [None] is [undefined]. *)
Fixpoint js_get (o : jsobj V) (k : string) : option V :=
  match o with
  | [] => None
  | (k', v) :: o' => if String.eqb k k' then Some v else js_get o' k
  end.

(** CreateDataProperty: update in place, or append a new key. *)
Fixpoint js_set (o : jsobj V) (k : string) (v : V) : jsobj V :=
  match o with
  | [] => [(k, v)]
  | (k', v') :: o' => if String.eqb k k' then (k, v) :: o' else (k', v') :: js_set o' k v
  end.

Definition set_all (props : jsobj V) (o : jsobj V) : jsobj V :=
  fold_left (fun acc kv => js_set acc (fst kv) (snd kv)) props o.

(** The index used to order an array-index key (0 for other keys,
    which are never compared). *)
Definition index_key (k : string) : N :=
  match array_index k with Some n => n | None => 0%N end.

Definition is_index_key (k : string) : bool :=
  match array_index k with Some _ => true | None => false end.

Definition index_leb (a b : string * V) : bool := (index_key (fst a) <=? index_key (fst b))%N.

Definition sort_by_index (l : jsobj V) : jsobj V := sort_by index_leb l.

(** OrdinaryOwnPropertyKeys: array indices ascending, then the other
    string keys in creation order. *)
Definition js_entries (o : jsobj V) : jsobj V :=
  sort_by_index (filter (fun kv => is_index_key (fst kv)) o)
    ++ filter (fun kv => negb (is_index_key (fst kv))) o.

Definition js_keys (o : jsobj V) : list string := map fst (js_entries o).
Definition js_values (o : jsobj V) : list V := map snd (js_entries o).

(** ECMA-262, OrdinaryOwnPropertyKeys, as the specification states it:
    the array-index keys in ascending numeric order, then the other
    string keys in ascending chronological order of creation. *)
Definition own_keys_spec (o : jsobj V) (ks : list string) : Prop :=
  exists idx,
    ks = idx ++ map fst (filter (fun kv => negb (is_index_key (fst kv))) o) /\
    Permutation idx (map fst (filter (fun kv => is_index_key (fst kv)) o)) /\
    StronglySorted (fun a b => (index_key a < index_key b)%N) idx.

(** One element of an object literal. *)
Definition eval_prop (o : jsobj V) (d : prop_def V) : jsobj V :=
  match d with
  | PKey k v => js_set o k v
  | PSpread src => set_all (js_entries src) o
  end.

(** An object literal [{ d1, d2, ... }]. *)
Definition js_object (defs : list (prop_def V)) : jsobj V := fold_left eval_prop defs [].

Definition js_wf (o : jsobj V) : Prop := NoDup (map fst o).

(** The keys one element of a literal defines. *)
Definition prop_defines (k : string) (d : prop_def V) : Prop :=
  match d with
  | PKey k' _ => k' = k
  | PSpread src => In k (map fst src)
  end.
End Objects.

(** ** Lemmas *)

Section ObjectLemmas.
Context {V : Type}.
Implicit Types (o l : jsobj V) (k : string) (v : V).

Lemma js_get_set_eq o k v : js_get (js_set o k v) k = Some v.
Proof. induction o as [|[k' v'] o IH]; simpl; str_eqb. Qed.

Lemma js_get_set_neq o k k2 v : k <> k2 -> js_get (js_set o k v) k2 = js_get o k2.
Proof. intros Hne. induction o as [|[k' v'] o IH]; simpl; str_eqb. Qed.

Lemma js_get_None o k : js_get o k = None <-> ~ In k (map fst o).
Proof.
  induction o as [|[k' v'] o IH]; simpl; [tauto|].
  str_eqb; [split; [discriminate | tauto]|]. rewrite IH. intuition congruence.
Qed.

Lemma js_set_keys o k v x : In x (map fst (js_set o k v)) <-> x = k \/ In x (map fst o).
Proof.
  induction o as [|[k' v'] o IH]; simpl; [intuition congruence|].
  destruct (String.eqb_spec k k') as [->|]; simpl; [|rewrite IH]; intuition congruence.
Qed.

(** [js_set] preserves distinct keys. *)
Lemma js_set_wf o k v : js_wf o -> js_wf (js_set o k v).
Proof.
  unfold js_wf. induction o as [|[k' v'] o IH]; simpl; intros H; [repeat constructor; auto|].
  inv H. str_eqb; constructor; auto. rewrite js_set_keys. intuition.
Qed.

Lemma set_all_wf l o : js_wf o -> js_wf (set_all l o).
Proof.
  unfold set_all. revert o; induction l as [|kv l IH]; simpl; auto.
  intros o H. apply IH, js_set_wf, H.
Qed.

Lemma js_get_In o k v : js_wf o -> (js_get o k = Some v <-> In (k, v) o).
Proof.
  unfold js_wf. induction o as [|[k' v'] o IH]; simpl; intros H; [split; easy|].
  inv H. str_eqb.
  - split; [intros [= ->]; auto|]. intros [[= ->]|Hin]; [reflexivity|].
    exfalso. apply H2. apply (in_map fst _ _ Hin).
  - rewrite IH by assumption. intuition congruence.
Qed.

Lemma sort_by_index_perm l : Permutation (sort_by_index l) l.
Proof. apply sort_by_perm. Qed.

Lemma filter_split_perm (f : string * V -> bool) l :
  Permutation (filter f l ++ filter (fun x => negb (f x)) l) l.
Proof.
  induction l as [|x l IH]; simpl; [reflexivity|].
  destruct (f x); simpl; [now apply perm_skip|].
  symmetry. apply Permutation_cons_app. now symmetry.
Qed.

(** [Object.keys]/[Object.values] list every own property exactly once. *)
Lemma js_entries_perm o : Permutation (js_entries o) o.
Proof.
  unfold js_entries. eapply perm_trans; [|apply (filter_split_perm (fun kv => is_index_key (fst kv)))].
  apply Permutation_app_tail, sort_by_index_perm.
Qed.

Lemma js_wf_perm o o' : Permutation o o' -> js_wf o -> js_wf o'.
Proof. unfold js_wf. intros P. apply Permutation_NoDup, Permutation_map, P. Qed.

Lemma js_get_perm o o' k : js_wf o -> Permutation o o' -> js_get o k = js_get o' k.
Proof.
  intros W P. pose proof (js_wf_perm _ _ P W) as W'.
  destruct (js_get o k) as [v|] eqn:E.
  - symmetry. apply js_get_In; [exact W'|]. apply (Permutation_in _ P), js_get_In; assumption.
  - symmetry. apply js_get_None. apply js_get_None in E. intros Hin. apply E.
    apply (Permutation_in _ (Permutation_map fst (Permutation_sym P)) Hin).
Qed.

Lemma js_get_entries o k : js_wf o -> js_get (js_entries o) k = js_get o k.
Proof. intros W. symmetry. apply js_get_perm, Permutation_sym, js_entries_perm; exact W. Qed.

Lemma js_entries_wf o : js_wf o -> js_wf (js_entries o).
Proof. intros W. eapply js_wf_perm; [symmetry; apply js_entries_perm | exact W]. Qed.

(** Copying a list of distinct properties: the copied value wins. *)
Lemma js_get_set_all l o k :
  js_wf l -> js_get (set_all l o) k = match js_get l k with Some v => Some v | None => js_get o k end.
Proof.
  unfold js_wf, set_all. revert o; induction l as [|[k' v'] l IH]; simpl; intros o H; [reflexivity|].
  inv H. rewrite IH by assumption. str_eqb.
  - rewrite (proj2 (js_get_None l k') H2). apply js_get_set_eq.
  - destruct (js_get l k); [reflexivity|]. apply js_get_set_neq. congruence.
Qed.

(** A spread [{ ...src }] element of a literal. *)
Lemma js_get_spread o src k :
  js_wf src ->
  js_get (eval_prop o (PSpread src)) k = match js_get src k with Some v => Some v | None => js_get o k end.
Proof.
  intros W. simpl. rewrite js_get_set_all by (apply js_entries_wf, W).
  now rewrite js_get_entries.
Qed.

Lemma eval_prop_wf o d : js_wf o -> js_wf (eval_prop o d).
Proof. destruct d; simpl; [apply js_set_wf | apply set_all_wf]. Qed.

(** Every object literal has pairwise distinct keys. *)
Lemma js_object_wf (defs : list (prop_def V)) : js_wf (js_object defs).
Proof.
  unfold js_object. assert (H : js_wf (@nil (string * V))) by constructor.
  revert H. generalize (@nil (string * V)). induction defs as [|d defs IH]; simpl; auto.
  intros o H. apply IH, eval_prop_wf, H.
Qed.

Lemma sort_by_index_sorted l :
  Sorted (fun a b => (index_key (fst a) <= index_key (fst b))%N) (sort_by_index l).
Proof.
  eapply Sorted_weaken; [|apply sort_by_sorted].
  - intros a b H. apply N.leb_le, H.
  - intros a b H. unfold index_leb in *. apply N.leb_gt in H. apply N.leb_le. lia.
Qed.

Lemma filter_map_fst (f : string -> bool) l :
  map fst (filter (fun kv => f (fst kv)) l) = filter f (map fst l).
Proof. induction l as [|[k v] l IH]; simpl; [reflexivity|]. destruct (f k); simpl; congruence. Qed.

Lemma sorted_index_keys (l : jsobj V) :
  Sorted (fun a b => (index_key a <= index_key b)%N) (map fst (sort_by_index l)).
Proof.
  pose proof (sort_by_index_sorted l) as H.
  induction H as [|kv l' Hs IH Hhd]; simpl; constructor; [exact IH|].
  destruct Hhd; simpl; constructor; assumption.
Qed.

(** Two array-index keys with the same index are the same key. *)
Lemma index_key_inj (a b : string) :
  is_index_key a = true -> is_index_key b = true -> index_key a = index_key b -> a = b.
Proof.
  unfold is_index_key, index_key.
  destruct (array_index a) as [n|] eqn:Ea, (array_index b) as [m|] eqn:Eb; try discriminate.
  intros _ _ <-. apply array_index_canonical in Ea as [<- _], Eb as [<- _]. reflexivity.
Qed.

(** Distinct array-index keys sorted by index are strictly sorted. *)
Lemma strictly_sorted_index_keys (ks : list string) :
  Sorted (fun a b => (index_key a <= index_key b)%N) ks -> NoDup ks ->
  Forall (fun k => is_index_key k = true) ks ->
  StronglySorted (fun a b => (index_key a < index_key b)%N) ks.
Proof.
  intros S. apply Sorted_StronglySorted in S; [|intros x y z; lia].
  induction S as [|a l S IH F]; intros Nd Idx; constructor.
  - inversion Nd; inversion Idx; auto.
  - inversion Nd as [|? ? Na Nl]; inversion Idx as [|? ? Ia Il]; subst.
    rewrite Forall_forall in F, Il |- *. intros b Hb.
    assert (index_key a <> index_key b) by (intros E; apply Na; rewrite (index_key_inj a b Ia (Il b Hb) E); exact Hb).
    specialize (F b Hb). lia.
Qed.

(** The order of [Object.keys]: a prefix of array-index keys in
    ascending numeric order, then every other key in creation order. *)
Lemma js_keys_order o :
  exists idx,
    js_keys o = idx ++ filter (fun k => negb (is_index_key k)) (map fst o) /\
    Forall (fun k => is_index_key k = true) idx /\
    Sorted (fun a b => (index_key a <= index_key b)%N) idx.
Proof.
  exists (map fst (sort_by_index (filter (fun kv => is_index_key (fst kv)) o))). split; [|split].
  - unfold js_keys, js_entries. rewrite map_app. f_equal.
    apply (filter_map_fst (fun k => negb (is_index_key k))).
  - apply Forall_forall. intros k Hk.
    apply in_map_iff in Hk as ([k' v] & <- & Hin).
    apply (Permutation_in _ (sort_by_index_perm _)), filter_In in Hin. apply Hin.
  - apply sorted_index_keys.
Qed.

(** The model is the specification: on an object with distinct keys,
    a key list meets OrdinaryOwnPropertyKeys exactly when it is
    [js_keys].  The insertion sort of [sort_by_index] is one way to
    compute the unique list the specification describes. *)
Theorem js_keys_spec (o : jsobj V) (ks : list string) :
  js_wf o -> (own_keys_spec o ks <-> ks = js_keys o).
Proof.
  intros W. set (I := map fst (sort_by_index (filter (fun kv => is_index_key (fst kv)) o))).
  assert (EK : js_keys o = I ++ map fst (filter (fun kv => negb (is_index_key (fst kv))) o))
    by (unfold js_keys, js_entries; apply map_app).
  assert (PI : Permutation I (map fst (filter (fun kv => is_index_key (fst kv)) o)))
    by (apply Permutation_map, sort_by_index_perm).
  assert (SI : StronglySorted (fun a b => (index_key a < index_key b)%N) I).
  { apply strictly_sorted_index_keys; [apply sorted_index_keys| |].
    - eapply Permutation_NoDup; [apply Permutation_sym, PI|]. rewrite filter_map_fst.
      apply NoDup_filter, W.
    - apply Forall_forall. intros k Hk. apply (Permutation_in _ PI) in Hk.
      rewrite filter_map_fst in Hk. apply filter_In in Hk. apply Hk. }
  rewrite EK. split.
  - intros (idx & -> & P & S). f_equal.
    apply (StronglySorted_perm_eq _ _ _ (fun a b H1 H2 => N.lt_asymm _ _ H1 H2) S SI).
    exact (perm_trans P (Permutation_sym PI)).
  - intros ->. exists I. auto.
Qed.

Lemma set_all_keys l o k : In k (map fst (set_all l o)) <-> In k (map fst l) \/ In k (map fst o).
Proof.
  unfold set_all. revert o; induction l as [|[k' v'] l IH]; simpl; intros o; [tauto|].
  rewrite IH, js_set_keys. simpl. intuition.
Qed.

Lemma js_entries_keys o k : In k (map fst (js_entries o)) <-> In k (map fst o).
Proof.
  split; apply Permutation_in, Permutation_map;
    [apply js_entries_perm | symmetry; apply js_entries_perm].
Qed.

(** The keys of an object literal are the keys its elements define. *)
Lemma js_object_keys (defs : list (prop_def V)) k :
  In k (map fst (js_object defs)) <-> Exists (prop_defines k) defs.
Proof.
  unfold js_object.
  enough (H : forall o, In k (map fst (fold_left eval_prop defs o)) <->
                   Exists (prop_defines k) defs \/ In k (map fst o))
    by (rewrite H; simpl; tauto).
  induction defs as [|d defs IH]; simpl; intros o; [rewrite Exists_nil; tauto|].
  rewrite IH, Exists_cons. destruct d as [k' v|src]; simpl.
  - rewrite js_set_keys. intuition.
  - rewrite set_all_keys, js_entries_keys. tauto.
Qed.

Lemma js_set_app_l P A k v :
  In k (map fst P) -> js_set (P ++ A) k v = js_set P k v ++ A.
Proof.
  induction P as [|[k' v'] P IH]; simpl; intros H; [contradiction|].
  destruct (String.eqb_spec k k'); [reflexivity|].
  rewrite IH; [reflexivity|]. destruct H; [congruence | assumption].
Qed.

Lemma js_set_app_r P A k v :
  ~ In k (map fst P) -> js_set (P ++ A) k v = P ++ js_set A k v.
Proof.
  induction P as [|[k' v'] P IH]; simpl; intros H; [reflexivity|].
  destruct (String.eqb_spec k k'); [exfalso; apply H; left; congruence|].
  rewrite IH; [reflexivity|]. intros Hin. apply H. right. exact Hin.
Qed.

(** Setting an existing key keeps the key list. *)
Lemma js_set_keys_in P k v : In k (map fst P) -> map fst (js_set P k v) = map fst P.
Proof.
  induction P as [|[k' v'] P IH]; simpl; intros H; [contradiction|].
  destruct (String.eqb_spec k k') as [->|]; simpl; [reflexivity|].
  rewrite IH; [reflexivity|]. destruct H; [congruence | assumption].
Qed.

Lemma set_all_fresh l o :
  js_wf l -> (forall k, In k (map fst l) -> ~ In k (map fst o)) -> set_all l o = o ++ l.
Proof.
  unfold js_wf, set_all. revert o; induction l as [|[k v] l IH]; simpl; intros o Hl Hdis.
  - now rewrite app_nil_r.
  - inv Hl.
    assert (Hk : ~ In k (map fst o)) by (apply Hdis; left; reflexivity).
    assert (E : js_set o k v = o ++ [(k, v)])
      by (rewrite <- (app_nil_r o) at 1; rewrite js_set_app_r by exact Hk; reflexivity).
    rewrite E, IH; [now rewrite <- app_assoc | assumption |].
    intros k' Hk' Hin. rewrite map_app, in_app_iff in Hin. simpl in Hin.
    destruct Hin as [Hin|[<-|[]]]; [exact (Hdis k' (or_intror Hk') Hin) | contradiction].
Qed.

(** Without array-index keys, [js_entries] is the creation order. *)
Lemma js_entries_no_index o :
  Forall (fun k => is_index_key k = false) (map fst o) -> js_entries o = o.
Proof.
  intros H. unfold js_entries.
  assert (E1 : filter (fun kv => is_index_key (fst kv)) o = []).
  { induction o as [|[k v] o IH]; simpl in *; [reflexivity|].
    inversion H as [|? ? Hk Hrest]; subst. rewrite Hk. exact (IH Hrest). }
  assert (E2 : filter (fun kv => negb (is_index_key (fst kv))) o = o).
  { clear E1. induction o as [|[k v] o IH]; simpl in *; [reflexivity|].
    inversion H as [|? ? Hk Hrest]; subst. rewrite Hk. simpl. f_equal. exact (IH Hrest). }
  rewrite E1, E2. reflexivity.
Qed.

(** A literal of plain properties with distinct keys is that list. *)
Lemma js_object_keys_only (l : jsobj V) :
  js_wf l -> js_object (map (fun kv => PKey (fst kv) (snd kv)) l) = l.
Proof.
  intros W. unfold js_object.
  assert (E : forall o, fold_left eval_prop (map (fun kv => PKey (fst kv) (snd kv)) l) o = set_all l o).
  { clear W. unfold set_all. induction l as [|kv l IH]; intros o; simpl; auto. }
  rewrite E, set_all_fresh by (try exact W; intros k _ []). reflexivity.
Qed.

Lemma find_app {A} (f : A -> bool) (l1 l2 : list A) :
  find f (l1 ++ l2) = match find f l1 with Some x => Some x | None => find f l2 end.
Proof. induction l1 as [|x l1 IH]; simpl; [reflexivity|]. destruct (f x); auto. Qed.

Lemma js_set_In o k v kv :
  In kv (js_set o k v) -> kv = (k, v) \/ In kv o.
Proof.
  induction o as [|[k' v'] o IH]; simpl; [intuition|].
  destruct (String.eqb k k'); simpl; [intuition|]. intros [E|Hin]; [auto|]. destruct (IH Hin); auto.
Qed.

Lemma set_all_In l o kv : In kv (set_all l o) -> In kv l \/ In kv o.
Proof.
  unfold set_all. revert o; induction l as [|kv' l IH]; simpl; intros o H; [auto|].
  destruct (IH _ H) as [H'|H']; [auto|].
  apply js_set_In in H' as [E|H']; [left; left; subst kv; destruct kv'; reflexivity | auto].
Qed.

(** The typing rule of object literals: when every property [k: v] and
    every property of every spread source satisfy [P], so does every
    property of the object. *)
Lemma js_object_Forall (P : string -> V -> Prop) (defs : list (prop_def V)) :
  Forall (fun d => match d with
                   | PKey k v => P k v
                   | PSpread src => Forall (fun kv => P (fst kv) (snd kv)) src
                   end) defs ->
  Forall (fun kv => P (fst kv) (snd kv)) (js_object defs).
Proof.
  unfold js_object. intros Hdefs.
  assert (Ho : Forall (fun kv => P (fst kv) (snd kv)) (@nil (string * V))) by constructor.
  revert Ho. generalize (@nil (string * V)) as o.
  induction Hdefs as [|d defs Hd _ IH]; intros o Ho; simpl; [exact Ho|]. apply IH.
  rewrite Forall_forall in Ho |- *. intros kv Hkv. destruct d as [k v|src]; simpl in Hkv.
  - apply js_set_In in Hkv as [->|Hkv]; [exact Hd | exact (Ho _ Hkv)].
  - apply set_all_In in Hkv as [Hkv|Hkv]; [|exact (Ho _ Hkv)].
    rewrite Forall_forall in Hd. apply Hd, (Permutation_in _ (js_entries_perm src) Hkv).
Qed.
(** A key [Object.keys] lists has a value. *)
Lemma js_keys_get (o : jsobj V) (k : string) : In k (js_keys o) -> exists v, js_get o k = Some v.
Proof.
  intros Hk. destruct (js_get o k) as [v|] eqn:E; [eauto|].
  apply js_get_None in E. exfalso. apply E, js_entries_keys, Hk.
Qed.
End ObjectLemmas.

#[export] Hint Resolve js_set_wf set_all_wf eval_prop_wf js_object_wf : deploy.

Local Open Scope string_scope.

Example js_keys_spec_witness :
  js_wf [("b", 1); ("10", 2); ("a", 3); ("2", 4)] /\
  own_keys_spec [("b", 1); ("10", 2); ("a", 3); ("2", 4)] ["2"; "10"; "b"; "a"].
Proof.
  assert (W : js_wf [("b", 1); ("10", 2); ("a", 3); ("2", 4)])
    by (apply (nodupb_NoDup String.eqb); [intros; apply String.eqb_eq | reflexivity]).
  split; [exact W|]. apply (proj2 (js_keys_spec _ _ W)). vm_compute. reflexivity.
Defined.
