(* ===== verification/Registry.v ===== *)
(** * The deployment registry of [src/index.ts]

    [CHAIN_ID] is an object literal from chain names to numeric
    identifiers (hexadecimal literals in the source, kept as such here).
    [DELEGATOR_CONTRACTS] maps a version string to an object whose keys
    are the computed keys [[CHAIN_ID.name]], that is
    [ToString(CHAIN_ID.name)].  Its values are the deployment objects of
    [./contractAddresses], sometimes spread with one address overridden.

    The deployment objects live in a file outside [src/].  The spec
    treats them as opaque data, so they are the Section variables
    [deployments_1_0_0], [deployments_1_1_0] and [deployments_1_3_0], and
    every theorem holds for any contents.  The same deployment object is
    stored under many chains (aliasing); nothing in the program mutates
    it, so a value per use is faithful.

    [registry_ok] is the declared type [DeployedContracts] as a check:
    number keys for the chains and, for every address, a predicate that
    is viem's [Address] type or the stronger 20-byte form. *)

From Stdlib Require Import List String Ascii ZArith NArith Lia Permutation Bool.
From S2P Require Import Prelude JsNumber JsObject.
Import ListNotations.
Local Open Scope string_scope.

Definition Address : Type := string.

(** [export const CHAIN_ID = { ... }] *)
Definition CHAIN_ID : jsobj Z := js_object [
  (* Mainnets *)
  PKey "arbitrum" 0xa4b1%Z;
  PKey "arbitrumNova" 0xa4ba%Z;
  PKey "base" 0x2105%Z;
  PKey "berachain" 0x138de%Z;
  PKey "bsc" 0x38%Z;
  PKey "gnosis" 0x64%Z;
  PKey "ink" 0xdef1%Z;
  PKey "linea" 0xe708%Z;
  PKey "mainnet" 0x1%Z;
  PKey "optimism" 0xa%Z;
  PKey "polygon" 0x89%Z;
  PKey "sei" 0x531%Z;
  PKey "sonic" 0x92%Z;
  PKey "unichain" 0x82%Z;
  (* Testnets *)
  PKey "bscTestnet" 0x61%Z;
  PKey "arbitrumSepolia" 0x66eee%Z;
  PKey "baseSepolia" 0x14a34%Z;
  PKey "berachainBepolia" 0x138c5%Z;
  PKey "chiado" 0x27d8%Z;
  PKey "citreaTestnet" 0x13fb%Z;
  PKey "hoodiTestnet" 0x88bb0%Z;
  PKey "inkSepolia" 0xba5ed%Z;
  PKey "lineaSepolia" 0xe705%Z;
  PKey "megaEthTestnet" 0x18c6%Z;
  PKey "monadTestnet" 0x279f%Z;
  PKey "optimismSepolia" 0xaa37dc%Z;
  PKey "polygonAmoy" 0x13882%Z;
  PKey "seiTestnet" 0x530%Z;
  PKey "sepolia" 0xaa36a7%Z;
  PKey "sonicTestnet" 0x3909%Z;
  PKey "unichainSepolia" 0x515%Z;
  (* decommissioned *)
  PKey "lineaGoerli" 0xe704%Z
].

(** The computed key [[CHAIN_ID.name]]: ToPropertyKey of the property
    value, which is "undefined" when the name is missing. *)
Definition CHAIN_ID_key (name : string) : string :=
  match js_get CHAIN_ID name with
  | Some z => jsnum_to_string (JInt z)
  | None => "undefined"
  end.

(** [type DeployedContracts = Record<string, Record<number, Record<string, Address>>>] *)
Definition DeployedContracts : Type := jsobj (jsobj (jsobj Address)).

(** viem's [type Address = `0x${string}`]. *)
Definition is_Address (a : Address) : bool := String.prefix "0x" a.

Definition is_hex_char (c : ascii) : bool :=
  let n := nat_of_ascii c in
  (Nat.leb 48 n && Nat.leb n 57) || (Nat.leb 65 n && Nat.leb n 70) || (Nat.leb 97 n && Nat.leb n 102).

(** A 20-byte address: "0x" and forty hexadecimal digits. *)
Definition is_hex_address (a : Address) : bool :=
  match a with
  | String "0" (String "x" rest) => Nat.eqb (String.length rest) 40 && forallb is_hex_char (list_ascii_of_string rest)
  | _ => false
  end.

(** Conformance of a registry to [DeployedContracts], every address
    satisfying [ok]: the chain keys of a version are numbers (array
    indices) and the values are objects of addresses. *)
Definition addresses_ok (ok : Address -> bool) (r : jsobj Address) : bool :=
  forallb (fun nc => ok (snd nc)) r.

Definition chain_records_ok (ok : Address -> bool) (o : jsobj (jsobj Address)) : bool :=
  forallb (fun kv => is_index_key (fst kv) && addresses_ok ok (snd kv)) o.

Definition registry_ok (ok : Address -> bool) (d : DeployedContracts) : bool :=
  forallb (fun kv => chain_records_ok ok (snd kv)) d.

Section Registry.
Variables deployments_1_3_0 deployments_1_1_0 deployments_1_0_0 : jsobj Address.

(** The value of the ['1.0.0'] entry of [DELEGATOR_CONTRACTS]. *)
Definition contracts_1_0_0 : jsobj (jsobj Address) := js_object [
  (* Mainnets *)
  PKey (CHAIN_ID_key "optimism") deployments_1_0_0;
  PKey (CHAIN_ID_key "polygon") deployments_1_0_0;
  PKey (CHAIN_ID_key "base") deployments_1_0_0;
  PKey (CHAIN_ID_key "arbitrum") deployments_1_0_0;
  PKey (CHAIN_ID_key "linea") deployments_1_0_0;
  (* Testnets *)
  PKey (CHAIN_ID_key "sepolia") (js_object [
    PSpread deployments_1_0_0;
    PKey "HybridDeleGatorImpl" "0x5989F5D13DF8fc818EdA65e417AED90459fD67F7"]);
  PKey (CHAIN_ID_key "lineaSepolia") (js_object [
    PSpread deployments_1_0_0;
    PKey "HybridDeleGatorImpl" "0x5989F5D13DF8fc818EdA65e417AED90459fD67F7"])].

(** The value of the ['1.1.0'] entry. *)
Definition contracts_1_1_0 : jsobj (jsobj Address) := js_object [
  (* Mainnets *)
  PKey (CHAIN_ID_key "arbitrum") deployments_1_1_0;
  PKey (CHAIN_ID_key "base") deployments_1_1_0;
  PKey (CHAIN_ID_key "linea") deployments_1_1_0;
  PKey (CHAIN_ID_key "optimism") deployments_1_1_0;
  PKey (CHAIN_ID_key "polygon") deployments_1_1_0;
  (* Testnets *)
  PKey (CHAIN_ID_key "sepolia") deployments_1_1_0;
  PKey (CHAIN_ID_key "lineaSepolia") deployments_1_1_0;
  PKey (CHAIN_ID_key "baseSepolia") (js_object [
    PSpread deployments_1_1_0;
    PKey "SimpleFactory" "0xE8eA1DE8D6AfE400B7C8C1A81B7C29B7876b4d02"])].

(** The value of the ['1.3.0'] entry. *)
Definition contracts_1_3_0 : jsobj (jsobj Address) := js_object [
  (* Mainnets *)
  PKey (CHAIN_ID_key "mainnet") deployments_1_3_0;
  PKey (CHAIN_ID_key "polygon") deployments_1_3_0;
  PKey (CHAIN_ID_key "bsc") deployments_1_3_0;
  PKey (CHAIN_ID_key "optimism") deployments_1_3_0;
  PKey (CHAIN_ID_key "arbitrum") deployments_1_3_0;
  PKey (CHAIN_ID_key "ink") deployments_1_3_0;
  PKey (CHAIN_ID_key "linea") deployments_1_3_0;
  PKey (CHAIN_ID_key "base") deployments_1_3_0;
  PKey (CHAIN_ID_key "gnosis") deployments_1_3_0;
  PKey (CHAIN_ID_key "berachain") deployments_1_3_0;
  PKey (CHAIN_ID_key "unichain") deployments_1_3_0;
  PKey (CHAIN_ID_key "arbitrumNova") deployments_1_3_0;
  PKey (CHAIN_ID_key "sei") deployments_1_3_0;
  PKey (CHAIN_ID_key "sonic") deployments_1_3_0;
  (* Testnets *)
  PKey (CHAIN_ID_key "bscTestnet") deployments_1_3_0;
  PKey (CHAIN_ID_key "citreaTestnet") deployments_1_3_0;
  PKey (CHAIN_ID_key "megaEthTestnet") deployments_1_3_0;
  PKey (CHAIN_ID_key "chiado") deployments_1_3_0;
  PKey (CHAIN_ID_key "lineaSepolia") deployments_1_3_0;
  PKey (CHAIN_ID_key "berachainBepolia") deployments_1_3_0;
  PKey (CHAIN_ID_key "baseSepolia") deployments_1_3_0;
  PKey (CHAIN_ID_key "arbitrumSepolia") deployments_1_3_0;
  PKey (CHAIN_ID_key "sepolia") deployments_1_3_0;
  PKey (CHAIN_ID_key "optimismSepolia") deployments_1_3_0;
  PKey (CHAIN_ID_key "unichainSepolia") deployments_1_3_0;
  PKey (CHAIN_ID_key "polygonAmoy") deployments_1_3_0;
  PKey (CHAIN_ID_key "inkSepolia") deployments_1_3_0;
  PKey (CHAIN_ID_key "monadTestnet") deployments_1_3_0;
  PKey (CHAIN_ID_key "seiTestnet") deployments_1_3_0;
  PKey (CHAIN_ID_key "sonicTestnet") deployments_1_3_0;
  PKey (CHAIN_ID_key "hoodiTestnet") deployments_1_3_0].

(** [export const DELEGATOR_CONTRACTS: DeployedContracts = { ... }] *)
Definition DELEGATOR_CONTRACTS : DeployedContracts := js_object [
  PKey "1.0.0" contracts_1_0_0;
  PKey "1.1.0" contracts_1_1_0;
  PKey "1.3.0" contracts_1_3_0].
End Registry.

(** ** Theorems *)

Lemma forallb_Forall {A} (f : A -> bool) (l : list A) : forallb f l = true <-> Forall (fun x => f x = true) l.
Proof. rewrite forallb_forall, Forall_forall. reflexivity. Qed.

(** A check [f] on every property of an object literal holds when it
    holds on every property [k: v] and on every spread source. *)
Lemma object_literal_ok {W} (f : string -> W -> bool) (defs : list (prop_def W)) :
  Forall (fun d => match d with
                   | PKey k v => f k v = true
                   | PSpread src => forallb (fun kv => f (fst kv) (snd kv)) src = true
                   end) defs ->
  forallb (fun kv => f (fst kv) (snd kv)) (js_object defs) = true.
Proof.
  intros H. apply forallb_Forall, (js_object_Forall (fun k v => f k v = true)).
  eapply Forall_impl; [|exact H]. intros [k v|src]; [auto | apply forallb_Forall].
Qed.

(** The registry satisfies a check [ok] on every address when the
    deployment objects do and the two address literals of
    [src/index.ts] do. *)
Lemma registry_ok_by (ok : Address -> bool) (d130 d110 d100 : jsobj Address) :
  ok "0x5989F5D13DF8fc818EdA65e417AED90459fD67F7" = true ->
  ok "0xE8eA1DE8D6AfE400B7C8C1A81B7C29B7876b4d02" = true ->
  addresses_ok ok d130 = true -> addresses_ok ok d110 = true -> addresses_ok ok d100 = true ->
  registry_ok ok (DELEGATOR_CONTRACTS d130 d110 d100) = true.
Proof.
  intros L1 L2 H130 H110 H100.
  assert (Sp : forall d name addr, addresses_ok ok d = true -> ok addr = true ->
                 addresses_ok ok (js_object [PSpread d; PKey name addr]) = true).
  { intros d name addr Hd Ha. apply (object_literal_ok (fun _ a => ok a)).
    apply Forall_cons; [exact Hd | apply Forall_cons; [exact Ha | apply Forall_nil]]. }
  apply (object_literal_ok (fun _ o => chain_records_ok ok o)).
  repeat apply Forall_cons; try apply Forall_nil;
    [unfold contracts_1_0_0 | unfold contracts_1_1_0 | unfold contracts_1_3_0];
    apply (object_literal_ok (fun k v => is_index_key k && addresses_ok ok v));
    repeat (apply Forall_cons;
            [apply andb_true_intro; split; [vm_compute; reflexivity | first [assumption | apply Sp; assumption]]|]);
    apply Forall_nil.
Qed.

Lemma CHAIN_ID_wf : js_wf CHAIN_ID.
Proof. unfold CHAIN_ID; auto with deploy. Qed.

Lemma CHAIN_ID_values_distinct : NoDup (map snd CHAIN_ID).
Proof. apply (nodupb_NoDup Z.eqb); [intros; apply Z.eqb_eq | vm_compute; reflexivity]. Qed.

Lemma CHAIN_ID_values_range (name : string) (z : Z) :
  js_get CHAIN_ID name = Some z -> (0 <= z < 4294967295)%Z.
Proof.
  intros H. apply js_get_In in H; [|exact CHAIN_ID_wf].
  assert (Hall : forallb (fun z => (0 <=? z) && (z <? 4294967295))%Z (map snd CHAIN_ID) = true)
    by (vm_compute; reflexivity).
  rewrite forallb_forall in Hall. specialize (Hall z (in_map snd _ _ H)).
  apply andb_prop in Hall as [H1 H2]. apply Z.leb_le in H1. apply Z.ltb_lt in H2. lia.
Qed.

(** What the script relies on for a computed key [[CHAIN_ID.name]]:
    [parseInt] reads the identifier back, and the key is an array index. *)
Lemma CHAIN_ID_key_props (name : string) (z : Z) :
  js_get CHAIN_ID name = Some z ->
  parseInt (CHAIN_ID_key name) = JInt z /\ array_index (CHAIN_ID_key name) = Some (Z.to_N z).
Proof.
  intros H. pose proof (CHAIN_ID_values_range _ _ H) as R.
  unfold CHAIN_ID_key. rewrite H. split; [apply parseInt_to_string|].
  unfold jsnum_to_string. destruct (Z.ltb_spec z 0); [lia|].
  apply array_index_to_string. lia.
Qed.

(** C33: two chain names with the same computed key are the same name.
    So no entry of a [DELEGATOR_CONTRACTS] literal silently overwrites
    another one. *)
Theorem CHAIN_ID_key_inj (n1 n2 : string) (z1 z2 : Z) :
  js_get CHAIN_ID n1 = Some z1 -> js_get CHAIN_ID n2 = Some z2 ->
  CHAIN_ID_key n1 = CHAIN_ID_key n2 -> n1 = n2.
Proof.
  intros H1 H2 E. apply (f_equal parseInt) in E.
  rewrite (proj1 (CHAIN_ID_key_props _ _ H1)), (proj1 (CHAIN_ID_key_props _ _ H2)) in E.
  injection E as <-. apply js_get_In in H1, H2; try exact CHAIN_ID_wf.
  exact (NoDup_snd_inj _ _ _ _ CHAIN_ID_values_distinct H1 H2).
Qed.

Lemma CHAIN_ID_key_known (name : string) (z : Z) :
  js_get CHAIN_ID name = Some z ->
  In z (map snd CHAIN_ID) /\ parseInt (CHAIN_ID_key name) = JInt z /\
  jsnum_to_string (JInt z) = CHAIN_ID_key name /\ array_index (CHAIN_ID_key name) = Some (Z.to_N z).
Proof.
  intros H. pose proof (CHAIN_ID_key_props _ _ H) as [P A].
  split; [apply (in_map snd _ (name, z)), js_get_In; [exact CHAIN_ID_wf | exact H]|].
  split; [exact P|]. split; [|exact A]. unfold CHAIN_ID_key. now rewrite H.
Qed.

Lemma DELEGATOR_CONTRACTS_get (d130 d110 d100 : jsobj Address) (v : string) (vobj : jsobj (jsobj Address)) :
  js_get (DELEGATOR_CONTRACTS d130 d110 d100) v = Some vobj ->
  (v = "1.0.0" /\ vobj = contracts_1_0_0 d100) \/
  (v = "1.1.0" /\ vobj = contracts_1_1_0 d110) \/
  (v = "1.3.0" /\ vobj = contracts_1_3_0 d130).
Proof. unfold DELEGATOR_CONTRACTS, js_object. simpl. str_eqb; intros [= <-]; tauto. Qed.

(** Close [In k (map fst (js_object [PKey (CHAIN_ID_key name) _; ...]))]
    by the literal's entries, one known chain name each. *)
Ltac registry_key_cases Hk :=
  apply js_object_keys, Exists_exists in Hk as (d & Hd & Hdef);
  simpl in Hd; repeat destruct Hd as [<-|Hd]; try contradiction;
  simpl in Hdef; subst; eexists; apply CHAIN_ID_key_known; reflexivity.

(** C32: every chain key of every registry version is the decimal form of
    a [CHAIN_ID] value.  [parseInt] reads that value back, printing it
    again gives the key, and the key is an array index (so [Object.keys]
    lists the chains in ascending numeric order). *)
Theorem registry_chain_keys (d130 d110 d100 : jsobj Address) (v : string)
    (vobj : jsobj (jsobj Address)) (k : string) :
  js_get (DELEGATOR_CONTRACTS d130 d110 d100) v = Some vobj -> In k (js_keys vobj) ->
  exists z, In z (map snd CHAIN_ID) /\ parseInt k = JInt z /\
    jsnum_to_string (JInt z) = k /\ array_index k = Some (Z.to_N z).
Proof.
  intros Hv Hk. unfold js_keys in Hk. apply (proj1 (js_entries_keys _ _)) in Hk.
  apply DELEGATOR_CONTRACTS_get in Hv as [[-> ->]|[[-> ->]|[-> ->]]];
    [unfold contracts_1_0_0 in Hk | unfold contracts_1_1_0 in Hk | unfold contracts_1_3_0 in Hk];
    registry_key_cases Hk.
Qed.

(** A literal [{ ...d, name: addr }]: the override wins, every other
    contract keeps the deployment's address. *)
Lemma spread_override (d : jsobj Address) (name addr c : string) :
  js_wf d ->
  js_get (js_object [PSpread d; PKey name addr]) c =
    if String.eqb c name then Some addr else js_get d c.
Proof.
  intros W. unfold js_object. simpl fold_left.
  destruct (String.eqb_spec c name) as [->|Hne].
  - apply js_get_set_eq.
  - rewrite js_get_set_neq by congruence. fold (eval_prop (@nil (string * Address)) (PSpread d)).
    rewrite js_get_spread by exact W. now destruct (js_get d c).
Qed.

(** C34: the three overridden entries of the registry.  On Sepolia and
    Linea Sepolia in version 1.0.0, [HybridDeleGatorImpl] is replaced by
    0x5989...67F7.  On Base Sepolia in version 1.1.0, [SimpleFactory] is
    replaced by 0xE8eA...4d02.  Every other contract keeps the address of
    its deployment object. *)
Theorem registry_overrides (d130 d110 d100 : jsobj Address) (c : string) :
  js_wf d100 -> js_wf d110 ->
  exists v100 v110 o_sep o_lsep o_bsep,
    js_get (DELEGATOR_CONTRACTS d130 d110 d100) "1.0.0" = Some v100 /\
    js_get (DELEGATOR_CONTRACTS d130 d110 d100) "1.1.0" = Some v110 /\
    js_get v100 (CHAIN_ID_key "sepolia") = Some o_sep /\
    js_get v100 (CHAIN_ID_key "lineaSepolia") = Some o_lsep /\
    js_get v110 (CHAIN_ID_key "baseSepolia") = Some o_bsep /\
    js_get o_sep c = (if String.eqb c "HybridDeleGatorImpl"
                      then Some "0x5989F5D13DF8fc818EdA65e417AED90459fD67F7" else js_get d100 c) /\
    js_get o_lsep c = (if String.eqb c "HybridDeleGatorImpl"
                       then Some "0x5989F5D13DF8fc818EdA65e417AED90459fD67F7" else js_get d100 c) /\
    js_get o_bsep c = (if String.eqb c "SimpleFactory"
                       then Some "0xE8eA1DE8D6AfE400B7C8C1A81B7C29B7876b4d02" else js_get d110 c).
Proof.
  intros W100 W110. do 5 eexists.
  do 5 (split; [reflexivity|]).
  split; [|split]; apply spread_override; assumption.
Qed.

(** [Object.keys(latestContracts)] lists the chains of version 1.3.0 in
    ascending numeric order of their ids, not in the order of the
    literal: the chain keys are array indices.  So the chain tasks start
    with Ethereum mainnet and end with OP Sepolia, whatever the
    deployments hold. *)
Theorem registry_1_3_0_keys (d130 : jsobj Address) :
  js_keys (contracts_1_3_0 d130) =
    ["1"; "10"; "56"; "97"; "100"; "130"; "137"; "146"; "1301"; "1328"; "1329"; "5115"; "6342";
     "8453"; "10143"; "10200"; "14601"; "42161"; "42170"; "57073"; "59141"; "59144"; "80002";
     "80069"; "80094"; "84532"; "421614"; "560048"; "763373"; "11155111"; "11155420"] /\
  map fst (contracts_1_3_0 d130) <> js_keys (contracts_1_3_0 d130).
Proof. split; vm_compute; [reflexivity | discriminate]. Qed.

(** [DELEGATOR_CONTRACTS] has the type it is declared with,
    [DeployedContracts]: the chain keys of every version are numbers, and
    every contract address is a viem [Address] (a string starting with
    "0x"), given that the deployment objects hold addresses. *)
Theorem DELEGATOR_CONTRACTS_typed (d130 d110 d100 : jsobj Address) :
  addresses_ok is_Address d130 = true -> addresses_ok is_Address d110 = true ->
  addresses_ok is_Address d100 = true ->
  registry_ok is_Address (DELEGATOR_CONTRACTS d130 d110 d100) = true.
Proof. intros. apply registry_ok_by; [reflexivity | reflexivity | assumption..]. Qed.

(** C27: Every address the registry holds is a 20-byte address ("0x" and
    forty hexadecimal digits) when the deployment objects hold such
    addresses: the address literals written in [src/index.ts] are
    well formed. *)
Theorem DELEGATOR_CONTRACTS_hex (d130 d110 d100 : jsobj Address) :
  addresses_ok is_hex_address d130 = true -> addresses_ok is_hex_address d110 = true ->
  addresses_ok is_hex_address d100 = true ->
  registry_ok is_hex_address (DELEGATOR_CONTRACTS d130 d110 d100) = true.
Proof. intros. apply registry_ok_by; [reflexivity | reflexivity | assumption..]. Qed.

Example registry_overrides_witness :
  js_wf [("HybridDeleGatorImpl", "0x01"); ("DelegationManager", "0x02")] /\
  js_wf [("SimpleFactory", "0x03")] /\
  exists v100 v110 o_sep o_lsep o_bsep,
    js_get (DELEGATOR_CONTRACTS [] [("SimpleFactory", "0x03")]
              [("HybridDeleGatorImpl", "0x01"); ("DelegationManager", "0x02")]) "1.0.0" = Some v100 /\
    js_get (DELEGATOR_CONTRACTS [] [("SimpleFactory", "0x03")]
              [("HybridDeleGatorImpl", "0x01"); ("DelegationManager", "0x02")]) "1.1.0" = Some v110 /\
    js_get v100 (CHAIN_ID_key "sepolia") = Some o_sep /\
    js_get v100 (CHAIN_ID_key "lineaSepolia") = Some o_lsep /\
    js_get v110 (CHAIN_ID_key "baseSepolia") = Some o_bsep /\
    js_get o_sep "DelegationManager" = Some "0x02" /\
    js_get o_lsep "HybridDeleGatorImpl" = Some "0x5989F5D13DF8fc818EdA65e417AED90459fD67F7" /\
    js_get o_bsep "SimpleFactory" = Some "0xE8eA1DE8D6AfE400B7C8C1A81B7C29B7876b4d02".
Proof.
  assert (W1 : js_wf [("HybridDeleGatorImpl", "0x01"); ("DelegationManager", "0x02")])
    by (apply (nodupb_NoDup String.eqb); [intros; apply String.eqb_eq | reflexivity]).
  assert (W2 : js_wf [("SimpleFactory", "0x03")])
    by (apply (nodupb_NoDup String.eqb); [intros; apply String.eqb_eq | reflexivity]).
  split; [exact W1|]. split; [exact W2|].
  destruct (registry_overrides [] _ _ "DelegationManager" W1 W2)
    as (v100 & v110 & o1 & o2 & o3 & H1 & H2 & H3 & H4 & H5 & H6 & _).
  destruct (registry_overrides [] _ _ "HybridDeleGatorImpl" W1 W2)
    as (v100' & v110' & o1' & o2' & o3' & H1' & H2' & H3' & H4' & H5' & _ & H7' & _).
  destruct (registry_overrides [] _ _ "SimpleFactory" W1 W2)
    as (v100'' & v110'' & o1'' & o2'' & o3'' & H1'' & H2'' & H3'' & H4'' & H5'' & _ & _ & H8'').
  rewrite H1 in H1'. rewrite H1 in H1''. rewrite H2 in H2'. rewrite H2 in H2''.
  injection H1' as <-. injection H1'' as <-. injection H2' as <-. injection H2'' as <-.
  rewrite H4 in H4'. injection H4' as <-. rewrite H5 in H5''. injection H5'' as <-.
  exists v100, v110, o1, o2, o3. repeat split; assumption.
Defined.

Example CHAIN_ID_key_inj_witness :
  CHAIN_ID_key "sepolia" = "11155111" /\ "sepolia" = "sepolia".
Proof.
  split; [vm_compute; reflexivity|]. eapply CHAIN_ID_key_inj; reflexivity.
Defined.

Example registry_chain_keys_witness :
  exists z, In z (map snd CHAIN_ID) /\ parseInt "59144" = JInt z /\
    jsnum_to_string (JInt z) = "59144" /\ array_index "59144" = Some (Z.to_N z).
Proof.
  eapply (registry_chain_keys [] [] [] "1.3.0"); [reflexivity|].
  apply In_strings. vm_compute. reflexivity.
Defined.

(** A deployment object with two 20-byte addresses. *)
Definition sample_deployment : jsobj Address :=
  [("DelegationManager", "0xdb9B1e94B5b69Df7e401DDbedE43491141047dB3");
   ("SimpleFactory", "0x69Aa2f9fe1572F1B640E1bbc512f5c3a734fc77c")].

Example DELEGATOR_CONTRACTS_typed_witness :
  addresses_ok is_Address sample_deployment = true /\
  registry_ok is_Address (DELEGATOR_CONTRACTS sample_deployment sample_deployment sample_deployment) = true.
Proof.
  assert (H : addresses_ok is_Address sample_deployment = true) by reflexivity.
  split; [exact H | exact (DELEGATOR_CONTRACTS_typed _ _ _ H H H)].
Defined.

Example DELEGATOR_CONTRACTS_hex_witness :
  addresses_ok is_hex_address sample_deployment = true /\
  registry_ok is_hex_address (DELEGATOR_CONTRACTS sample_deployment sample_deployment sample_deployment) = true.
Proof.
  assert (H : addresses_ok is_hex_address sample_deployment = true) by (vm_compute; reflexivity).
  split; [exact H | exact (DELEGATOR_CONTRACTS_hex _ _ _ H H H)].
Defined.
