(* ===== verification/Versions.v ===== *)
(** * Selecting the latest registry version

    [script/validate-contract-deployments.ts], lines 171-179:
    [Object.keys(DELEGATOR_CONTRACTS).reduce((acc, version) =>
       compareVersions(version, acc) === 1 ? version : acc, '0.0.0')].

    [compareVersions] comes from the [compare-versions] package, outside
    the repository.  What the selection needs from it is the class
    [CompareVersions]: it throws on an invalid string, and on valid ones
    it is a total order answering -1, 0 or 1.  [latestVersion] is proved
    against that class.  The instance [semver_instance] is modelled from
    the spec (numeric major.minor.patch, no pre-releases) and discharges
    the laws.  A thrown comparison aborts the [reduce]; the [result]
    monad propagates it. *)

From Stdlib Require Import List String Ascii ZArith NArith Lia Bool.
From S2P Require Import Prelude JsNumber JsObject Registry.
Import ListNotations.
Local Open Scope string_scope.
Local Open Scope js_scope.

(** What the validator relies on from [compareVersions]. *)
Class CompareVersions := {
  compareVersions : string -> string -> result Z;
  valid_version : string -> bool;
  compare_valid : forall a b, valid_version a = true -> valid_version b = true ->
    compareVersions a b = Ok (-1)%Z \/ compareVersions a b = Ok 0%Z \/ compareVersions a b = Ok 1%Z;
  compare_invalid : forall a b, valid_version a = false \/ valid_version b = false ->
    exists e, compareVersions a b = Throw e;
  compare_refl : forall a, valid_version a = true -> compareVersions a a = Ok 0%Z;
  compare_antisym : forall a b, compareVersions a b = Ok 1%Z <-> compareVersions b a = Ok (-1)%Z;
  compare_le_trans : forall a b c,
    valid_version a = true -> valid_version b = true -> valid_version c = true ->
    compareVersions a b <> Ok 1%Z -> compareVersions b c <> Ok 1%Z -> compareVersions a c <> Ok 1%Z
}.

Section Latest.
Context `{CompareVersions}.

(** The callback of the [reduce]. *)
Definition latestVersion_step (acc : result string) (version : string) : result string :=
  a <- acc ;;
  c <- compareVersions version a ;;
  Ok (if Z.eqb c 1 then version else a).

(** [const latestVersion = Object.keys(DELEGATOR_CONTRACTS).reduce(..., '0.0.0')] *)
Definition latestVersion (versions : list string) : result string :=
  fold_left latestVersion_step versions (Ok "0.0.0").

(** [a] is at most [b]: [compareVersions a b] does not answer 1. *)
Definition version_le (a b : string) : Prop := compareVersions a b <> Ok 1%Z.

Lemma latestVersion_fold_throw (vs : list string) (e : js_error) :
  fold_left latestVersion_step vs (Throw e) = Throw e.
Proof. induction vs as [|v vs IH]; simpl; auto. Qed.

(** The loop invariant of the [reduce]: the accumulator is valid, is the
    seed or one of the versions seen, and bounds all of them. *)
Lemma latestVersion_fold_spec (vs : list string) (acc : string) :
  valid_version acc = true -> Forall (fun k => valid_version k = true) vs ->
  exists latest,
    fold_left latestVersion_step vs (Ok acc) = Ok latest /\ valid_version latest = true /\
    (latest = acc \/ In latest vs) /\ version_le acc latest /\ Forall (fun k => version_le k latest) vs.
Proof.
  unfold version_le. revert acc; induction vs as [|v vs IH]; intros acc Hacc Hvs; simpl.
  - exists acc. rewrite compare_refl by exact Hacc. repeat split; auto; discriminate.
  - inv Hvs. cbn [latestVersion_step result_bind].
    destruct (compare_valid v acc) as [E|[E|E]]; try assumption; rewrite E; simpl.
    + destruct (IH acc Hacc H3) as (l & F & Vl & Hl & Le & All).
      exists l. repeat split; auto; [tauto|].
      constructor; [|exact All]. apply (compare_le_trans v acc l); auto; congruence.
    + destruct (IH acc Hacc H3) as (l & F & Vl & Hl & Le & All).
      exists l. repeat split; auto; [tauto|].
      constructor; [|exact All]. apply (compare_le_trans v acc l); auto; congruence.
    + destruct (IH v H2 H3) as (l & F & Vl & Hl & Le & All).
      exists l. split; [exact F|]. split; [exact Vl|].
      split; [simpl; destruct Hl as [->|]; tauto|].
      split; [|constructor; auto].
      apply (compare_le_trans acc v l); auto. apply compare_antisym in E. congruence.
Qed.

(** C22: with valid version keys, the [reduce] does not throw.  Its
    result bounds every key and is one of them or the seed "0.0.0". *)
Theorem latestVersion_max (vs : list string) :
  valid_version "0.0.0" = true -> Forall (fun k => valid_version k = true) vs ->
  exists latest, latestVersion vs = Ok latest /\ (latest = "0.0.0" \/ In latest vs) /\
    Forall (fun k => version_le k latest) vs.
Proof.
  intros H0 Hvs. destruct (latestVersion_fold_spec vs "0.0.0" H0 Hvs) as (l & F & _ & Hl & _ & All).
  exists l. auto.
Qed.

(** C24: When some key is above "0.0.0", the result is one of the keys: the
    maximum of the registry's versions. *)
Theorem latestVersion_in_keys (vs : list string) (k : string) :
  valid_version "0.0.0" = true -> Forall (fun k => valid_version k = true) vs ->
  In k vs -> compareVersions k "0.0.0" = Ok 1%Z ->
  exists latest, latestVersion vs = Ok latest /\ In latest vs /\ Forall (fun k => version_le k latest) vs.
Proof.
  intros H0 Hvs Hk Hgt. destruct (latestVersion_fold_spec vs "0.0.0" H0 Hvs) as (l & F & _ & [->|Hin] & _ & All).
  - rewrite Forall_forall in All. exfalso. exact (All k Hk Hgt).
  - exists l. auto.
Qed.

(** C23: an invalid version key makes the [reduce] throw. *)
Theorem latestVersion_invalid (vs : list string) (k : string) :
  In k vs -> valid_version k = false -> exists e, latestVersion vs = Throw e.
Proof.
  unfold latestVersion. generalize (Ok "0.0.0" : result string) as acc.
  induction vs as [|v vs IH]; simpl; intros acc Hk Hinv; [contradiction|].
  destruct Hk as [->|Hk]; [|exact (IH _ Hk Hinv)].
  destruct acc as [a|e]; simpl.
  - destruct (compare_invalid k a (or_introl Hinv)) as [e E]. rewrite E. simpl.
    exists e. apply latestVersion_fold_throw.
  - exists e. apply latestVersion_fold_throw.
Qed.
End Latest.

(** ** The semantic-version comparator (modelled from the spec) *)

(** Lexicographic combination of two comparison functions that are
    total orders (antisymmetric, with [Eq] meaning equality, and [Lt]
    transitive). *)
Section Lex.
Context {A B : Type} (cA : A -> A -> comparison) (cB : B -> B -> comparison).
Hypothesis cA_antisym : forall x y, cA y x = CompOpp (cA x y).
Hypothesis cA_eq : forall x y, cA x y = Eq -> x = y.
Hypothesis cA_trans : forall x y z, cA x y = Lt -> cA y z = Lt -> cA x z = Lt.
Hypothesis cB_antisym : forall x y, cB y x = CompOpp (cB x y).
Hypothesis cB_eq : forall x y, cB x y = Eq -> x = y.
Hypothesis cB_trans : forall x y z, cB x y = Lt -> cB y z = Lt -> cB x z = Lt.

Definition lex (p q : A * B) : comparison :=
  match cA (fst p) (fst q) with
  | Eq => cB (snd p) (snd q)
  | c => c
  end.

Lemma refl_of_antisym {T} (c : T -> T -> comparison) :
  (forall x y, c y x = CompOpp (c x y)) -> forall x, c x x = Eq.
Proof. intros Hc x. specialize (Hc x x). destruct (c x x); simpl in *; congruence. Qed.

Lemma lex_antisym p q : lex q p = CompOpp (lex p q).
Proof.
  unfold lex. rewrite (cA_antisym (fst p)).
  destruct (cA (fst p) (fst q)); simpl; auto.
Qed.

Lemma lex_eq p q : lex p q = Eq -> p = q.
Proof.
  destruct p as [a b], q as [a' b']. unfold lex; simpl.
  destruct (cA a a') eqn:E; try discriminate. intros E'.
  rewrite (cA_eq _ _ E), (cB_eq _ _ E'). reflexivity.
Qed.

Lemma lex_trans p q r : lex p q = Lt -> lex q r = Lt -> lex p r = Lt.
Proof.
  destruct p as [a b], q as [a' b'], r as [a'' b'']. unfold lex; simpl.
  destruct (cA a a') eqn:E1; try discriminate;
    destruct (cA a' a'') eqn:E2; try discriminate; intros H1 H2.
  - rewrite (cA_eq _ _ E1), E2. exact (cB_trans _ _ _ H1 H2).
  - rewrite (cA_eq _ _ E1), E2. reflexivity.
  - rewrite <- (cA_eq _ _ E2), E1. reflexivity.
  - rewrite (cA_trans _ _ _ E1 E2). reflexivity.
Qed.
End Lex.

Lemma N_compare_trans (x y z : N) : N.compare x y = Lt -> N.compare y z = Lt -> N.compare x z = Lt.
Proof. rewrite !N.compare_lt_iff. lia. Qed.

Lemma N_compare_antisym (x y : N) : N.compare y x = CompOpp (N.compare x y).
Proof. apply N.compare_antisym. Qed.

(** Split a string on ".". *)
Fixpoint split_dot (cur : string) (s : string) : list string :=
  match s with
  | EmptyString => [cur]
  | String c r =>
      if (c =? ".")%char then cur :: split_dot EmptyString r
      else split_dot (cur ++ String c EmptyString) r
  end.

(** A version "major.minor.patch" with numeric components. *)
Definition parse_semver (s : string) : option ((N * N) * N) :=
  match split_dot EmptyString s with
  | [a; b; c] =>
      match decimal_value a, decimal_value b, decimal_value c with
      | Some x, Some y, Some z => Some ((x, y), z)
      | _, _, _ => None
      end
  | _ => None
  end.

Definition semver_cmp : (N * N) * N -> (N * N) * N -> comparison :=
  lex (lex N.compare N.compare) N.compare.

Definition comparison_to_Z (c : comparison) : Z :=
  match c with Gt => 1 | Eq => 0 | Lt => -1 end.

(** [compareVersions(v1, v2)]: 1, 0 or -1, and a [TypeError] when either
    argument is not a valid version. *)
Definition compare_semver (v1 v2 : string) : result Z :=
  match parse_semver v1, parse_semver v2 with
  | Some x, Some y => Ok (comparison_to_Z (semver_cmp x y))
  | _, _ => Throw (TypeError "Invalid argument not valid semver")
  end.

Definition semver_valid (s : string) : bool :=
  match parse_semver s with Some _ => true | None => false end.

Lemma semver_cmp_antisym x y : semver_cmp y x = CompOpp (semver_cmp x y).
Proof.
  unfold semver_cmp. repeat first [apply lex_antisym | apply N_compare_antisym | progress intros].
Qed.

Lemma semver_cmp_eq x y : semver_cmp x y = Eq -> x = y.
Proof.
  unfold semver_cmp. repeat first [apply lex_eq | apply N.compare_eq | progress intros].
Qed.

Lemma semver_cmp_trans x y z : semver_cmp x y = Lt -> semver_cmp y z = Lt -> semver_cmp x z = Lt.
Proof.
  unfold semver_cmp.
  repeat first [apply lex_trans | apply N_compare_trans | apply lex_eq | apply N.compare_eq | progress intros].
Qed.

Lemma semver_parse_valid (s : string) : semver_valid s = true -> exists x, parse_semver s = Some x.
Proof. unfold semver_valid. destruct (parse_semver s); [eauto | discriminate]. Qed.

Lemma comparison_to_Z_1 (c : comparison) : comparison_to_Z c = 1%Z <-> c = Gt.
Proof. destruct c; simpl; split; congruence. Qed.

#[export] Instance semver_instance : CompareVersions.
Proof.
  refine {| compareVersions := compare_semver; valid_version := semver_valid |}.
  - intros a b Ha Hb. apply semver_parse_valid in Ha as [x Ex], Hb as [y Ey].
    unfold compare_semver. rewrite Ex, Ey. destruct (semver_cmp x y); auto.
  - intros a b H. unfold semver_valid, compare_semver in *.
    destruct (parse_semver a), (parse_semver b); destruct H; try discriminate; eauto.
  - intros a Ha. apply semver_parse_valid in Ha as [x Ex].
    unfold compare_semver. rewrite Ex, (refl_of_antisym _ semver_cmp_antisym). reflexivity.
  - intros a b. unfold compare_semver.
    destruct (parse_semver a) as [x|], (parse_semver b) as [y|]; try (split; discriminate).
    rewrite (semver_cmp_antisym x y). destruct (semver_cmp x y); simpl; split; congruence.
  - intros a b c Ha Hb Hc. apply semver_parse_valid in Ha as [x Ex], Hb as [y Ey], Hc as [z Ez].
    unfold compare_semver. rewrite Ex, Ey, Ez. intros H1 H2 H3.
    injection H3 as H3. apply comparison_to_Z_1 in H3.
    destruct (semver_cmp x y) eqn:E1; try (apply H1; reflexivity);
      destruct (semver_cmp y z) eqn:E2; try (apply H2; reflexivity).
    + apply semver_cmp_eq in E1, E2. subst. rewrite (refl_of_antisym _ semver_cmp_antisym) in H3. discriminate.
    + apply semver_cmp_eq in E1. subst. congruence.
    + apply semver_cmp_eq in E2. subst. congruence.
    + rewrite (semver_cmp_trans _ _ _ E1 E2) in H3. discriminate.
Defined.

(** The validator's run on the registry: whatever the deployment
    objects hold, the selected version is "1.3.0". *)
Lemma latestVersion_registry (d130 d110 d100 : jsobj Address) :
  latestVersion (js_keys (DELEGATOR_CONTRACTS d130 d110 d100)) = Ok "1.3.0".
Proof. vm_compute. reflexivity. Qed.

Example latestVersion_max_witness :
  valid_version "0.0.0" = true /\ Forall (fun k => valid_version k = true) ["1.0.0"; "1.3.0"; "1.1.0"] /\
  exists latest, latestVersion ["1.0.0"; "1.3.0"; "1.1.0"] = Ok latest /\
    (latest = "0.0.0" \/ In latest ["1.0.0"; "1.3.0"; "1.1.0"]) /\
    Forall (fun k => version_le k latest) ["1.0.0"; "1.3.0"; "1.1.0"].
Proof.
  assert (H0 : valid_version "0.0.0" = true) by reflexivity.
  assert (Hv : Forall (fun k => valid_version k = true) ["1.0.0"; "1.3.0"; "1.1.0"])
    by (repeat constructor).
  split; [exact H0|]. split; [exact Hv|]. exact (latestVersion_max _ H0 Hv).
Defined.

Example latestVersion_in_keys_witness :
  exists latest, latestVersion ["1.0.0"; "1.3.0"; "1.1.0"] = Ok latest /\
    In latest ["1.0.0"; "1.3.0"; "1.1.0"] /\
    Forall (fun k => version_le k latest) ["1.0.0"; "1.3.0"; "1.1.0"].
Proof.
  apply (latestVersion_in_keys _ "1.3.0"); [reflexivity | repeat constructor | simpl; tauto | reflexivity].
Defined.

Example latestVersion_invalid_witness : exists e, latestVersion ["1.0.0"; "v1.x"] = Throw e.
Proof. apply (latestVersion_invalid _ "v1.x"); [simpl; tauto | reflexivity]. Defined.
