(* ===== verification/Chains.v ===== *)
(** * The chain catalogue of the validation script

    [script/validate-contract-deployments.ts], lines 15-169 and 197:

    - the nine custom [Chain] descriptors ([megaEthTestNetChain] ...
      [sonicTestnetChain]);
    - [chains = { ...allChains, megaEthTestNet: ..., ... }], where
      [allChains] is the module namespace [import * as allChains from
      'viem/chains'].  A namespace lists its exports in code-unit order
      ([module_namespace]).  The spread copies them in that order; the
      nine custom keys then replace an export of the same name in place,
      or are appended;
    - [rpcUrlOverrides], whose computed keys read [chains.mainnet.id],
      [chains.bsc.id] and [chains.bscTestnet.id].  The read throws a
      [TypeError] if viem lacks one of them;
    - [Object.values(chains).find((c) => c.id === chainId)] ([find_chain]).

    The content of [viem/chains] is not part of the repository: the
    catalogue is a function of the list of its exports. *)

From Stdlib Require Import List String Ascii ZArith NArith Lia Permutation Bool.
From S2P Require Import Prelude JsNumber JsObject Registry.
Import ListNotations.
Local Open Scope string_scope.
Local Open Scope list_scope.
Local Open Scope js_scope.

(** The fields of viem's [Chain] type the script sets or reads. *)
Record NativeCurrency := {
  currency_name : string;
  currency_symbol : string;
  currency_decimals : Z
}.

Record Chain := {
  id : Z;
  name : string;
  rpcUrls_default_http : list string;
  nativeCurrency : NativeCurrency
}.

Definition megaEthTestNetChain : Chain := {|
  id := 6342; name := "MegaEth Testnet";
  rpcUrls_default_http := ["https://carrot.megaeth.com/rpc"];
  nativeCurrency := {| currency_name := "Ether"; currency_symbol := "ETH"; currency_decimals := 18 |} |}.

Definition berachainMainnetChain : Chain := {|
  id := 80094; name := "Berachain";
  rpcUrls_default_http := ["https://rpc.berachain.com/"];
  nativeCurrency := {| currency_name := "Bera"; currency_symbol := "BERA"; currency_decimals := 18 |} |}.

Definition bepoliaTestnetChain : Chain := {|
  id := 80069; name := "Berachain Bepolia";
  rpcUrls_default_http := ["https://bepolia.rpc.berachain.com/"];
  nativeCurrency := {| currency_name := "Bera"; currency_symbol := "BERA"; currency_decimals := 18 |} |}.

Definition unichainChain : Chain := {|
  id := 130; name := "Unichain";
  rpcUrls_default_http := ["https://mainnet.unichain.org"];
  nativeCurrency := {| currency_name := "Unichain"; currency_symbol := "UNI"; currency_decimals := 18 |} |}.

Definition monadTestnetChain : Chain := {|
  id := 10143; name := "Monad Testnet";
  rpcUrls_default_http := ["https://testnet-rpc.monad.xyz"];
  nativeCurrency := {| currency_name := "Monad"; currency_symbol := "MON"; currency_decimals := 18 |} |}.

Definition citreaTestnetChain : Chain := {|
  id := 5115; name := "Citrea Testnet";
  rpcUrls_default_http := ["https://rpc.testnet.citrea.xyz"];
  nativeCurrency := {| currency_name := "cBTC"; currency_symbol := "cBTC"; currency_decimals := 18 |} |}.

Definition inkMainnetChain : Chain := {|
  id := 57073; name := "Ink Mainnet";
  rpcUrls_default_http := ["https://rpc-qnd.inkonchain.com"];
  nativeCurrency := {| currency_name := "Ether"; currency_symbol := "ETH"; currency_decimals := 18 |} |}.

Definition inkSepoliaChain : Chain := {|
  id := 763373; name := "Ink Sepolia";
  rpcUrls_default_http := ["https://ink-sepolia.drpc.org"];
  nativeCurrency := {| currency_name := "Ether"; currency_symbol := "ETH"; currency_decimals := 18 |} |}.

Definition sonicTestnetChain : Chain := {|
  id := 14601; name := "Sonic Testnet";
  rpcUrls_default_http := ["https://rpc.testnet.soniclabs.com"];
  nativeCurrency := {| currency_name := "Sonic"; currency_symbol := "SONIC"; currency_decimals := 18 |} |}.

(** The properties the literal adds after the spread, in source order. *)
Definition custom_chains : list (string * Chain) := [
  ("megaEthTestNet", megaEthTestNetChain);
  ("berachainMainnet", berachainMainnetChain);
  ("bepoliaTestnet", bepoliaTestnetChain);
  ("unichain", unichainChain);
  ("monadTestnet", monadTestnetChain);
  ("citreaTestnet", citreaTestnetChain);
  ("inkMainnet", inkMainnetChain);
  ("inkSepolia", inkSepoliaChain);
  ("sonicTestnet", sonicTestnetChain)].

(** ** The module namespace of [viem/chains] *)

(** Code-unit order on strings, the order of a namespace's exports. *)
Fixpoint str_ltb (a b : string) : bool :=
  match a, b with
  | EmptyString, String _ _ => true
  | String x a', String y b' =>
      if (N_of_ascii x =? N_of_ascii y)%N then str_ltb a' b'
      else (N_of_ascii x <? N_of_ascii y)%N
  | _, _ => false
  end.

(** A module namespace object: its exports sorted by name.  Export
    names are identifiers, never array indices, so the ordinary key order
    of [js_entries] keeps this order. *)
Definition module_namespace {V} (exports : jsobj V) : jsobj V :=
  sort_by (fun a b => negb (str_ltb (fst b) (fst a))) exports.

Section Catalogue.
(** The exports of [viem/chains]. *)
Variable allChains : jsobj Chain.

(** [export const chains = { ...allChains, megaEthTestNet: ..., ... }] *)
Definition chains : jsobj Chain :=
  js_object (PSpread (module_namespace allChains) :: map (fun kv => PKey (fst kv) (snd kv)) custom_chains).

(** [chains.x.id]: reading [.id] of [undefined] throws. *)
Definition chain_id_of (key : string) : result Z :=
  match js_get chains key with
  | Some c => Ok (id c)
  | None => Throw (TypeError ("Cannot read properties of undefined (reading 'id')"))
  end.

(** [export const rpcUrlOverrides = { [chains.mainnet.id]: ..., ... }] *)
Definition rpcUrlOverrides : result (jsobj string) :=
  mainnet_id <- chain_id_of "mainnet" ;;
  bsc_id <- chain_id_of "bsc" ;;
  bscTestnet_id <- chain_id_of "bscTestnet" ;;
  Ok (js_object [
    PKey (jsnum_to_string (JInt mainnet_id)) "https://eth.merkle.io";
    PKey (jsnum_to_string (JInt bsc_id)) "https://bsc-dataseed1.binance.org/";
    PKey (jsnum_to_string (JInt bscTestnet_id)) "https://bsc-testnet-rpc.publicnode.com"]).
End Catalogue.

(** [Object.values(chains).find((c) => c.id === chainId)] *)
Definition find_chain (chains : jsobj Chain) (chainId : jsnum) : option Chain :=
  find (fun c => jsnum_eqb (JInt (id c)) chainId) (js_values chains).

(** ** Theorems *)

Lemma module_namespace_perm {V} (exports : jsobj V) : Permutation (module_namespace exports) exports.
Proof. apply sort_by_perm. Qed.

(** The custom properties either overwrite a prefix key in place or land
    in the suffix, which only holds custom keys. *)
Lemma custom_fold_split (l : list (string * Chain)) (P A : jsobj Chain) :
  incl (map fst l) (map fst custom_chains) ->
  Forall (fun k => In k (map fst custom_chains)) (map fst A) ->
  exists P' A',
    fold_left eval_prop (map (fun kv => PKey (fst kv) (snd kv)) l) (P ++ A) = P' ++ A' /\
    map fst P' = map fst P /\
    (forall k, ~ In k (map fst custom_chains) -> js_get P' k = js_get P k) /\
    Forall (fun k => In k (map fst custom_chains)) (map fst A').
Proof.
  revert P A; induction l as [|[k c] l IH]; simpl; intros P A Hl HA.
  - exists P, A. auto.
  - assert (Hk : In k (map fst custom_chains)) by (apply Hl; left; reflexivity).
    assert (Hl' : incl (map fst l) (map fst custom_chains)) by (intros x Hx; apply Hl; right; exact Hx).
    destruct (in_dec string_dec k (map fst P)) as [Hin|Hout].
    + rewrite js_set_app_l by exact Hin.
      destruct (IH (js_set P k c) A Hl' HA) as (P' & A' & E & K & G & F).
      exists P', A'. split; [exact E|]. split; [rewrite K; apply js_set_keys_in, Hin|].
      split; [|exact F]. intros k' Hk'. rewrite G by exact Hk'.
      apply js_get_set_neq. intros ->. contradiction.
    + rewrite js_set_app_r by exact Hout.
      destruct (IH P (js_set A k c)) as (P' & A' & E & K & G & F); [exact Hl'| |].
      * apply Forall_forall. intros x Hx. apply js_set_keys in Hx as [->|Hx]; [exact Hk|].
        rewrite Forall_forall in HA. exact (HA x Hx).
      * exists P', A'. auto.
Qed.

Lemma chains_split (allChains : jsobj Chain) :
  js_wf allChains ->
  exists P A, chains allChains = P ++ A /\
    map fst P = map fst (js_entries (module_namespace allChains)) /\
    (forall k, ~ In k (map fst custom_chains) -> js_get P k = js_get allChains k) /\
    Forall (fun k => In k (map fst custom_chains)) (map fst A).
Proof.
  intros W. pose proof (js_wf_perm _ _ (Permutation_sym (module_namespace_perm allChains)) W) as Wns.
  unfold chains, js_object. cbn [fold_left eval_prop].
  rewrite set_all_fresh by (try apply js_entries_wf, Wns; intros k _ []).
  destruct (custom_fold_split custom_chains (js_entries (module_namespace allChains)) [])
    as (P & A & E & K & G & F); [apply incl_refl | constructor |].
  rewrite app_nil_r in E. rewrite app_nil_l, E.
  exists P, A. split; [reflexivity|]. split; [exact K|]. split; [|exact F].
  intros k Hk. rewrite G by exact Hk. rewrite js_get_entries by exact Wns.
  apply js_get_perm; [exact Wns | apply module_namespace_perm].
Qed.

(** Object-literal properties [k: v] after a spread are [set_all]. *)
Lemma fold_keys_set_all (l : list (string * Chain)) (o : jsobj Chain) :
  fold_left eval_prop (map (fun kv => PKey (fst kv) (snd kv)) l) o = set_all l o.
Proof. revert o; induction l as [|kv l IH]; intros o; simpl; [reflexivity | apply IH]. Qed.

Lemma custom_chains_wf : js_wf custom_chains.
Proof. apply (nodupb_NoDup String.eqb); [intros; apply String.eqb_eq | reflexivity]. Qed.

(** C28: A lookup in [chains]: a custom key gives the custom descriptor, even
    when viem exports the same key; any other key gives viem's export. *)
Theorem chains_get (allChains : jsobj Chain) (k : string) :
  js_wf allChains ->
  js_get (chains allChains) k =
    match js_get custom_chains k with Some c => Some c | None => js_get allChains k end.
Proof.
  intros W. pose proof (js_wf_perm _ _ (Permutation_sym (module_namespace_perm allChains)) W) as Wns.
  unfold chains, js_object. cbn [fold_left eval_prop]. rewrite fold_keys_set_all.
  rewrite js_get_set_all by exact custom_chains_wf. destruct (js_get custom_chains k); [reflexivity|].
  rewrite js_get_set_all by (apply js_entries_wf, Wns). rewrite js_get_entries by exact Wns.
  rewrite (js_get_perm _ _ k Wns (module_namespace_perm allChains)). now destruct (js_get allChains k).
Qed.

Lemma chains_wf (allChains : jsobj Chain) : js_wf (chains allChains).
Proof. unfold chains; auto with deploy. Qed.

(** Every key of [chains] is an export of viem or a custom key. *)
Lemma chains_keys (allChains : jsobj Chain) (k : string) :
  In k (map fst (chains allChains)) -> In k (map fst allChains) \/ In k (map fst custom_chains).
Proof.
  unfold chains. rewrite js_object_keys, Exists_cons. intros [H|H].
  - left. simpl in H. eapply Permutation_in; [apply Permutation_map, module_namespace_perm | exact H].
  - right. apply Exists_exists in H as (d & Hd & Hdef).
    apply in_map_iff in Hd as ([k' c] & <- & Hin). simpl in Hdef. subst.
    apply (in_map fst _ _ Hin).
Qed.

Lemma custom_keys_not_index : Forall (fun k => is_index_key k = false) (map fst custom_chains).
Proof. repeat constructor. Qed.

Lemma find_some_pred {A} (f : A -> bool) (l : list A) (x : A) :
  In x l -> f x = true -> exists y, find f l = Some y /\ In y l /\ f y = true.
Proof.
  intros Hin Hf. destruct (find f l) as [y|] eqn:E.
  - exists y. split; [reflexivity|]. exact (find_some f l E).
  - exfalso. rewrite (find_none f l E x Hin) in Hf. discriminate.
Qed.

(** C29: [Object.values(chains).find(c => c.id === id)] returns a chain
    stored under one of viem's export names as soon as viem exports a
    chain with that id under a name the script does not redefine.  So a
    custom descriptor added under a new key (megaEthTestNet,
    berachainMainnet, bepoliaTestnet, inkMainnet) is never the one found
    when viem already knows its id under another name. *)
Theorem find_chain_prefers_viem (allChains : jsobj Chain) (k : string) (c : Chain) :
  js_wf allChains -> Forall (fun k => is_index_key k = false) (map fst allChains) ->
  In (k, c) allChains -> ~ In k (map fst custom_chains) ->
  exists k' c', find_chain (chains allChains) (JInt (id c)) = Some c' /\ id c' = id c /\
    In k' (map fst allChains) /\ js_get (chains allChains) k' = Some c'.
Proof.
  intros W NI Hin Hk.
  destruct (chains_split allChains W) as (P & A & E & K & G & F).
  assert (NIc : Forall (fun k => is_index_key k = false) (map fst (chains allChains))).
  { apply Forall_forall. intros x Hx. apply chains_keys in Hx as [Hx|Hx];
      [rewrite Forall_forall in NI | pose proof custom_keys_not_index as NC; rewrite Forall_forall in NC]; auto. }
  assert (WP : js_wf P).
  { pose proof (chains_wf allChains) as Wc. unfold js_wf in *. rewrite E, map_app in Wc.
    exact (NoDup_app_remove_r _ _ Wc). }
  assert (HP : In (k, c) P) by (apply js_get_In; [exact WP | rewrite G by exact Hk; apply js_get_In; assumption]).
  unfold find_chain, js_values. rewrite js_entries_no_index by exact NIc. rewrite E, map_app, find_app.
  destruct (find_some_pred (fun c' => jsnum_eqb (JInt (id c')) (JInt (id c))) (map snd P) c)
    as (c' & Ef & Hc' & Hid); [apply (in_map snd _ _ HP) | apply Z.eqb_refl |].
  rewrite Ef. apply in_map_iff in Hc' as ([k' c''] & Ec & HPk'). simpl in Ec. subst c''.
  exists k', c'. split; [reflexivity|]. split; [apply Z.eqb_eq, Hid|]. split.
  - eapply Permutation_in; [apply Permutation_map, module_namespace_perm|].
    apply js_entries_keys. rewrite <- K. apply (in_map fst _ _ HPk').
  - apply js_get_In; [rewrite <- E; apply chains_wf | apply in_or_app; left; exact HPk'].
Qed.

(** A viem catalogue that knows MegaETH's testnet under its own export
    name [megaethTestnet]. *)
Definition viem_megaeth : Chain := {|
  id := 6342; name := "MegaETH Testnet";
  rpcUrls_default_http := ["https://carrot.megaeth.com/rpc"];
  nativeCurrency := {| currency_name := "MegaETH Testnet Ether"; currency_symbol := "ETH"; currency_decimals := 18 |} |}.

Example find_chain_prefers_viem_witness :
  exists k' c', find_chain (chains [("megaethTestnet", viem_megaeth)]) (JInt (id viem_megaeth)) = Some c' /\
    id c' = id viem_megaeth /\ In k' (map fst [("megaethTestnet", viem_megaeth)]) /\
    js_get (chains [("megaethTestnet", viem_megaeth)]) k' = Some c'.
Proof.
  apply (find_chain_prefers_viem _ "megaethTestnet").
  - apply (nodupb_NoDup String.eqb); [intros; apply String.eqb_eq | reflexivity].
  - repeat constructor.
  - left. reflexivity.
  - simpl. intuition discriminate.
Defined.

(** C30: [rpcUrlOverrides] throws a [TypeError] at module load when the
    catalogue lacks [mainnet], [bsc] or [bscTestnet]: the whole script
    aborts before any RPC. *)
Theorem rpcUrlOverrides_missing (allChains : jsobj Chain) (key : string) :
  In key ["mainnet"; "bsc"; "bscTestnet"] -> js_get (chains allChains) key = None ->
  exists e, rpcUrlOverrides allChains = Throw e.
Proof.
  intros Hkey Hnone. unfold rpcUrlOverrides, chain_id_of.
  destruct (js_get (chains allChains) "mainnet") eqn:E1; simpl; [|eauto].
  destruct (js_get (chains allChains) "bsc") eqn:E2; simpl; [|eauto].
  destruct (js_get (chains allChains) "bscTestnet") eqn:E3; simpl; [|eauto].
  exfalso. destruct Hkey as [<-|[<-|[<-|[]]]]; congruence.
Qed.

Example rpcUrlOverrides_missing_witness : exists e, rpcUrlOverrides [] = Throw e.
Proof. apply (rpcUrlOverrides_missing [] "mainnet"); [simpl; tauto | reflexivity]. Defined.

(** C31: The override table maps the printed id of each of the three chains
    to its URL, when the ids are distinct. *)
Theorem rpcUrlOverrides_ok (allChains : jsobj Chain) (m b t : Chain) :
  js_get (chains allChains) "mainnet" = Some m -> js_get (chains allChains) "bsc" = Some b ->
  js_get (chains allChains) "bscTestnet" = Some t ->
  id m <> id b -> id m <> id t -> id b <> id t ->
  exists o, rpcUrlOverrides allChains = Ok o /\
    js_get o (jsnum_to_string (JInt (id m))) = Some "https://eth.merkle.io" /\
    js_get o (jsnum_to_string (JInt (id b))) = Some "https://bsc-dataseed1.binance.org/" /\
    js_get o (jsnum_to_string (JInt (id t))) = Some "https://bsc-testnet-rpc.publicnode.com".
Proof.
  intros Hm Hb Ht Hmb Hmt Hbt. unfold rpcUrlOverrides, chain_id_of. rewrite Hm, Hb, Ht.
  cbn [result_bind]. eexists. split; [reflexivity|].
  assert (Inj : forall x y, x <> y -> jsnum_to_string (JInt x) <> jsnum_to_string (JInt y))
    by (intros x y Hxy E; apply (f_equal parseInt) in E; rewrite !parseInt_to_string in E; congruence).
  pose proof (Inj _ _ Hmb) as N1. pose proof (Inj _ _ Hmt) as N2. pose proof (Inj _ _ Hbt) as N3.
  match goal with |- context [js_object ?defs] =>
    change defs with (map (fun kv => PKey (fst kv) (snd kv))
      [(jsnum_to_string (JInt (id m)), "https://eth.merkle.io");
       (jsnum_to_string (JInt (id b)), "https://bsc-dataseed1.binance.org/");
       (jsnum_to_string (JInt (id t)), "https://bsc-testnet-rpc.publicnode.com")]) end.
  set (sm := jsnum_to_string (JInt (id m))) in *. set (sb := jsnum_to_string (JInt (id b))) in *.
  set (st := jsnum_to_string (JInt (id t))) in *.
  rewrite js_object_keys_only.
  - simpl. rewrite !String.eqb_refl.
    destruct (String.eqb_spec sb sm); [congruence|].
    destruct (String.eqb_spec st sm); [congruence|].
    destruct (String.eqb_spec st sb); [congruence|]. auto.
  - unfold js_wf. simpl.
    constructor; [simpl; intuition congruence|].
    constructor; [simpl; intuition congruence|].
    constructor; [simpl; tauto | constructor].
Qed.

(** A catalogue with the three chains [rpcUrlOverrides] reads. *)
Definition viem_chain (i : Z) (n : string) : Chain := {|
  id := i; name := n; rpcUrls_default_http := [];
  nativeCurrency := {| currency_name := "Ether"; currency_symbol := "ETH"; currency_decimals := 18 |} |}.

Example rpcUrlOverrides_ok_witness :
  exists o, rpcUrlOverrides [("bsc", viem_chain 56 "BNB Smart Chain");
                             ("bscTestnet", viem_chain 97 "BNB Smart Chain Testnet");
                             ("mainnet", viem_chain 1 "Ethereum")] = Ok o /\
    js_get o "1" = Some "https://eth.merkle.io" /\
    js_get o "56" = Some "https://bsc-dataseed1.binance.org/" /\
    js_get o "97" = Some "https://bsc-testnet-rpc.publicnode.com".
Proof.
  exact (rpcUrlOverrides_ok [("bsc", viem_chain 56 "BNB Smart Chain");
                             ("bscTestnet", viem_chain 97 "BNB Smart Chain Testnet");
                             ("mainnet", viem_chain 1 "Ethereum")] (viem_chain 1 "Ethereum") (viem_chain 56 "BNB Smart Chain")
           (viem_chain 97 "BNB Smart Chain Testnet") eq_refl eq_refl eq_refl
           ltac:(discriminate) ltac:(discriminate) ltac:(discriminate)).
Defined.

(** each custom descriptor carries the identifier that [CHAIN_ID]
    in [src/index.ts] gives the same chain, and that chain is one of the
    chains of registry version 1.3.0. *)
Theorem custom_chain_ids_consistent (d130 : jsobj Address) :
  Forall (fun cn => js_get CHAIN_ID (snd cn) = Some (id (fst cn)) /\
                    In (CHAIN_ID_key (snd cn)) (js_keys (contracts_1_3_0 d130)))
    [(megaEthTestNetChain, "megaEthTestnet"); (berachainMainnetChain, "berachain");
     (bepoliaTestnetChain, "berachainBepolia"); (unichainChain, "unichain");
     (monadTestnetChain, "monadTestnet"); (citreaTestnetChain, "citreaTestnet");
     (inkMainnetChain, "ink"); (inkSepoliaChain, "inkSepolia"); (sonicTestnetChain, "sonicTestnet")].
Proof.
  repeat apply Forall_cons; try apply Forall_nil;
    (split; [reflexivity | apply In_strings; vm_compute; reflexivity]).
Qed.

Example chains_get_witness :
  js_get (chains [("unichain", viem_chain 130 "Unichain"); ("mainnet", viem_chain 1 "Ethereum")]) "unichain"
    = Some unichainChain /\
  js_get (chains [("unichain", viem_chain 130 "Unichain"); ("mainnet", viem_chain 1 "Ethereum")]) "mainnet"
    = Some (viem_chain 1 "Ethereum").
Proof.
  split; rewrite chains_get by (apply (nodupb_NoDup String.eqb); [intros; apply String.eqb_eq | reflexivity]);
    reflexivity.
Defined.
