(* ===== verification/Validator.v ===== *)
(** * One chain's validation task, and the script's top level

    [script/validate-contract-deployments.ts], lines 171-260.  The async
    callback of [chainIds.map] (lines 190-250) runs in four phases,
    separated by its awaits:

    - [chain_start] is the synchronous prefix (lines 191-211).  It parses
      the key, selects the transport URL, and looks the chain up.  A
      missing chain logs and returns; otherwise the task awaits
      [getChainId];
    - [on_chain_id] runs when [getChainId] settles (lines 211-224).  A
      rejection escapes the async function.  A mismatch logs and returns.
      Otherwise [Object.keys(contracts)] launches one [getCode] check per
      contract (and throws when [contracts] is undefined);
    - [check_contract] runs when one [getCode] settles (lines 225-239).
      Missing code or a rejected call logs and marks the chain failed;
    - [on_join] runs when [Promise.all(allContractsDone)] resolves (lines
      242-249).  It logs "X failed" or "X succeeded".

    The RPC library ([viem]'s public client) is the class [ChainRpc]: for
    a client, the settled result of [getChainId] and of [getCode].  One
    fixed instance is the spec's "stable chain state".  [run_chain_ref]
    runs the phases of one task back to back: the sequential reference
    the concurrent semantics of [Concurrency] is compared with.
    [script_prefix] is the module's top level before the fan-out:
    [rpcUrlOverrides], the version selection, the two header lines and
    [Object.keys(latestContracts)].  Each can throw. *)

From Stdlib Require Import List String ZArith NArith Lia Permutation Bool.
From S2P Require Import Prelude JsNumber JsObject Registry Versions Chains.
Import ListNotations.
Local Open Scope string_scope.
Local Open Scope list_scope.
Local Open Scope js_scope.

(** How a promise settles. *)
Inductive settled (A : Type) : Type :=
| Fulfilled (a : A)
| Rejected.

Arguments Fulfilled {A} a.
Arguments Rejected {A}.

(** [createPublicClient({ chain, transport: http(url) })]: the chain
    descriptor and the override URL ([undefined] selects the chain's
    default RPC URL inside viem). *)
Record PublicClient := {
  client_chain : Chain;
  client_url : option string
}.

(** What the validator uses of the RPC library. *)
Class ChainRpc := {
  getChainId : PublicClient -> settled Z;
  getCode : PublicClient -> Address -> settled (option string)
}.

(** A line written by [console.log] or [console.error]. *)
Inductive line : Type :=
| Stdout (s : string)
| Stderr (s : string).

(** An RPC request the script issues. *)
Inductive rpc_call : Type :=
| CallGetChainId (cl : PublicClient)
| CallGetCode (cl : PublicClient) (addr : Address).

(** What the script computes before the fan-out: [latestContracts], the
    [chains] catalogue and the [rpcUrlOverrides] table. *)
Record RunConfig := {
  latestContracts : jsobj (jsobj Address);
  catalogue : jsobj Chain;
  overrides : jsobj string
}.

(** Outcome of the synchronous prefix of a chain task. *)
Inductive start_outcome : Type :=
| StartMissing (msg : line)
| StartAwait (cl : PublicClient) (chainId : jsnum) (contracts : option (jsobj Address)).

(** Outcome of the chain-id phase. *)
Inductive chain_id_outcome : Type :=
| IdRejected
| IdMismatch (msg : line)
| IdContractsUndefined
| IdChecks (checks : list (string * Address)).

(** The result of a whole chain task: done (failed or not) or rejected,
    with what it logged and the RPC calls it issued. *)
Inductive chain_result : Type :=
| ChainDone (failed : bool) (log : list line) (calls : list rpc_call)
| ChainRejected (log : list line) (calls : list rpc_call).

Section Task.
Context `{ChainRpc}.
Variable cfg : RunConfig.

(** Lines 191-211, up to [await publicClient.getChainId()]. *)
Definition chain_start (chainIdAsString : string) : start_outcome :=
  let chainId := parseInt chainIdAsString in
  let contracts := js_get (latestContracts cfg) chainIdAsString in
  let url := js_get (overrides cfg) (jsnum_to_string chainId) in
  match find_chain (catalogue cfg) chainId with
  | None => StartMissing (Stderr ("Chain configuration not found for chainId " ++ jsnum_to_string chainId))
  | Some chain => StartAwait {| client_chain := chain; client_url := url |} chainId contracts
  end.

(** Lines 211-224, when [getChainId] settles with [r]. *)
Definition on_chain_id (cl : PublicClient) (chainId : jsnum) (contracts : option (jsobj Address))
    (r : settled Z) : chain_id_outcome :=
  match r with
  | Rejected => IdRejected
  | Fulfilled actualChainId =>
      if negb (jsnum_eqb (JInt actualChainId) chainId) then
        IdMismatch (Stderr ("ChainId mismatch for " ++ name (client_chain cl) ++ ": "
                            ++ jsnum_to_string (JInt actualChainId) ++ " !== " ++ jsnum_to_string chainId))
      else
        match contracts with
        | None => IdContractsUndefined
        | Some cs => IdChecks (js_entries cs)
        end
  end.

(** Lines 225-239, when [getCode] settles: whether the contract check
    set [hasThisChainFailed], and what it logged. *)
Definition check_contract (cl : PublicClient) (contractName : string) (contractAddress : Address)
    : bool * list line :=
  match getCode cl contractAddress with
  | Fulfilled (Some _) => (false, [])
  | Fulfilled None =>
      (true, [Stderr (name (client_chain cl) ++ ": " ++ contractName ++ " is not deployed at " ++ contractAddress)])
  | Rejected => (true, [Stderr ("RPC Request failed for " ++ name (client_chain cl) ++ ": " ++ contractName)])
  end.

(** Lines 244-249, after [await Promise.all(allContractsDone)]: whether
    the task sets [hasFailed], and its summary line. *)
Definition on_join (cl : PublicClient) (hasThisChainFailed : bool) : bool * line :=
  if hasThisChainFailed then (true, Stderr (name (client_chain cl) ++ " failed"))
  else (false, Stdout (name (client_chain cl) ++ " succeeded")).

Definition contract_failed (cl : PublicClient) (nc : string * Address) : bool :=
  fst (check_contract cl (fst nc) (snd nc)).

Definition contract_log (cl : PublicClient) (nc : string * Address) : list line :=
  snd (check_contract cl (fst nc) (snd nc)).

(** The remainder of a task after [getChainId] settled, run back to
    back with the contract checks in key order. *)
Definition finish_chain (cl : PublicClient) (out : chain_id_outcome) : chain_result :=
  match out with
  | IdRejected | IdContractsUndefined => ChainRejected [] [CallGetChainId cl]
  | IdMismatch msg => ChainDone true [msg] [CallGetChainId cl]
  | IdChecks checks =>
      let failed := existsb (contract_failed cl) checks in
      ChainDone (fst (on_join cl failed))
        (List.concat (map (contract_log cl) checks) ++ [snd (on_join cl failed)])
        (CallGetChainId cl :: map (fun nc => CallGetCode cl (snd nc)) checks)
  end.

(** The sequential reference for one chain task (lines 190-250). *)
Definition run_chain_ref (chainIdAsString : string) : chain_result :=
  match chain_start chainIdAsString with
  | StartMissing msg => ChainDone true [msg] []
  | StartAwait cl chainId contracts => finish_chain cl (on_chain_id cl chainId contracts (getChainId cl))
  end.
End Task.

Definition chain_failed (r : chain_result) : bool :=
  match r with ChainDone f _ _ => f | ChainRejected _ _ => false end.

Definition chain_rejected (r : chain_result) : bool :=
  match r with ChainDone _ _ _ => false | ChainRejected _ _ => true end.

Definition chain_log (r : chain_result) : list line :=
  match r with ChainDone _ l _ => l | ChainRejected l _ => l end.

Definition chain_calls (r : chain_result) : list rpc_call :=
  match r with ChainDone _ _ c => c | ChainRejected _ c => c end.

(** Lines 252-260: the [.then] callback of [Promise.all(allChainsDone)]. *)
Definition final_lines (hasFailed : bool) : list line :=
  if hasFailed then [Stdout ""; Stderr "Failed to validate contract deployments"]
  else [Stdout ""; Stdout "Successfully validated contract deployments"].

Definition exit_code (hasFailed : bool) : Z := if hasFailed then 1%Z else 0%Z.

(** How the process ends: an uncaught exception or unhandled rejection
    (exit status 1, the summary never printed), or a normal exit with
    [process.exitCode] and the console output. *)
Inductive run_outcome : Type :=
| Crashed
| Exited (code : Z) (output : list line).

Section Reference.
Context `{ChainRpc}.

(** The fan-out run sequentially, chain after chain in key order: the
    reference the concurrent semantics is compared with. *)
Definition run_ref (cfg : RunConfig) (header : list line) (chainIds : list string) : run_outcome :=
  let rs := map (run_chain_ref cfg) chainIds in
  if existsb chain_rejected rs then Crashed
  else let failed := existsb chain_failed rs in
       Exited (exit_code failed) (header ++ List.concat (map chain_log rs) ++ final_lines failed).
End Reference.

(** The module top level up to the fan-out (lines 150-186): the console
    output so far, and the configuration and chain keys, or the
    exception that aborts the script. *)
Definition script_prefix `{CompareVersions} (allChains : jsobj Chain) (registry : DeployedContracts)
    : list line * result (RunConfig * list string) :=
  match rpcUrlOverrides allChains with
  | Throw e => ([], Throw e)
  | Ok ov =>
      match latestVersion (js_keys registry) with
      | Throw e => ([], Throw e)
      | Ok latest =>
          let out := [Stdout ("Testing version " ++ latest); Stdout ""] in
          match js_get registry latest with
          | None => (out, Throw (TypeError "Cannot convert undefined or null to object"))
          | Some lc =>
              (out, Ok ({| latestContracts := lc; catalogue := chains allChains; overrides := ov |}, js_keys lc))
          end
      end
  end.

(** A line written by [console.log]. *)
Definition is_stdout (l : line) : Prop :=
  match l with Stdout _ => True | Stderr _ => False end.

(** ** Theorems on one task and on the reference run *)

Section TaskTheorems.
Context `{ChainRpc}.

Lemma on_join_failed (cl : PublicClient) (b : bool) : fst (on_join cl b) = b.
Proof. destruct b; reflexivity. Qed.

(** A task that awaits [getChainId] holds the descriptor whose id is
    the parsed key, and the key's contracts. *)
Lemma chain_start_await (cfg : RunConfig) (key : string) (cl : PublicClient) (chainId : jsnum)
    (cs : option (jsobj Address)) :
  chain_start cfg key = StartAwait cl chainId cs ->
  chainId = parseInt key /\ chainId = JInt (id (client_chain cl)) /\ cs = js_get (latestContracts cfg) key.
Proof.
  unfold chain_start. destruct (find_chain (catalogue cfg) (parseInt key)) as [c|] eqn:E; [|discriminate].
  intros [= <- <- <-]. split; [reflexivity|]. split; [|reflexivity].
  apply find_some in E as [_ E]. apply jsnum_eqb_spec in E as [E _]. simpl. congruence.
Qed.

(** The contract checks start only after a confirmed chain id. *)
Lemma on_chain_id_checks (cl : PublicClient) (chainId : jsnum) (contracts : option (jsobj Address))
    (r : settled Z) (checks : list (string * Address)) :
  on_chain_id cl chainId contracts r = IdChecks checks ->
  exists actual cs, r = Fulfilled actual /\ jsnum_eqb (JInt actual) chainId = true /\
    contracts = Some cs /\ checks = js_entries cs.
Proof.
  unfold on_chain_id. destruct r as [actual|]; [|discriminate].
  destruct (jsnum_eqb (JInt actual) chainId) eqn:E; simpl; [|discriminate].
  destruct contracts as [cs|]; [|discriminate]. intros [= <-]. eauto 6.
Qed.

Lemma contract_failed_false (cl : PublicClient) (nc : string * Address) :
  contract_failed cl nc = false <-> exists code, getCode cl (snd nc) = Fulfilled (Some code).
Proof.
  unfold contract_failed, check_contract.
  destruct (getCode cl (snd nc)) as [[code|]|]; simpl; split; try discriminate; eauto;
    intros [? E]; discriminate.
Qed.

(** C15: a chain whose endpoint reports another chain id is marked
    failed with the mismatch line only, and no [getCode] request is
    issued for it: the task returns before the contract checks. *)
Theorem run_chain_ref_mismatch (cfg : RunConfig) (key : string) (cl : PublicClient)
    (chainId : jsnum) (contracts : option (jsobj Address)) (actual : Z) :
  chain_start cfg key = StartAwait cl chainId contracts ->
  getChainId cl = Fulfilled actual -> jsnum_eqb (JInt actual) chainId = false ->
  run_chain_ref cfg key =
    ChainDone true [Stderr ("ChainId mismatch for " ++ name (client_chain cl) ++ ": "
                            ++ jsnum_to_string (JInt actual) ++ " !== " ++ jsnum_to_string chainId)]
      [CallGetChainId cl].
Proof.
  intros Hs Hid Hne. unfold run_chain_ref. rewrite Hs. unfold on_chain_id. rewrite Hid, Hne. reflexivity.
Qed.

(** C19: a chain id without a descriptor in the catalogue marks the
    chain failed with one error line and issues no RPC request at all;
    the other chains are unaffected, each task being independent. *)
Theorem run_chain_ref_missing (cfg : RunConfig) (key : string) :
  find_chain (catalogue cfg) (parseInt key) = None ->
  run_chain_ref cfg key =
    ChainDone true [Stderr ("Chain configuration not found for chainId " ++ jsnum_to_string (parseInt key))] [].
Proof. intros Hf. unfold run_chain_ref, chain_start. now rewrite Hf. Qed.

(** C16: a chain passes exactly when its descriptor is found, the
    endpoint reports the expected chain id, the chain's contracts are
    defined, and every [getCode] request answers with code. *)
Theorem run_chain_ref_passes (cfg : RunConfig) (key : string) :
  (exists log calls, run_chain_ref cfg key = ChainDone false log calls) <->
  exists cl chainId cs actual,
    chain_start cfg key = StartAwait cl chainId (Some cs) /\
    getChainId cl = Fulfilled actual /\ jsnum_eqb (JInt actual) chainId = true /\
    Forall (fun nc => exists code, getCode cl (snd nc) = Fulfilled (Some code)) (js_entries cs).
Proof.
  unfold run_chain_ref. destruct (chain_start cfg key) as [msg|cl chainId contracts].
  - split; [intros (? & ? & E); discriminate | intros (? & ? & ? & ? & E & _); discriminate].
  - unfold on_chain_id. destruct (getChainId cl) as [actual|] eqn:Eid.
    + destruct (jsnum_eqb (JInt actual) chainId) eqn:Eq; simpl.
      * destruct contracts as [cs|]; simpl.
        -- rewrite on_join_failed. split.
           ++ intros (log & calls & E). injection E as E _ _.
              exists cl, chainId, cs, actual. repeat split; auto.
              apply existsb_false_Forall in E. eapply Forall_impl; [|exact E].
              intros nc. apply contract_failed_false.
           ++ intros (cl' & c' & cs' & a' & E & Ea & Eb & All). injection E as <- <- <-.
              do 2 eexists. f_equal. apply existsb_false_Forall. eapply Forall_impl; [|exact All].
              intros nc. apply contract_failed_false.
        -- split; [intros (? & ? & E); discriminate | intros (? & ? & ? & ? & E & _); discriminate].
      * split; [intros (? & ? & E); discriminate|].
        intros (cl' & c' & cs' & a' & E & Ea & Eb & _). injection E as E1 E2 _. subst cl' c'.
        change (jsnum_eqb (JInt a') chainId = true) in Eb.
        rewrite Eid in Ea. injection Ea as <-. congruence.
    + split; [intros (? & ? & E); discriminate|].
      intros (cl' & ? & ? & ? & E & Ea & _). injection E as E1 _ _. subst cl'. congruence.
Qed.

(** A contract check that sets [hasThisChainFailed] fails its chain:
    the lines it logs are in the chain's log, whose last line reports the
    chain failed. *)
Lemma run_chain_ref_failed_contract (cfg : RunConfig) (key : string) (cl : PublicClient)
    (chainId : jsnum) (cs : jsobj Address) (actual : Z) (nc : string * Address) (ls : list line) :
  chain_start cfg key = StartAwait cl chainId (Some cs) ->
  getChainId cl = Fulfilled actual -> jsnum_eqb (JInt actual) chainId = true ->
  In nc (js_entries cs) -> check_contract cl (fst nc) (snd nc) = (true, ls) ->
  exists log calls, run_chain_ref cfg key = ChainDone true log calls /\ incl ls log /\
    last log (Stdout "") = Stderr (name (client_chain cl) ++ " failed").
Proof.
  intros Hs Hid Heq Hin Hc. unfold run_chain_ref. rewrite Hs. unfold on_chain_id. rewrite Hid, Heq.
  cbn [negb finish_chain].
  assert (F : existsb (contract_failed cl) (js_entries cs) = true).
  { apply existsb_exists. exists nc. split; [exact Hin|]. unfold contract_failed. now rewrite Hc. }
  rewrite F. do 2 eexists. split; [reflexivity|]. split; [|apply last_last].
  intros l Hl. apply in_or_app. left. apply in_concat. exists (contract_log cl nc).
  split; [apply in_map; exact Hin|]. unfold contract_log. now rewrite Hc.
Qed.

(** C17: A chain with a contract whose [getCode] answers no code fails.  Its
    log names the contract and its address, and its last line reports
    the chain failed. *)
Theorem run_chain_ref_reports_missing (cfg : RunConfig) (key : string) (cl : PublicClient)
    (chainId : jsnum) (cs : jsobj Address) (actual : Z) (contractName : string) (addr : Address) :
  chain_start cfg key = StartAwait cl chainId (Some cs) ->
  getChainId cl = Fulfilled actual -> jsnum_eqb (JInt actual) chainId = true ->
  In (contractName, addr) (js_entries cs) -> getCode cl addr = Fulfilled None ->
  exists log calls, run_chain_ref cfg key = ChainDone true log calls /\
    In (Stderr (name (client_chain cl) ++ ": " ++ contractName ++ " is not deployed at " ++ addr)) log /\
    last log (Stdout "") = Stderr (name (client_chain cl) ++ " failed").
Proof.
  intros Hs Hid Heq Hin Hc.
  assert (Ck : check_contract cl contractName addr =
                 (true, [Stderr (name (client_chain cl) ++ ": " ++ contractName ++ " is not deployed at " ++ addr)]))
    by (unfold check_contract; now rewrite Hc).
  destruct (run_chain_ref_failed_contract cfg key cl chainId cs actual _ _ Hs Hid Heq Hin Ck)
    as (log & calls & E & I & L).
  exists log, calls. split; [exact E|]. split; [apply I; now left | exact L].
Qed.

(** C18: A [getCode] request that rejects is caught: the chain fails, its log
    reports the failed request for that contract, and the run goes on. *)
Theorem run_chain_ref_reports_rpc_error (cfg : RunConfig) (key : string) (cl : PublicClient)
    (chainId : jsnum) (cs : jsobj Address) (actual : Z) (contractName : string) (addr : Address) :
  chain_start cfg key = StartAwait cl chainId (Some cs) ->
  getChainId cl = Fulfilled actual -> jsnum_eqb (JInt actual) chainId = true ->
  In (contractName, addr) (js_entries cs) -> getCode cl addr = Rejected ->
  exists log calls, run_chain_ref cfg key = ChainDone true log calls /\
    In (Stderr ("RPC Request failed for " ++ name (client_chain cl) ++ ": " ++ contractName)) log /\
    last log (Stdout "") = Stderr (name (client_chain cl) ++ " failed").
Proof.
  intros Hs Hid Heq Hin Hc.
  assert (Ck : check_contract cl contractName addr =
                 (true, [Stderr ("RPC Request failed for " ++ name (client_chain cl) ++ ": " ++ contractName)]))
    by (unfold check_contract; now rewrite Hc).
  destruct (run_chain_ref_failed_contract cfg key cl chainId cs actual _ _ Hs Hid Heq Hin Ck)
    as (log & calls & E & I & L).
  exists log, calls. split; [exact E|]. split; [apply I; now left | exact L].
Qed.

Lemma contract_log_passing (cl : PublicClient) (nc : string * Address) :
  contract_failed cl nc = false -> contract_log cl nc = [].
Proof.
  unfold contract_failed, contract_log, check_contract.
  destruct (getCode cl (snd nc)) as [[c|]|]; simpl; congruence.
Qed.

Lemma contract_logs_passing (cl : PublicClient) (checks : list (string * Address)) :
  Forall (fun nc => contract_failed cl nc = false) checks -> List.concat (map (contract_log cl) checks) = [].
Proof. induction 1 as [|nc l Hnc _ IH]; simpl; [reflexivity|]. now rewrite contract_log_passing, IH. Qed.

(** A chain that passes writes only to standard output. *)
Lemma passing_chain_stdout (cfg : RunConfig) (k : string) (s : string) :
  chain_failed (run_chain_ref cfg k) = false -> chain_rejected (run_chain_ref cfg k) = false ->
  In (Stderr s) (chain_log (run_chain_ref cfg k)) -> False.
Proof.
  unfold run_chain_ref. destruct (chain_start cfg k) as [msg|cl chainId cs]; [discriminate|].
  destruct (on_chain_id cl chainId cs (getChainId cl)) as [|msg| |checks]; simpl; try discriminate.
  rewrite on_join_failed. intros Ef _ Hs. rewrite Ef in Hs. apply existsb_false_Forall in Ef.
  rewrite (contract_logs_passing cl checks Ef) in Hs. destruct Hs as [Hs|[]]. discriminate.
Qed.

(** The reference run exits with status 0 exactly when every chain
    of the selected version passes. *)
Theorem run_ref_exit_zero (cfg : RunConfig) (header : list line) (chainIds : list string) :
  (exists out, run_ref cfg header chainIds = Exited 0 out) <->
  Forall (fun k => exists log calls, run_chain_ref cfg k = ChainDone false log calls) chainIds.
Proof.
  unfold run_ref. rewrite Forall_forall. split.
  - intros (out & E) k Hk.
    destruct (existsb chain_rejected _) eqn:Er; [discriminate|].
    destruct (existsb chain_failed _) eqn:Ef; [discriminate|].
    apply existsb_false_Forall in Er, Ef. rewrite Forall_forall in Er, Ef.
    specialize (Er _ (in_map _ _ _ Hk)). specialize (Ef _ (in_map _ _ _ Hk)).
    destruct (run_chain_ref cfg k); simpl in *; [subst; eauto | discriminate].
  - intros All.
    assert (R : existsb chain_rejected (map (run_chain_ref cfg) chainIds) = false).
    { apply existsb_false_Forall, Forall_forall. intros r Hr. apply in_map_iff in Hr as (k & <- & Hk).
      destruct (All k Hk) as (? & ? & ->). reflexivity. }
    assert (F : existsb chain_failed (map (run_chain_ref cfg) chainIds) = false).
    { apply existsb_false_Forall, Forall_forall. intros r Hr. apply in_map_iff in Hr as (k & <- & Hk).
      destruct (All k Hk) as (? & ? & ->). reflexivity. }
    rewrite R, F. eexists. reflexivity.
Qed.
(** A chain whose key has contracts is rejected exactly when its
    descriptor exists and its [getChainId] rejects: the guard
    [Object.keys(contracts)] cannot throw then. *)
Lemma chain_rejected_iff (cfg : RunConfig) (k : string) :
  (exists v, js_get (latestContracts cfg) k = Some v) ->
  chain_rejected (run_chain_ref cfg k) = true <->
  exists cl chainId cs, chain_start cfg k = StartAwait cl chainId cs /\ getChainId cl = Rejected.
Proof.
  intros [v Hv]. unfold run_chain_ref.
  destruct (chain_start cfg k) as [msg|cl chainId cs] eqn:E.
  - simpl. split; [discriminate | intros (? & ? & ? & [=] & _)].
  - destruct (chain_start_await cfg k cl chainId cs E) as (_ & _ & Hcs). rewrite Hv in Hcs. subst cs.
    unfold on_chain_id. destruct (getChainId cl) as [z|] eqn:Eg.
    + destruct (negb _); simpl; split; try discriminate; intros (? & ? & ? & [= <- <- <-] & Er); congruence.
    + simpl. split; [intros _; eauto | reflexivity].
Qed.
End TaskTheorems.

(** The chain keys the top level fans out over are [Object.keys] of the
    chain table it selected. *)
Lemma script_prefix_keys `{CompareVersions} (allChains : jsobj Chain) (registry : DeployedContracts)
    (header : list line) (cfg : RunConfig) (keys : list string) :
  script_prefix allChains registry = (header, Ok (cfg, keys)) -> keys = js_keys (latestContracts cfg).
Proof.
  unfold script_prefix. destruct (rpcUrlOverrides allChains); [|discriminate].
  destruct (latestVersion (js_keys registry)) as [latest|]; [|discriminate].
  destruct (js_get registry latest); [|discriminate]. intros [= _ <- <-]. reflexivity.
Qed.

(** C25: with an empty registry the script prints "Testing version
    0.0.0", then [Object.keys(undefined)] throws a [TypeError] before any
    RPC request.  The spec asks for a configuration error here. *)
Theorem script_prefix_empty_registry `{CompareVersions} (allChains : jsobj Chain) (ov : jsobj string) :
  rpcUrlOverrides allChains = Ok ov ->
  script_prefix allChains [] = ([Stdout "Testing version 0.0.0"; Stdout ""],
                                Throw (TypeError "Cannot convert undefined or null to object")).
Proof. intros Hov. unfold script_prefix. now rewrite Hov. Qed.

(** C26: On any registry whose version keys are valid and include one
    above "0.0.0", the top level runs to the fan-out: it prints
    ["Testing version <latest>"] and a blank line, where [latest] is a
    key of the registry and no key is above it, and it fans out over
    [Object.keys] of that version's chain table, with the override
    table and the catalogue. *)
Theorem script_prefix_tests_latest `{CompareVersions} (allChains : jsobj Chain) (registry : DeployedContracts)
    (ov : jsobj string) (k : string) :
  rpcUrlOverrides allChains = Ok ov -> valid_version "0.0.0" = true ->
  Forall (fun v => valid_version v = true) (js_keys registry) ->
  In k (js_keys registry) -> compareVersions k "0.0.0" = Ok 1%Z ->
  exists latest lc, In latest (js_keys registry) /\ Forall (fun v => version_le v latest) (js_keys registry) /\
    js_get registry latest = Some lc /\
    script_prefix allChains registry =
      ([Stdout ("Testing version " ++ latest); Stdout ""],
       Ok ({| latestContracts := lc; catalogue := chains allChains; overrides := ov |}, js_keys lc)).
Proof.
  intros Hov H0 Hvs Hk Hgt.
  destruct (latestVersion_fold_spec _ "0.0.0" H0 Hvs) as (l & F & _ & [->|Hin] & _ & All).
  - rewrite Forall_forall in All. exfalso. exact (All k Hk Hgt).
  - destruct (js_keys_get registry l Hin) as [lc Hlc]. exists l, lc.
    split; [exact Hin|]. split; [exact All|]. split; [exact Hlc|].
    unfold script_prefix, latestVersion. rewrite Hov, F, Hlc. reflexivity.
Qed.

(** The catalogue with the three chains [rpcUrlOverrides] reads. *)
Definition small_catalogue : jsobj Chain :=
  [("bsc", viem_chain 56 "BNB Smart Chain"); ("bscTestnet", viem_chain 97 "BNB Smart Chain Testnet");
   ("mainnet", viem_chain 1 "Ethereum")].

Example script_prefix_empty_registry_witness :
  exists ov, rpcUrlOverrides small_catalogue = Ok ov /\
    script_prefix small_catalogue [] = ([Stdout "Testing version 0.0.0"; Stdout ""],
                                        Throw (TypeError "Cannot convert undefined or null to object")).
Proof.
  eexists. split; [reflexivity|]. eapply script_prefix_empty_registry. reflexivity.
Defined.

Example script_prefix_tests_latest_witness :
  exists ov, rpcUrlOverrides small_catalogue = Ok ov /\
  valid_version "0.0.0" = true /\
  Forall (fun v => valid_version v = true) (js_keys (DELEGATOR_CONTRACTS [] [] [])) /\
  In "1.1.0" (js_keys (DELEGATOR_CONTRACTS [] [] [])) /\ compareVersions "1.1.0" "0.0.0" = Ok 1%Z /\
  exists latest lc, In latest (js_keys (DELEGATOR_CONTRACTS [] [] [])) /\
    Forall (fun v => version_le v latest) (js_keys (DELEGATOR_CONTRACTS [] [] [])) /\
    js_get (DELEGATOR_CONTRACTS [] [] []) latest = Some lc /\
    script_prefix small_catalogue (DELEGATOR_CONTRACTS [] [] []) =
      ([Stdout ("Testing version " ++ latest); Stdout ""],
       Ok ({| latestContracts := lc; catalogue := chains small_catalogue; overrides := ov |}, js_keys lc)).
Proof.
  assert (Hov : exists ov, rpcUrlOverrides small_catalogue = Ok ov) by (eexists; reflexivity).
  destruct Hov as [ov Hov]. exists ov.
  assert (H0 : valid_version "0.0.0" = true) by reflexivity.
  assert (Hvs : Forall (fun v => valid_version v = true) (js_keys (DELEGATOR_CONTRACTS [] [] [])))
    by (vm_compute; repeat constructor).
  assert (Hk : In "1.1.0" (js_keys (DELEGATOR_CONTRACTS [] [] []))) by (vm_compute; tauto).
  assert (Hgt : compareVersions "1.1.0" "0.0.0" = Ok 1%Z) by reflexivity.
  split; [exact Hov|]. split; [exact H0|]. split; [exact Hvs|]. split; [exact Hk|]. split; [exact Hgt|].
  exact (script_prefix_tests_latest small_catalogue _ ov "1.1.0" Hov H0 Hvs Hk Hgt).
Defined.

(** ** Concrete runs *)

(** An endpoint that answers chain id 5, and code everywhere except at
    0xdead. *)
#[local] Instance rpc_reports_5 : ChainRpc := {|
  getChainId := fun _ => Fulfilled 5%Z;
  getCode := fun _ a => if String.eqb a "0xdead" then Fulfilled None else Fulfilled (Some "0x60")
|}.

(** Chain 1 with one contract, chain 999 absent from the catalogue. *)
Definition sample_cfg : RunConfig := {|
  latestContracts := [("1", [("DelegationManager", "0xdb9B")]); ("999", [("SimpleFactory", "0x69Aa")])];
  catalogue := [("mainnet", viem_chain 1 "Ethereum")];
  overrides := [("1", "https://eth.merkle.io")]
|}.

Example run_chain_ref_mismatch_witness :
  exists cl chainId contracts,
    chain_start sample_cfg "1" = StartAwait cl chainId contracts /\
    getChainId cl = Fulfilled 5%Z /\ jsnum_eqb (JInt 5) chainId = false /\
    run_chain_ref sample_cfg "1" =
      ChainDone true [Stderr ("ChainId mismatch for " ++ name (client_chain cl) ++ ": "
                              ++ jsnum_to_string (JInt 5) ++ " !== " ++ jsnum_to_string chainId)]
        [CallGetChainId cl].
Proof.
  do 3 eexists. split; [reflexivity|]. split; [reflexivity|]. split; [reflexivity|].
  eapply run_chain_ref_mismatch; reflexivity.
Defined.

Example run_chain_ref_missing_witness :
  run_chain_ref sample_cfg "999" =
    ChainDone true [Stderr ("Chain configuration not found for chainId " ++ jsnum_to_string (parseInt "999"))] [].
Proof. apply run_chain_ref_missing. reflexivity. Defined.

(** Chain 1 with two contracts, one of them without code. *)
#[local] Instance rpc_one_missing : ChainRpc | 0 := {|
  getChainId := fun cl => Fulfilled (id (client_chain cl));
  getCode := fun _ a => if String.eqb a "0xdead" then Fulfilled None else Fulfilled (Some "0x60")
|}.

Definition two_contracts_cfg : RunConfig := {|
  latestContracts := [("1", [("DelegationManager", "0xdb9B"); ("SimpleFactory", "0xdead")])];
  catalogue := [("mainnet", viem_chain 1 "Ethereum")];
  overrides := [("1", "https://eth.merkle.io")]
|}.

Definition sample_client : PublicClient :=
  {| client_chain := viem_chain 1 "Ethereum"; client_url := Some "https://eth.merkle.io" |}.

Example run_chain_ref_reports_missing_witness :
  exists log calls, @run_chain_ref rpc_one_missing two_contracts_cfg "1" = ChainDone true log calls /\
    In (Stderr (name (client_chain sample_client) ++ ": " ++ "SimpleFactory" ++ " is not deployed at " ++ "0xdead")) log /\
    last log (Stdout "") = Stderr (name (client_chain sample_client) ++ " failed").
Proof.
  apply (@run_chain_ref_reports_missing rpc_one_missing two_contracts_cfg "1" sample_client (JInt 1)
           [("DelegationManager", "0xdb9B"); ("SimpleFactory", "0xdead")] 1 "SimpleFactory" "0xdead");
    [reflexivity | reflexivity | reflexivity | simpl; auto | reflexivity].
Defined.

(** The same chain, with a [getCode] request that rejects. *)
#[local] Instance rpc_one_rejected : ChainRpc | 0 := {|
  getChainId := fun cl => Fulfilled (id (client_chain cl));
  getCode := fun _ a => if String.eqb a "0xdead" then Rejected else Fulfilled (Some "0x60")
|}.

Example run_chain_ref_reports_rpc_error_witness :
  exists log calls, @run_chain_ref rpc_one_rejected two_contracts_cfg "1" = ChainDone true log calls /\
    In (Stderr ("RPC Request failed for " ++ name (client_chain sample_client) ++ ": " ++ "SimpleFactory")) log /\
    last log (Stdout "") = Stderr (name (client_chain sample_client) ++ " failed").
Proof.
  apply (@run_chain_ref_reports_rpc_error rpc_one_rejected two_contracts_cfg "1" sample_client (JInt 1)
           [("DelegationManager", "0xdb9B"); ("SimpleFactory", "0xdead")] 1 "SimpleFactory" "0xdead");
    [reflexivity | reflexivity | reflexivity | simpl; auto | reflexivity].
Defined.
