(* ===== verification/Concurrency.v ===== *)
(** * The concurrent fan-out and its refinement of the sequential run

    [script/validate-contract-deployments.ts], lines 188-260.
    [chainIds.map(async ...)] starts every chain task in key order.  Each
    runs synchronously up to its first await ([chain_start]).  From then
    on the event loop resumes the tasks as their promises settle, in an
    order fixed by the network.  The state is a [world]:

    - [tasks]: one [task] per chain key, the point its async function is
      suspended at: awaiting [getChainId], awaiting its pending [getCode]
      checks (with the task's own [hasThisChainFailed]), or done;
    - [hasFailed]: the shared flag of line 188;
    - [out]: the console output, in the order it is written;
    - [calls]: the RPC requests issued;
    - [crashed]: a promise rejected and nothing handles it.
      [Promise.all(allChainsDone)] then rejects without a handler, and
      Node exits with status 1 before the summary.

    [step] lets any pending settlement happen next: [getChainId] of any
    task, [getCode] of any pending contract of any task, or the join of
    a task whose checks all settled.  This is every order the event loop
    can produce, and more.  [program_end] puts the module top level of
    [Validator] in front.  The theorems quantify over all runs:

    - [fanout_refines]: every terminal world agrees with the sequential
      [run_ref] of [Validator].  The crash happens exactly when the
      reference crashes, the exit status is the same, and the output is
      the same up to permutation.  So the shared write-only-to-true flag
      is as good as a reduction.  Corollaries: two runs end alike
      ([fanout_deterministic]), the exit status is 0 exactly when every
      chain passes ([fanout_exit_zero], and [program_exit_zero] for the
      whole script), the whole script crashes exactly when its top level
      throws or a chain's [getChainId] rejects ([program_crashed]), and
      no chain's lines are lost
      ([fanout_reports_every_chain]);
    - [fanout_calls]: a run that ends without a crash has sent the
      reference's RPC requests, each as many times, in some order.  A
      second invariant ([calls_match]) tracks them;
    - [fanout_terminates]: a step decreases a measure.  Every world that
      is not terminal can step, so every world reaches a terminal one
      ([fanout_reaches_terminal]).  A run takes at most [2 + c]
      settlements per chain key with [c] contracts
      ([fanout_steps_bound]);
    - [getCode_after_confirmed_id]: a [getCode] request is only ever sent
      through a client whose endpoint reported the descriptor's chain id;
    - [hasFailed_monotone]: no step resets [hasFailed], and at the end
      of a run the flag is the reduction of the per-chain results
      ([fanout_flag_is_reduction]);
    - [fanout_stderr_iff_failed]: standard error is written exactly when
      the run fails; [fanout_header_first]: the console is append-only
      and begins with the header;
    - [fanout_chain_lines]: the lines of one chain keep the code's order
      in the shared console.  Each contract's lines form one block, and
      the chain's summary follows all of them.  The invariant
      [chain_lines] tracks, per task, which lines it has written as a
      [subseq] of the console.

    The refinement is proved with an invariant ([fanout_inv]) relating a
    world to the reference results: the flag, the log and the crash flag
    of the world, combined with what the remaining work of each task
    ([rem_result]) will add, give the reference's. *)

From Stdlib Require Import List String ZArith Lia Permutation Bool RelationClasses Setoid.
From S2P Require Import Prelude JsNumber JsObject Registry Versions Chains Validator.
Import ListNotations.
Local Open Scope string_scope.
Local Open Scope list_scope.

(** Where a chain task is suspended. *)
Inductive task : Type :=
| TDone
| TAwaitId (cl : PublicClient) (chainId : jsnum) (contracts : option (jsobj Address))
| TAwaitCodes (cl : PublicClient) (pending : list (string * Address)) (hasThisChainFailed : bool).

Record world : Type := {
  tasks : list task;
  hasFailed : bool;
  out : list line;
  calls : list rpc_call;
  crashed : bool
}.

Section Fanout.
Context `{ChainRpc}.
Variable cfg : RunConfig.

(** The synchronous prefix of the task for [key], started from [w]
    (one iteration of [chainIds.map]). *)
Definition start_task (w : world) (key : string) : world :=
  match chain_start cfg key with
  | StartMissing msg =>
      {| tasks := tasks w ++ [TDone]; hasFailed := true; out := out w ++ [msg];
         calls := calls w; crashed := crashed w |}
  | StartAwait cl chainId contracts =>
      {| tasks := tasks w ++ [TAwaitId cl chainId contracts]; hasFailed := hasFailed w; out := out w;
         calls := calls w ++ [CallGetChainId cl]; crashed := crashed w |}
  end.

(** The world once every task reached its first await, after the
    [header] lines the script printed before. *)
Definition init_world (header : list line) (chainIds : list string) : world :=
  fold_left start_task chainIds
    {| tasks := []; hasFailed := false; out := header; calls := []; crashed := false |}.

(** Task [i] resumes after [getChainId] settled with outcome [o]. *)
Definition after_chain_id (w : world) (i : nat) (cl : PublicClient) (o : chain_id_outcome) : world :=
  match o with
  | IdRejected | IdContractsUndefined =>
      {| tasks := tasks w; hasFailed := hasFailed w; out := out w; calls := calls w; crashed := true |}
  | IdMismatch msg =>
      {| tasks := set_nth i TDone (tasks w); hasFailed := true; out := out w ++ [msg];
         calls := calls w; crashed := crashed w |}
  | IdChecks checks =>
      {| tasks := set_nth i (TAwaitCodes cl checks false) (tasks w); hasFailed := hasFailed w;
         out := out w; calls := calls w ++ map (fun nc => CallGetCode cl (snd nc)) checks;
         crashed := crashed w |}
  end.

(** The check of contract [nc] of task [i] resumes after [getCode]. *)
Definition after_code (w : world) (i : nat) (cl : PublicClient) (pending : list (string * Address))
    (thisFailed : bool) (j : nat) (nc : string * Address) : world :=
  let '(failed, lines) := check_contract cl (fst nc) (snd nc) in
  {| tasks := set_nth i (TAwaitCodes cl (remove_at j pending) (thisFailed || failed)) (tasks w);
     hasFailed := hasFailed w; out := out w ++ lines; calls := calls w; crashed := crashed w |}.

(** Task [i] resumes after [Promise.all(allContractsDone)]. *)
Definition after_join (w : world) (i : nat) (cl : PublicClient) (thisFailed : bool) : world :=
  let '(failed, l) := on_join cl thisFailed in
  {| tasks := set_nth i TDone (tasks w); hasFailed := hasFailed w || failed; out := out w ++ [l];
     calls := calls w; crashed := crashed w |}.

Inductive step : world -> world -> Prop :=
| step_chain_id w i cl chainId contracts :
    crashed w = false -> nth_error (tasks w) i = Some (TAwaitId cl chainId contracts) ->
    step w (after_chain_id w i cl (on_chain_id cl chainId contracts (getChainId cl)))
| step_code w i cl pending thisFailed j nc :
    crashed w = false -> nth_error (tasks w) i = Some (TAwaitCodes cl pending thisFailed) ->
    nth_error pending j = Some nc ->
    step w (after_code w i cl pending thisFailed j nc)
| step_join w i cl thisFailed :
    crashed w = false -> nth_error (tasks w) i = Some (TAwaitCodes cl [] thisFailed) ->
    step w (after_join w i cl thisFailed).

Inductive star : world -> world -> Prop :=
| star_refl w : star w w
| star_step w1 w2 w3 : step w1 w2 -> star w2 w3 -> star w1 w3.

Definition terminal (w : world) : Prop :=
  crashed w = true \/ Forall (fun t => t = TDone) (tasks w).

(** How the process ends from a terminal world (lines 252-260). *)
Definition outcome (w : world) : run_outcome :=
  if crashed w then Crashed
  else Exited (exit_code (hasFailed w)) (out w ++ final_lines (hasFailed w)).
End Fanout.

#[export] Hint Constructors star : deploy.

(** Two outcomes with the same exit status and the same lines, in any
    order. *)
Definition same_outcome (a b : run_outcome) : Prop :=
  match a, b with
  | Crashed, Crashed => True
  | Exited c1 o1, Exited c2 o2 => c1 = c2 /\ Permutation o1 o2
  | _, _ => False
  end.

(** The whole script: the module top level ([script_prefix]), then the
    fan-out and the summary.  An exception at the top level is uncaught:
    the process ends with status 1 and no summary. *)
Definition program_end `{CompareVersions} `{ChainRpc} (allChains : jsobj Chain)
    (registry : DeployedContracts) (o : run_outcome) : Prop :=
  match script_prefix allChains registry with
  | (_, Throw _) => o = Crashed
  | (header, Ok (cfg, chainIds)) =>
      exists w, star (init_world cfg header chainIds) w /\ terminal w /\ o = outcome w
  end.

(** ** The refinement invariant *)

Section Refinement.
Context `{ChainRpc}.

(** What is left of a suspended task, run to completion back to back
    (the remainder of [run_chain_ref]). *)
Definition rem_result (t : task) : chain_result :=
  match t with
  | TDone => ChainDone false [] []
  | TAwaitId cl chainId contracts => finish_chain cl (on_chain_id cl chainId contracts (getChainId cl))
  | TAwaitCodes cl pending thisFailed =>
      let failed := thisFailed || existsb (contract_failed cl) pending in
      ChainDone (fst (on_join cl failed))
        (List.concat (map (contract_log cl) pending) ++ [snd (on_join cl failed)]) []
  end.

Definition rem_failed (t : task) : bool := chain_failed (rem_result t).
Definition rem_log (t : task) : list line := chain_log (rem_result t).
Definition rem_rejected (t : task) : bool := chain_rejected (rem_result t).

(** The world accounts for the reference results [refs]: what is
    already written plus what the suspended tasks will write is the
    reference output, and likewise for the flag and for rejection. *)
Definition fanout_inv (header : list line) (refs : list chain_result) (w : world) : Prop :=
  if crashed w then existsb chain_rejected refs = true
  else (hasFailed w || existsb rem_failed (tasks w)) = existsb chain_failed refs /\
       Permutation (out w ++ List.concat (map rem_log (tasks w))) (header ++ List.concat (map chain_log refs)) /\
       existsb rem_rejected (tasks w) = existsb chain_rejected refs.

(** Replacing task [i] by [t'] keeps the invariant when the flag, the
    newly written lines and rejection account for the change. *)
Lemma inv_replace (header : list line) (refs : list chain_result) (w w' : world)
    (i : nat) (t t' : task) (written : list line) :
  crashed w = false -> crashed w' = false -> nth_error (tasks w) i = Some t ->
  tasks w' = set_nth i t' (tasks w) -> out w' = out w ++ written ->
  (hasFailed w' || rem_failed t') = (hasFailed w || rem_failed t) ->
  Permutation (written ++ rem_log t') (rem_log t) ->
  rem_rejected t' = rem_rejected t ->
  fanout_inv header refs w -> fanout_inv header refs w'.
Proof.
  intros Cw Cw' Hi Ht Ho Hf Hl Hr. unfold fanout_inv. rewrite Cw, Cw', Ht, Ho.
  pose proof (set_nth_perm i t' t (tasks w) Hi) as Ps. pose proof (remove_at_perm i (tasks w) t Hi) as Pr.
  intros (F & L & R). split; [|split].
  - rewrite (existsb_perm _ _ _ Ps). rewrite (existsb_perm _ _ _ Pr) in F. simpl in *.
    rewrite orb_assoc, Hf, <- orb_assoc. exact F.
  - eapply perm_trans; [|exact L]. rewrite <- app_assoc. apply Permutation_app_head.
    eapply perm_trans; [apply Permutation_app_head, (Permutation_concat_map rem_log _ _ Ps)|].
    eapply perm_trans; [|apply (Permutation_concat_map rem_log _ _ (Permutation_sym Pr))]. simpl.
    rewrite app_assoc. apply Permutation_app_tail. exact Hl.
  - rewrite (existsb_perm _ _ _ Ps). rewrite (existsb_perm _ _ _ Pr) in R. simpl in *.
    rewrite Hr. exact R.
Qed.

Lemma rem_codes_failed (cl : PublicClient) (pending : list (string * Address)) (f : bool) :
  rem_failed (TAwaitCodes cl pending f) = f || existsb (contract_failed cl) pending.
Proof. unfold rem_failed. simpl. apply on_join_failed. Qed.

(** Every step keeps the invariant. *)
Lemma step_inv (header : list line) (refs : list chain_result) (w w' : world) :
  step w w' -> fanout_inv header refs w -> fanout_inv header refs w'.
Proof.
  intros S; destruct S as [w i cl chainId contracts Cw Hi | w i cl pending f j nc Cw Hi Hj | w i cl f Cw Hi].
  - destruct (on_chain_id cl chainId contracts (getChainId cl)) as [| msg | | checks] eqn:Eo.
    + unfold fanout_inv. rewrite Cw. intros (_ & _ & R). simpl. rewrite <- R.
      rewrite (existsb_remove_at _ _ _ _ Hi). unfold rem_rejected. simpl. now rewrite Eo.
    + apply (inv_replace header refs w _ i (TAwaitId cl chainId contracts) TDone [msg]); auto.
      all: unfold rem_failed, rem_log, rem_rejected; simpl; rewrite ?Eo; simpl; auto.
      now rewrite orb_true_r.
    + unfold fanout_inv. rewrite Cw. intros (_ & _ & R). simpl. rewrite <- R.
      rewrite (existsb_remove_at _ _ _ _ Hi). unfold rem_rejected. simpl. now rewrite Eo.
    + apply (inv_replace header refs w _ i (TAwaitId cl chainId contracts) (TAwaitCodes cl checks false) []); auto.
      all: unfold rem_failed, rem_log, rem_rejected; simpl; rewrite ?Eo, ?app_nil_r; simpl; auto.
  - unfold after_code. destruct (check_contract cl (fst nc) (snd nc)) as [b ls] eqn:Ec.
    pose proof (existsb_remove_at (contract_failed cl) j pending nc Hj) as Ex.
    assert (Hb : contract_failed cl nc = b) by (unfold contract_failed; now rewrite Ec).
    assert (Hls : contract_log cl nc = ls) by (unfold contract_log; now rewrite Ec).
    assert (Eflag : f || existsb (contract_failed cl) pending =
                    (f || b) || existsb (contract_failed cl) (remove_at j pending))
      by (rewrite Ex, Hb; apply orb_assoc).
    apply (inv_replace header refs w _ i (TAwaitCodes cl pending f) (TAwaitCodes cl (remove_at j pending) (f || b)) ls); auto.
    + rewrite !rem_codes_failed, Eflag. reflexivity.
    + unfold rem_log. simpl. rewrite <- Eflag, app_assoc. apply Permutation_app_tail.
      rewrite <- Hls. change (contract_log cl nc ++ List.concat (map (contract_log cl) (remove_at j pending)))
        with (List.concat (map (contract_log cl) (nc :: remove_at j pending))).
      apply Permutation_concat_map, Permutation_sym, remove_at_perm, Hj.
  - unfold after_join. destruct (on_join cl f) as [b l] eqn:Ej.
    apply (inv_replace header refs w _ i (TAwaitCodes cl [] f) TDone [l]); auto.
    + rewrite rem_codes_failed. unfold rem_failed. simpl.
      rewrite orb_false_r, <- (on_join_failed cl f), Ej. simpl. now rewrite orb_false_r.
    + unfold rem_log. simpl. rewrite orb_false_r, Ej. reflexivity.
Qed.
End Refinement.

#[export] Hint Resolve step_inv : deploy.

Lemma same_outcome_sym (a b : run_outcome) : same_outcome a b -> same_outcome b a.
Proof.
  destruct a, b; simpl; auto. intros [-> P]. split; [reflexivity | now symmetry].
Qed.

Lemma same_outcome_trans (a b c : run_outcome) : same_outcome a b -> same_outcome b c -> same_outcome a c.
Proof.
  destruct a, b, c; simpl; try tauto. intros [-> P] [-> Q]. split; [reflexivity | eapply perm_trans; eassumption].
Qed.

Lemma same_outcome_refl (a : run_outcome) : same_outcome a a.
Proof. destruct a; simpl; auto. Qed.

(** Outcomes are compared up to the order of the lines. *)
#[export] Instance same_outcome_equiv : Equivalence same_outcome.
Proof. split; [exact same_outcome_refl | exact same_outcome_sym | exact same_outcome_trans]. Qed.

Lemma same_outcome_exited (a b : run_outcome) (code : Z) :
  same_outcome a b -> ((exists o, a = Exited code o) <-> (exists o, b = Exited code o)).
Proof.
  destruct a, b; simpl; try tauto; intros;
    split; intros (o & E); try discriminate; injection E as <- <-; destruct H; subst; eauto.
Qed.

Lemma same_outcome_crashed (a b : run_outcome) : same_outcome a b -> (a = Crashed <-> b = Crashed).
Proof. destruct a, b; simpl; intuition discriminate. Qed.

Section RefinementTheorems.
Context `{ChainRpc}.
Variable cfg : RunConfig.

Lemma rem_result_start (key : string) (cl : PublicClient) (chainId : jsnum) (cs : option (jsobj Address)) :
  chain_start cfg key = StartAwait cl chainId cs -> rem_result (TAwaitId cl chainId cs) = run_chain_ref cfg key.
Proof. intros E. unfold run_chain_ref. now rewrite E. Qed.

(** Starting the tasks in key order establishes the invariant for the
    reference results of those keys. *)
Lemma start_tasks_inv (header : list line) (keys : list string) (refs : list chain_result) (w : world) :
  crashed w = false -> fanout_inv header refs w ->
  fanout_inv header (refs ++ map (run_chain_ref cfg) keys) (fold_left (start_task cfg) keys w).
Proof.
  revert refs w; induction keys as [|k keys IH]; intros refs w Cw Inv; simpl.
  - now rewrite app_nil_r.
  - replace (refs ++ run_chain_ref cfg k :: map (run_chain_ref cfg) keys)
      with ((refs ++ [run_chain_ref cfg k]) ++ map (run_chain_ref cfg) keys)
      by (now rewrite <- app_assoc).
    apply IH; [unfold start_task; destruct (chain_start cfg k); exact Cw|].
    unfold fanout_inv in *. rewrite Cw in Inv. destruct Inv as (F & L & R).
    pose proof (eq_refl (run_chain_ref cfg k)) as Er. unfold run_chain_ref at 2 in Er.
    unfold start_task. destruct (chain_start cfg k) as [msg|cl chainId cs];
      simpl in Er; rewrite Er; simpl; rewrite Cw; rewrite !existsb_app, !map_app, !concat_app; simpl.
    + split; [|split].
      * now rewrite !orb_true_r.
      * rewrite !app_nil_r, <- app_assoc. apply Permutation_app_tail with (tl := [msg]) in L.
        rewrite <- !app_assoc in L. eapply perm_trans; [|exact L].
        apply Permutation_app_head. apply Permutation_app_comm.
      * rewrite !orb_false_r. exact R.
    + unfold rem_failed, rem_log, rem_rejected in *. split; [|split].
      * rewrite orb_assoc, F. reflexivity.
      * rewrite !app_nil_r, !app_assoc. apply Permutation_app; [exact L | reflexivity].
      * rewrite R. reflexivity.
Qed.

Lemma init_inv (header : list line) (keys : list string) :
  fanout_inv header (map (run_chain_ref cfg) keys) (init_world cfg header keys).
Proof.
  apply (start_tasks_inv header keys []); [reflexivity|]. unfold fanout_inv. simpl.
  split; [reflexivity|]. split; [|reflexivity]. now rewrite !app_nil_r.
Qed.

Lemma star_inv (header : list line) (refs : list chain_result) (w w' : world) :
  star w w' -> fanout_inv header refs w -> fanout_inv header refs w'.
Proof. induction 1; eauto with deploy. Qed.

Lemma all_done_existsb (f : task -> bool) (ts : list task) :
  f TDone = false -> Forall (fun t => t = TDone) ts -> existsb f ts = false.
Proof. intros Hf All. apply existsb_false_Forall. eapply Forall_impl; [|exact All]. now intros t ->. Qed.

Lemma all_done_concat (ts : list task) :
  Forall (fun t => t = TDone) ts -> List.concat (map rem_log ts) = [].
Proof. induction 1 as [|t ts -> _ IH]; simpl; auto. Qed.

(** The refinement, shared by the theorems below. *)
Lemma terminal_same_outcome (header : list line) (keys : list string) (w : world) :
  star (init_world cfg header keys) w -> terminal w ->
  same_outcome (outcome w) (run_ref cfg header keys).
Proof.
  intros S T. pose proof (star_inv _ _ _ _ S (init_inv header keys)) as Inv.
  unfold fanout_inv, outcome, run_ref, terminal in *.
  destruct (crashed w) eqn:Cw.
  - rewrite Inv. exact I.
  - destruct T as [T|T]; [discriminate|]. destruct Inv as (F & L & R).
    rewrite (all_done_existsb rem_failed _ eq_refl T) in F.
    rewrite (all_done_existsb rem_rejected _ eq_refl T) in R. rewrite orb_false_r in F.
    rewrite <- R, <- F. simpl. split; [reflexivity|].
    rewrite (all_done_concat _ T), app_nil_r in L. rewrite app_assoc. now apply Permutation_app_tail.
Qed.

(** C1: every run of the concurrent fan-out that ends agrees with the
    sequential reference.  It crashes exactly when the reference
    crashes.  Otherwise it exits with the same status and prints the
    same lines, in some order.  So the shared [hasFailed] flag, written
    only to [true] from the concurrent completions, gives the result of
    the reduction [existsb chain_failed]. *)
Theorem fanout_refines (header : list line) (keys : list string) (w : world) :
  star (init_world cfg header keys) w -> terminal w ->
  same_outcome (outcome w) (run_ref cfg header keys).
Proof. exact (terminal_same_outcome header keys w). Qed.

(** C4: two runs from the same registry and the same chain state (one
    [ChainRpc] instance) end alike, whatever order the settlements come
    in: both crash, or both exit with the same status and print the
    same lines up to order. *)
Theorem fanout_deterministic (header : list line) (keys : list string) (w1 w2 : world) :
  star (init_world cfg header keys) w1 -> terminal w1 ->
  star (init_world cfg header keys) w2 -> terminal w2 ->
  same_outcome (outcome w1) (outcome w2).
Proof.
  intros S1 T1 S2 T2. rewrite (terminal_same_outcome _ _ _ S1 T1).
  symmetry. exact (terminal_same_outcome _ _ _ S2 T2).
Qed.

(** C5: a run of the fan-out exits with status 0 exactly when every
    chain of the selected version passes on its own: its descriptor is
    found, its id matches and all of its contracts have code. *)
Theorem fanout_exit_zero (header : list line) (keys : list string) (w : world) :
  star (init_world cfg header keys) w -> terminal w ->
  (exists out', outcome w = Exited 0 out') <->
  Forall (fun k => exists log calls, run_chain_ref cfg k = ChainDone false log calls) keys.
Proof.
  intros S T. rewrite <- run_ref_exit_zero.
  apply same_outcome_exited, (terminal_same_outcome _ _ _ S T).
Qed.
(** A run that ends without a crash: no reference task rejects, the
    flag is the reduction of the reference results, and the console is
    the reference output up to order. *)
Lemma terminal_exited (header : list line) (keys : list string) (w : world) :
  star (init_world cfg header keys) w -> terminal w -> crashed w = false ->
  existsb chain_rejected (map (run_chain_ref cfg) keys) = false /\
  hasFailed w = existsb chain_failed (map (run_chain_ref cfg) keys) /\
  Permutation (out w) (header ++ List.concat (map chain_log (map (run_chain_ref cfg) keys))).
Proof.
  intros S T Cw. pose proof (terminal_same_outcome header keys w S T) as SO.
  unfold outcome, run_ref in SO. rewrite Cw in SO.
  destruct (existsb chain_rejected (map (run_chain_ref cfg) keys)); [contradiction|].
  destruct SO as [C P].
  assert (E : hasFailed w = existsb chain_failed (map (run_chain_ref cfg) keys))
    by (destruct (hasFailed w), (existsb _ _); easy).
  rewrite E, app_assoc in P. apply Permutation_app_inv_r in P. auto.
Qed.

(** C7: A chain that is missing or fails does not stop the others: when the
    run ends without a crash, every line that the reference task of any
    key logs is on the console. *)
Theorem fanout_reports_every_chain (header : list line) (keys : list string) (w : world) (k : string) :
  star (init_world cfg header keys) w -> terminal w -> crashed w = false -> In k keys ->
  incl (chain_log (run_chain_ref cfg k)) (out w).
Proof.
  intros S T Cw Hk l Hl. destruct (terminal_exited header keys w S T Cw) as (_ & _ & P).
  apply (Permutation_in _ (Permutation_sym P)). apply in_or_app. right. apply in_concat.
  exists (chain_log (run_chain_ref cfg k)). split; [apply in_map, in_map, Hk | exact Hl].
Qed.

(** C6: The shared flag is the reduction: when the run ends without a
    crash, [hasFailed], written to [true] by whichever task completes, is
    the disjunction of the per-chain results that the spec's design note
    proposes to return and fold instead. *)
Theorem fanout_flag_is_reduction (header : list line) (keys : list string) (w : world) :
  star (init_world cfg header keys) w -> terminal w -> crashed w = false ->
  hasFailed w = existsb chain_failed (map (run_chain_ref cfg) keys).
Proof. intros S T Cw. exact (proj1 (proj2 (terminal_exited header keys w S T Cw))). Qed.

(** C10: The run writes to standard error exactly when it fails.  When the
    run ends without a crash and the header lines are on standard
    output, some line of the console and summary is on standard error
    exactly when the exit status is 1. *)
Theorem fanout_stderr_iff_failed (header : list line) (keys : list string) (w : world) :
  star (init_world cfg header keys) w -> terminal w -> crashed w = false ->
  Forall is_stdout header ->
  (exists s, In (Stderr s) (out w ++ final_lines (hasFailed w))) <-> exit_code (hasFailed w) = 1%Z.
Proof.
  intros S T Cw Hh. destruct (terminal_exited header keys w S T Cw) as (R & F & P).
  rewrite F. split.
  - intros (s & Hs). destruct (existsb chain_failed _) eqn:Ef; [reflexivity|exfalso].
    apply in_app_or in Hs as [Hs|[Hs|[Hs|[]]]]; try discriminate.
    apply (Permutation_in _ P), in_app_or in Hs as [Hs|Hs].
    + rewrite Forall_forall in Hh. exact (Hh _ Hs).
    + apply in_concat in Hs as (l & Hl & Hs). apply in_map_iff in Hl as (r & <- & Hr).
      apply in_map_iff in Hr as (k & <- & Hk).
      apply existsb_false_Forall in R, Ef. rewrite Forall_forall in R, Ef.
      exact (passing_chain_stdout cfg k s (Ef _ (in_map _ _ _ Hk)) (R _ (in_map _ _ _ Hk)) Hs).
  - destruct (existsb chain_failed _); [|discriminate]. intros _.
    exists "Failed to validate contract deployments". apply in_or_app. right. simpl. tauto.
Qed.
End RefinementTheorems.

(** C2: The whole script exits with status 0 exactly when the top level does
    not throw and every chain of the selected version passes. *)
Theorem program_exit_zero `{CompareVersions} `{ChainRpc} (allChains : jsobj Chain)
    (registry : DeployedContracts) (o : run_outcome) :
  program_end allChains registry o ->
  (exists out, o = Exited 0 out) <->
  exists ov latest lc,
    rpcUrlOverrides allChains = Ok ov /\ latestVersion (js_keys registry) = Ok latest /\
    js_get registry latest = Some lc /\
    Forall (fun k => exists log calls,
              run_chain_ref {| latestContracts := lc; catalogue := chains allChains; overrides := ov |} k
              = ChainDone false log calls) (js_keys lc).
Proof.
  unfold program_end, script_prefix.
  destruct (rpcUrlOverrides allChains) as [ov|e] eqn:Eov;
    [| intros ->; split; [intros (? & E); discriminate | intros (? & ? & ? & E & _); discriminate]].
  destruct (latestVersion (js_keys registry)) as [latest|e] eqn:El;
    [| intros ->; split; [intros (? & E); discriminate | intros (? & ? & ? & _ & E & _); discriminate]].
  destruct (js_get registry latest) as [lc|] eqn:Eg;
    [| intros ->; split; [intros (? & E); discriminate | intros (? & ? & ? & _ & E & E' & _); congruence]].
  intros (w & S & T & ->).
  rewrite (same_outcome_exited _ _ 0 (terminal_same_outcome _ _ _ _ S T)), run_ref_exit_zero.
  split; [intros A; eauto 7|].
  intros (ov' & l' & lc' & [= <-] & [= <-] & E & A). rewrite Eg in E. injection E as <-. exact A.
Qed.

(** C3: The whole script crashes (an uncaught exception or unhandled
    rejection: exit status 1, no summary) exactly when its top level
    throws, or when some chain key has a descriptor in the catalogue
    and that endpoint's [getChainId] rejects.  Since the keys come from
    [Object.keys(latestContracts)], [Object.keys(contracts)] at line 222
    never throws in the script. *)
Theorem program_crashed `{CompareVersions} `{ChainRpc} (allChains : jsobj Chain)
    (registry : DeployedContracts) (o : run_outcome) :
  program_end allChains registry o ->
  o = Crashed <->
  (exists e, snd (script_prefix allChains registry) = Throw e) \/
  exists header cfg keys k cl chainId cs,
    script_prefix allChains registry = (header, Ok (cfg, keys)) /\ In k keys /\
    chain_start cfg k = StartAwait cl chainId cs /\ getChainId cl = Rejected.
Proof.
  unfold program_end. destruct (script_prefix allChains registry) as [header [[cfg keys]|e]] eqn:Ep.
  2:{ intros ->. simpl. split; [eauto | reflexivity]. }
  intros (w & S & T & ->). rewrite (same_outcome_crashed _ _ (terminal_same_outcome _ _ _ _ S T)).
  pose proof (script_prefix_keys _ _ _ _ _ Ep) as Ek. unfold run_ref. simpl.
  assert (R : existsb chain_rejected (map (run_chain_ref cfg) keys) = true <->
              exists k cl chainId cs, In k keys /\ chain_start cfg k = StartAwait cl chainId cs /\
                                      getChainId cl = Rejected).
  { rewrite existsb_exists. split.
    - intros (r & Hr & Hrej). apply in_map_iff in Hr as (k & <- & Hk).
      apply chain_rejected_iff in Hrej as (cl & c & cs & Hs & Hg); [eauto 7|].
      apply js_keys_get. rewrite <- Ek. exact Hk.
    - intros (k & cl & c & cs & Hk & Hs & Hg). exists (run_chain_ref cfg k). split; [apply in_map, Hk|].
      apply chain_rejected_iff; [apply js_keys_get; rewrite <- Ek; exact Hk | eauto]. }
  destruct (existsb chain_rejected _) eqn:Er; split.
  - intros _. right. destruct (proj1 R eq_refl) as (k & cl & c & cs & Hk & Hs & Hg). do 7 eexists. eauto.
  - reflexivity.
  - discriminate.
  - intros [(e & [=]) | (h & c & ks & k & cl & c' & cs & [= <- <- <-] & Hk & Hs & Hg)].
    assert (false = true) by (apply R; eauto 7). discriminate.
Qed.

(** ** The RPC requests of a run *)

Section CallsRefinement.
Context `{ChainRpc}.
Variable cfg : RunConfig.

(** The requests a suspended task has yet to send: the [getCode] checks
    of a task awaiting its chain id (its [getChainId] is already sent). *)
Definition rem_calls (t : task) : list rpc_call :=
  match t with
  | TAwaitId cl chainId cs => tl (chain_calls (finish_chain cl (on_chain_id cl chainId cs (getChainId cl))))
  | TDone | TAwaitCodes _ _ _ => []
  end.

(** The requests sent so far plus those still to come are the
    reference's requests [refs], up to order. *)
Definition calls_match (refs : list chain_result) (w : world) : Prop :=
  Permutation (calls w ++ List.concat (map rem_calls (tasks w))) (List.concat (map chain_calls refs)).

Lemma finish_chain_calls (cl : PublicClient) (o : chain_id_outcome) :
  chain_calls (finish_chain cl o) = CallGetChainId cl :: tl (chain_calls (finish_chain cl o)).
Proof. destruct o; reflexivity. Qed.

Lemma calls_replace (refs : list chain_result) (w w' : world) (i : nat) (t t' : task)
    (sent : list rpc_call) :
  nth_error (tasks w) i = Some t -> tasks w' = set_nth i t' (tasks w) -> calls w' = calls w ++ sent ->
  Permutation (sent ++ rem_calls t') (rem_calls t) ->
  calls_match refs w -> calls_match refs w'.
Proof.
  unfold calls_match. intros Hi -> -> Hs C. eapply perm_trans; [|exact C].
  rewrite <- app_assoc. apply Permutation_app_head.
  eapply perm_trans; [apply Permutation_app_head, (Permutation_concat_map rem_calls _ _ (set_nth_perm i t' t _ Hi))|].
  eapply perm_trans; [|apply (Permutation_concat_map rem_calls _ _ (Permutation_sym (remove_at_perm i _ t Hi)))].
  simpl. rewrite app_assoc. apply Permutation_app_tail. exact Hs.
Qed.

Lemma step_calls_match (refs : list chain_result) (w w' : world) :
  step w w' -> calls_match refs w -> calls_match refs w'.
Proof.
  intros S; destruct S as [w i cl chainId contracts Cw Hi | w i cl pending f j nc Cw Hi Hj | w i cl f Cw Hi].
  - destruct (on_chain_id cl chainId contracts (getChainId cl)) as [| msg | | checks] eqn:Eo;
      [exact (fun C => C) | | exact (fun C => C) |].
    + apply (calls_replace refs w _ i (TAwaitId cl chainId contracts) TDone []);
        [exact Hi | reflexivity | simpl; now rewrite app_nil_r | cbn [rem_calls]; rewrite Eo; reflexivity].
    + apply (calls_replace refs w _ i (TAwaitId cl chainId contracts) (TAwaitCodes cl checks false)
               (map (fun nc => CallGetCode cl (snd nc)) checks)); [exact Hi | reflexivity | reflexivity |].
      cbn [rem_calls]. rewrite Eo. simpl. rewrite app_nil_r. reflexivity.
  - unfold after_code. destruct (check_contract cl (fst nc) (snd nc)).
    apply (calls_replace refs w _ i (TAwaitCodes cl pending f) (TAwaitCodes cl (remove_at j pending) (f || b)) []);
      simpl; auto. now rewrite app_nil_r.
  - unfold after_join. destruct (on_join cl f).
    apply (calls_replace refs w _ i (TAwaitCodes cl [] f) TDone []); simpl; auto. now rewrite app_nil_r.
Qed.

Lemma start_tasks_calls_match (keys : list string) (refs : list chain_result) (w : world) :
  calls_match refs w -> calls_match (refs ++ map (run_chain_ref cfg) keys) (fold_left (start_task cfg) keys w).
Proof.
  revert refs w; induction keys as [|k keys IH]; intros refs w C; simpl; [now rewrite app_nil_r|].
  replace (refs ++ run_chain_ref cfg k :: map (run_chain_ref cfg) keys)
    with ((refs ++ [run_chain_ref cfg k]) ++ map (run_chain_ref cfg) keys) by (now rewrite <- app_assoc).
  apply IH. unfold calls_match in *. unfold start_task, run_chain_ref.
  destruct (chain_start cfg k) as [msg|cl chainId cs]; simpl;
    rewrite !map_app, !concat_app; simpl; rewrite ?app_nil_r; [exact C|].
  rewrite finish_chain_calls. eapply perm_trans; [|apply Permutation_app_tail; exact C].
  rewrite <- !app_assoc. apply Permutation_app_head. simpl. apply Permutation_middle.
Qed.

Lemma star_calls_match (refs : list chain_result) (w w' : world) :
  star w w' -> calls_match refs w -> calls_match refs w'.
Proof. induction 1; eauto using step_calls_match. Qed.

(** C8: A run that ends without a crash has sent exactly the requests of the
    sequential reference, each as many times, in some order: one
    [getChainId] per chain found in the catalogue, one [getCode] per
    contract of a chain whose id was confirmed, and none for a chain
    missing from the catalogue or whose id did not match. *)
Theorem fanout_calls (header : list line) (keys : list string) (w : world) :
  star (init_world cfg header keys) w -> terminal w -> crashed w = false ->
  Permutation (calls w) (List.concat (map chain_calls (map (run_chain_ref cfg) keys))).
Proof.
  intros S T Cw. destruct T as [T|T]; [congruence|].
  assert (C0 : calls_match [] {| tasks := []; hasFailed := false; out := header; calls := []; crashed := false |})
    by constructor.
  pose proof (star_calls_match _ _ _ S (start_tasks_calls_match keys [] _ C0)) as C.
  unfold calls_match in C. simpl in C.
  assert (Z : List.concat (map rem_calls (tasks w)) = []) by (induction T as [|t ts -> _ IH]; simpl; auto).
  rewrite Z, app_nil_r in C. exact C.
Qed.
End CallsRefinement.

(** ** Termination and progress *)

Section Termination.
Context `{ChainRpc}.

(** Settlements still to come in a task: the chain id and the join,
    plus one per contract. *)
Definition task_weight (t : task) : nat :=
  match t with
  | TDone => 0
  | TAwaitId _ _ cs => 2 + match cs with Some c => List.length (js_entries c) | None => 0 end
  | TAwaitCodes _ pending _ => 1 + List.length pending
  end.

Definition world_measure (w : world) : nat :=
  if crashed w then 0 else list_sum (map task_weight (tasks w)).

Lemma weight_replace (l : list task) (i : nat) (t t' : task) :
  nth_error l i = Some t ->
  list_sum (map task_weight (set_nth i t' l)) + task_weight t = list_sum (map task_weight l) + task_weight t'.
Proof.
  intros Hi.
  rewrite (Permutation_list_sum (Permutation_map task_weight (set_nth_perm i t' t l Hi))).
  rewrite (Permutation_list_sum (Permutation_map task_weight (remove_at_perm i l t Hi))).
  simpl. lia.
Qed.

(** Every settlement decreases the measure. *)
Lemma step_measure (w w' : world) : step w w' -> world_measure w' < world_measure w.
Proof.
  intros S; destruct S as [w i cl chainId contracts Cw Hi | w i cl pending f j nc Cw Hi Hj | w i cl f Cw Hi];
    unfold world_measure; rewrite Cw.
  - pose proof (weight_replace _ _ _ TDone Hi) as W0. simpl in W0.
    unfold on_chain_id. destruct (getChainId cl) as [actual|]; simpl; [|lia].
    destruct (negb _); simpl; [rewrite Cw; lia|].
    destruct contracts as [cs|]; simpl; [|lia]. rewrite Cw.
    pose proof (weight_replace _ _ _ (TAwaitCodes cl (js_entries cs) false) Hi) as W. simpl in W. lia.
  - unfold after_code. destruct (check_contract cl (fst nc) (snd nc)) as [b ls]. simpl. rewrite Cw.
    pose proof (weight_replace _ _ _ (TAwaitCodes cl (remove_at j pending) (f || b)) Hi) as W.
    pose proof (remove_at_length j pending nc Hj) as L. simpl in W. lia.
  - unfold after_join. destruct (on_join cl f) as [b l]. simpl. rewrite Cw.
    pose proof (weight_replace _ _ _ TDone Hi) as W. simpl in W. lia.
Qed.

(** C11: the fan-out terminates: there is no infinite sequence of
    settlements, whatever their order. *)
Theorem fanout_terminates : well_founded (fun w' w => step w w').
Proof. apply (well_founded_lt_compat _ world_measure). intros w' w S. exact (step_measure w w' S). Qed.

Definition task_pending (t : task) : bool := match t with TDone => false | _ => true end.

Lemma terminal_dec (w : world) : terminal w \/ (crashed w = false /\ existsb task_pending (tasks w) = true).
Proof.
  unfold terminal. destruct (crashed w); [auto|].
  destruct (existsb task_pending (tasks w)) eqn:E; [auto|].
  left. right. apply existsb_false_Forall in E. eapply Forall_impl; [|exact E].
  intros [] ?; easy.
Qed.

(** A world that is not terminal can always make a step. *)
Lemma fanout_progress (w : world) :
  crashed w = false -> existsb task_pending (tasks w) = true -> exists w', step w w'.
Proof.
  intros Cw E. apply existsb_exists in E as (t & Ht & Pt). apply In_nth_error in Ht as (i & Hi).
  destruct t as [|cl chainId cs|cl [|nc pending] f]; try discriminate.
  - eexists. eapply step_chain_id; eassumption.
  - eexists. eapply step_join; eassumption.
  - eexists. eapply (step_code w i cl (nc :: pending) f 0 nc); [eassumption | eassumption | reflexivity].
Qed.

(** C12: from every world, the event loop can reach a terminal world:
    with termination, every run of the fan-out ends in a terminal
    world. *)
Theorem fanout_reaches_terminal (w : world) : exists w', star w w' /\ terminal w'.
Proof.
  induction w as [w IH] using (well_founded_ind (well_founded_ltof _ world_measure)).
  destruct (terminal_dec w) as [T|[Cw E]]; [exists w; split; [constructor | exact T]|].
  destruct (fanout_progress w Cw E) as (w1 & S1).
  destruct (IH w1 (step_measure _ _ S1)) as (w2 & S2 & T2). exists w2. split; [econstructor; eassumption | exact T2].
Qed.
End Termination.

(** ** How many settlements a run takes *)

(** [steps n w w']: [w'] is reached from [w] by exactly [n] settlements. *)
Inductive steps `{ChainRpc} : nat -> world -> world -> Prop :=
| steps_refl w : steps 0 w w
| steps_step n w1 w2 w3 : step w1 w2 -> steps n w2 w3 -> steps (S n) w1 w3.

Section Bounds.
Context `{ChainRpc}.
Variable cfg : RunConfig.

(** The settlements a chain key can cause: its [getChainId], one
    [getCode] per contract of the key, and the join. *)
Definition chain_budget (key : string) : nat :=
  2 + match js_get (latestContracts cfg) key with Some cs => List.length (js_entries cs) | None => 0 end.

Lemma steps_measure (n : nat) (w w' : world) : steps n w w' -> n + world_measure w' <= world_measure w.
Proof. induction 1 as [|n w1 w2 w3 S _ IH]; [lia|]. pose proof (step_measure _ _ S). lia. Qed.

Lemma start_tasks_measure (keys : list string) (w : world) :
  crashed w = false ->
  world_measure (fold_left (start_task cfg) keys w) <= world_measure w + list_sum (map chain_budget keys).
Proof.
  revert w; induction keys as [|k keys IH]; intros w Cw; cbn [fold_left map]; [lia|].
  change (list_sum (chain_budget k :: map chain_budget keys)) with (chain_budget k + list_sum (map chain_budget keys)).
  assert (Cs : crashed (start_task cfg w k) = false) by (unfold start_task; destruct (chain_start cfg k); exact Cw).
  specialize (IH _ Cs). enough (world_measure (start_task cfg w k) <= world_measure w + chain_budget k) by lia.
  unfold world_measure. rewrite Cw, Cs. unfold start_task.
  destruct (chain_start cfg k) as [msg|cl chainId cs] eqn:Es; simpl; rewrite map_app, list_sum_app; simpl; [lia|].
  destruct (chain_start_await cfg k cl chainId cs Es) as (_ & _ & ->). unfold chain_budget. lia.
Qed.

(** C20: A run of the fan-out takes at most [2 + c] settlements per chain
    key with [c] contracts: each promise settles once. *)
Theorem fanout_steps_bound (header : list line) (keys : list string) (n : nat) (w : world) :
  steps n (init_world cfg header keys) w -> n <= list_sum (map chain_budget keys).
Proof.
  intros S. pose proof (steps_measure _ _ _ S) as M.
  pose proof (start_tasks_measure keys {| tasks := []; hasFailed := false; out := header; calls := []; crashed := false |}
                eq_refl) as B.
  unfold init_world in M. unfold world_measure at 2 in B. simpl in B. lia.
Qed.
End Bounds.

(** ** The console is append-only *)

Section Console.
Context `{ChainRpc}.

(** A settlement only appends to the console and to the requests. *)
Lemma step_append (w w' : world) :
  step w w' -> (exists l, out w' = out w ++ l) /\ (exists c, calls w' = calls w ++ c).
Proof.
  intros S; destruct S as [w i cl chainId contracts Cw Hi | w i cl pending f j nc Cw Hi Hj | w i cl f Cw Hi].
  - destruct (on_chain_id cl chainId contracts (getChainId cl)); simpl;
      split; eexists; (reflexivity || symmetry; apply app_nil_r).
  - unfold after_code. destruct (check_contract cl (fst nc) (snd nc)). simpl.
    split; eexists; [reflexivity | symmetry; apply app_nil_r].
  - unfold after_join. destruct (on_join cl f). simpl.
    split; eexists; [reflexivity | symmetry; apply app_nil_r].
Qed.

Lemma star_append (w w' : world) :
  star w w' -> (exists l, out w' = out w ++ l) /\ (exists c, calls w' = calls w ++ c).
Proof.
  induction 1 as [w|w1 w2 w3 S _ [[l2 E2] [c2 F2]]].
  - split; exists []; symmetry; apply app_nil_r.
  - destruct (step_append _ _ S) as [[l1 E1] [c1 F1]]. rewrite E2, E1, F2, F1, <- !app_assoc. eauto.
Qed.

(** The lines [chainIds.map] prints before its first await: the
    ["Chain configuration not found"] message of each missing chain, in
    key order. *)
Definition missing_lines (cfg : RunConfig) (keys : list string) : list line :=
  flat_map (fun k => match chain_start cfg k with StartMissing msg => [msg] | StartAwait _ _ _ => [] end) keys.

Lemma start_tasks_out (cfg : RunConfig) (keys : list string) (w : world) :
  out (fold_left (start_task cfg) keys w) = out w ++ missing_lines cfg keys.
Proof.
  revert w; induction keys as [|k keys IH]; intros w; simpl; [symmetry; apply app_nil_r|].
  rewrite IH. unfold start_task, missing_lines. simpl.
  destruct (chain_start cfg k); simpl; [rewrite <- app_assoc|]; reflexivity.
Qed.

(** C21: The console only grows.  In every world a run reaches, the lines
    printed before the fan-out (["Testing version ..."] and the blank
    line) come first, then the message of each chain missing from the
    catalogue, in key order (they are printed synchronously, before any
    RPC settles), and each settlement appends its lines after what is
    already printed. *)
Theorem fanout_header_first (cfg : RunConfig) (header : list line) (keys : list string) (w w' : world) :
  star (init_world cfg header keys) w -> star w w' ->
  (exists rest, out w = header ++ missing_lines cfg keys ++ rest) /\ (exists l, out w' = out w ++ l).
Proof.
  intros S S'. split; [|exact (proj1 (star_append _ _ S'))].
  destruct (proj1 (star_append _ _ S)) as [l1 E1]. unfold init_world in E1.
  rewrite E1, start_tasks_out. simpl. rewrite <- app_assoc. eauto.
Qed.
End Console.

(** ** The lines of one chain, in order *)

(** [fanout_refines] compares the output with the reference's only up to
    permutation, since the chains interleave.  Within one chain the
    order is fixed by the code: each [getCode] callback prints its
    contract's lines in one synchronous block (lines 225-239), and the
    summary line of the chain is printed only after
    [Promise.all(allContractsDone)] (lines 242-248), so after every
    contract line of that chain.  [chain_lines k t o] says what the task
    [t] of key [k] has already written to the console [o], as a
    subsequence of it. *)

Section ChainLines.
Context `{ChainRpc}.
Variable cfg : RunConfig.

Inductive chain_lines (k : string) : task -> list line -> Prop :=
| lines_missing msg o :
    chain_start cfg k = StartMissing msg -> subseq [msg] o -> chain_lines k TDone o
| lines_await cl chainId cs o :
    chain_start cfg k = StartAwait cl chainId cs -> chain_lines k (TAwaitId cl chainId cs) o
| lines_mismatch cl chainId cs msg o :
    chain_start cfg k = StartAwait cl chainId cs -> on_chain_id cl chainId cs (getChainId cl) = IdMismatch msg ->
    subseq [msg] o -> chain_lines k TDone o
| lines_codes cl chainId cs checks done pending o :
    chain_start cfg k = StartAwait cl chainId cs -> on_chain_id cl chainId cs (getChainId cl) = IdChecks checks ->
    Permutation (done ++ pending) checks -> subseq (List.concat (map (contract_log cl) done)) o ->
    chain_lines k (TAwaitCodes cl pending (existsb (contract_failed cl) done)) o
| lines_joined cl chainId cs checks done o :
    chain_start cfg k = StartAwait cl chainId cs -> on_chain_id cl chainId cs (getChainId cl) = IdChecks checks ->
    Permutation done checks ->
    subseq (List.concat (map (contract_log cl) done) ++ [snd (on_join cl (existsb (contract_failed cl) done))]) o ->
    chain_lines k TDone o.

(** Task [i] of the world is the task of key [i]. *)
Definition lines_inv (keys : list string) (w : world) : Prop :=
  List.length (tasks w) = List.length keys /\
  forall i k t, nth_error keys i = Some k -> nth_error (tasks w) i = Some t -> chain_lines k t (out w).

Lemma chain_lines_app (k : string) (t : task) (o l : list line) :
  chain_lines k t o -> chain_lines k t (o ++ l).
Proof.
  destruct 1; [eapply lines_missing | eapply lines_await | eapply lines_mismatch | eapply lines_codes
              | eapply lines_joined]; eauto with deploy.
Qed.

Lemma subseq_written (x : line) (o : list line) : subseq [x] (o ++ [x]).
Proof. apply (subseq_snoc []), subseq_nil_l. Qed.

Lemma lines_replace (keys : list string) (w w' : world) (i : nat) (t t' : task) (written : list line) :
  nth_error (tasks w) i = Some t -> tasks w' = set_nth i t' (tasks w) -> out w' = out w ++ written ->
  (forall k, chain_lines k t (out w) -> chain_lines k t' (out w ++ written)) ->
  lines_inv keys w -> lines_inv keys w'.
Proof.
  intros Hi Ht Ho Hk [Len Inv]. unfold lines_inv. rewrite Ht, Ho. split; [rewrite set_nth_length; exact Len|].
  intros j k u Hj Hu. apply nth_error_set_nth_inv in Hu as [[<- ->]|Hu].
  - exact (Hk k (Inv _ _ _ Hj Hi)).
  - exact (chain_lines_app _ _ _ _ (Inv _ _ _ Hj Hu)).
Qed.

Lemma step_lines (keys : list string) (w w' : world) : step w w' -> lines_inv keys w -> lines_inv keys w'.
Proof.
  intros S; destruct S as [w i cl chainId contracts Cw Hi | w i cl pending f j nc Cw Hi Hj | w i cl f Cw Hi].
  - destruct (on_chain_id cl chainId contracts (getChainId cl)) as [| msg | | checks] eqn:Eo; try exact (fun L => L).
    + eapply (lines_replace keys w _ i _ TDone [msg] Hi); [reflexivity | reflexivity |].
      intros k L. inv L. eapply lines_mismatch; eauto using subseq_written.
    + eapply (lines_replace keys w _ i _ (TAwaitCodes cl checks false) [] Hi); [reflexivity | symmetry; apply app_nil_r |].
      intros k L. inv L. apply (lines_codes k cl chainId contracts checks [] checks); auto with deploy.
  - unfold after_code. destruct (check_contract cl (fst nc) (snd nc)) as [b ls] eqn:Ec.
    eapply (lines_replace keys w _ i _ (TAwaitCodes cl (remove_at j pending) (f || b)) ls Hi); [reflexivity | reflexivity |].
    intros k L. inv L.
    replace (existsb (contract_failed cl) done || b) with (existsb (contract_failed cl) (done ++ [nc]))
      by (rewrite existsb_app; simpl; unfold contract_failed; rewrite Ec; simpl; now rewrite orb_false_r).
    eapply lines_codes; [eassumption | eassumption | |].
    + rewrite <- app_assoc. eapply perm_trans; [|eassumption].
      apply Permutation_app_head, Permutation_sym, remove_at_perm, Hj.
    + rewrite map_app, concat_app. simpl. unfold contract_log at 2. rewrite Ec, app_nil_r. simpl.
      auto with deploy.
  - unfold after_join. destruct (on_join cl f) as [b l] eqn:Ej.
    eapply (lines_replace keys w _ i _ TDone [l] Hi); [reflexivity | reflexivity |].
    intros k L. inv L. rewrite app_nil_r in *. eapply lines_joined; [eassumption | eassumption | eassumption |].
    rewrite Ej. simpl. auto with deploy.
Qed.

Lemma star_lines (keys : list string) (w w' : world) : star w w' -> lines_inv keys w -> lines_inv keys w'.
Proof. induction 1; eauto using step_lines. Qed.

Lemma start_task_lines (pre : list string) (k : string) (w : world) :
  lines_inv pre w -> lines_inv (pre ++ [k]) (start_task cfg w k).
Proof.
  intros [Len Inv]. unfold lines_inv, start_task. destruct (chain_start cfg k) as [msg|cl chainId cs] eqn:E;
    split; simpl; rewrite ?length_app, ?Len; try reflexivity;
    intros j k' t Hj Ht; apply nth_error_snoc_cases in Ht as [[-> ->]|[Lt Ht]].
  - rewrite Len, nth_error_app2, Nat.sub_diag in Hj by lia. injection Hj as <-.
    eapply lines_missing; eauto using subseq_written.
  - rewrite nth_error_app1 in Hj by lia. exact (chain_lines_app _ _ _ _ (Inv _ _ _ Hj Ht)).
  - rewrite Len, nth_error_app2, Nat.sub_diag in Hj by lia. injection Hj as <-. eapply lines_await; eauto.
  - rewrite nth_error_app1 in Hj by lia. exact (Inv _ _ _ Hj Ht).
Qed.

Lemma start_tasks_lines (pre keys : list string) (w : world) :
  lines_inv pre w -> lines_inv (pre ++ keys) (fold_left (start_task cfg) keys w).
Proof.
  revert pre w; induction keys as [|k keys IH]; intros pre w L; simpl; [now rewrite app_nil_r|].
  replace (pre ++ k :: keys) with ((pre ++ [k]) ++ keys) by (now rewrite <- app_assoc).
  apply IH, start_task_lines, L.
Qed.

Lemma init_lines (header : list line) (keys : list string) : lines_inv keys (init_world cfg header keys).
Proof.
  apply (start_tasks_lines []). split; [reflexivity|]. intros [|i] k t Hk; discriminate.
Qed.

(** C9: In every run that ends without a crash, each chain whose
    contracts were checked printed the lines of each contract check in
    one block, the contracts in some order, and its summary line
    (["<name> succeeded"] or ["<name> failed"]) after all of them.  The
    other chains' lines may come in between. *)
Theorem fanout_chain_lines (header : list line) (keys : list string) (w : world) (i : nat) (k : string)
    (cl : PublicClient) (chainId : jsnum) (cs : option (jsobj Address)) (checks : list (string * Address)) :
  star (init_world cfg header keys) w -> terminal w -> crashed w = false ->
  nth_error keys i = Some k -> chain_start cfg k = StartAwait cl chainId cs ->
  on_chain_id cl chainId cs (getChainId cl) = IdChecks checks ->
  exists done, Permutation done checks /\
    subseq (List.concat (map (contract_log cl) done) ++ [snd (on_join cl (existsb (contract_failed cl) checks))])
           (out w).
Proof.
  intros S T C Hk Hs Ho. destruct (star_lines _ _ _ S (init_lines header keys)) as [Len Inv].
  destruct T as [T|T]; [congruence|].
  destruct (nth_error (tasks w) i) as [t|] eqn:Ht.
  2:{ apply nth_error_None in Ht. assert (i < List.length keys) by (apply nth_error_Some; congruence). lia. }
  pose proof (Inv _ _ _ Hk Ht) as L. rewrite Forall_forall in T. rewrite (T t (nth_error_In _ _ Ht)) in L.
  inv L; rewrite Hs in *; try discriminate; match goal with E : StartAwait _ _ _ = StartAwait _ _ _ |- _ => inv E end;
    rewrite Ho in *; try discriminate; match goal with E : IdChecks _ = IdChecks _ |- _ => inv E end.
  eexists. split; [eassumption|]. erewrite <- existsb_perm; eassumption.
Qed.
End ChainLines.

(** ** Safety of the RPC requests and of the shared flag *)

Section Safety.
Context `{ChainRpc}.
Variable cfg : RunConfig.

(** Bytecode is only requested through a client whose endpoint
    confirmed the descriptor's id, and a task awaiting [getChainId]
    expects exactly its descriptor's id. *)
Definition calls_inv (w : world) : Prop :=
  (forall cl a, In (CallGetCode cl a) (calls w) -> getChainId cl = Fulfilled (id (client_chain cl))) /\
  (forall i cl chainId cs, nth_error (tasks w) i = Some (TAwaitId cl chainId cs) ->
     chainId = JInt (id (client_chain cl))).

Lemma start_tasks_calls_inv (keys : list string) (w : world) :
  calls_inv w -> calls_inv (fold_left (start_task cfg) keys w).
Proof.
  revert w; induction keys as [|k keys IH]; intros w [C T]; simpl; [split; assumption|].
  apply IH. unfold start_task. destruct (chain_start cfg k) as [msg|cl chainId cs] eqn:Es; split; simpl.
  - exact C.
  - intros i cl' c' cs' Hi. apply nth_error_snoc_inv in Hi as [E|Hi]; [discriminate | exact (T _ _ _ _ Hi)].
  - intros cl' a Hin. apply in_app_or in Hin as [Hin|[E|[]]]; [exact (C _ _ Hin) | discriminate].
  - intros i cl' c' cs' Hi. apply nth_error_snoc_inv in Hi as [E|Hi]; [|exact (T _ _ _ _ Hi)].
    injection E as -> -> ->. apply (chain_start_await cfg k cl chainId cs Es).
Qed.

Lemma set_nth_no_await (w : world) (i : nat) (t : task) :
  (forall cl c cs, t <> TAwaitId cl c cs) ->
  (forall i cl chainId cs, nth_error (tasks w) i = Some (TAwaitId cl chainId cs) ->
     chainId = JInt (id (client_chain cl))) ->
  forall j cl chainId cs, nth_error (set_nth i t (tasks w)) j = Some (TAwaitId cl chainId cs) ->
    chainId = JInt (id (client_chain cl)).
Proof.
  intros Ht T j cl chainId cs Hj. apply nth_error_set_nth_inv in Hj as [[_ E]|Hj].
  - exfalso. exact (Ht _ _ _ (eq_sym E)).
  - exact (T _ _ _ _ Hj).
Qed.

Lemma step_calls_inv (w w' : world) : step w w' -> calls_inv w -> calls_inv w'.
Proof.
  intros S [C T]; destruct S as [w i cl chainId contracts Cw Hi | w i cl pending f j nc Cw Hi Hj | w i cl f Cw Hi].
  - pose proof (T _ _ _ _ Hi) as Eid.
    destruct (on_chain_id cl chainId contracts (getChainId cl)) as [| msg | | checks] eqn:Eo;
      simpl; try (split; assumption).
    + split; [exact C | apply set_nth_no_await; [discriminate | exact T]].
    + apply on_chain_id_checks in Eo as (actual & cs & Ea & Eq & _ & _). split.
      * intros cl' a Hin. apply in_app_or in Hin as [Hin|Hin]; [exact (C _ _ Hin)|].
        apply in_map_iff in Hin as (nc & E & _). injection E as <- _.
        rewrite Ea. subst chainId. apply jsnum_eqb_spec in Eq as [E _]. congruence.
      * apply set_nth_no_await; [discriminate | exact T].
  - unfold after_code. destruct (check_contract cl (fst nc) (snd nc)). split; [exact C|].
    apply set_nth_no_await; [discriminate | exact T].
  - unfold after_join. destruct (on_join cl f). split; [exact C|].
    apply set_nth_no_await; [discriminate | exact T].
Qed.

#[local] Hint Resolve step_calls_inv : deploy.

Lemma star_calls_inv (w w' : world) : star w w' -> calls_inv w -> calls_inv w'.
Proof. induction 1; eauto with deploy. Qed.

Lemma init_calls_inv (header : list line) (keys : list string) : calls_inv (init_world cfg header keys).
Proof. apply start_tasks_calls_inv. split; simpl; [tauto|]. intros [|i]; discriminate. Qed.

(** C14: in every reachable world, every [getCode] request that was sent
    went through a client whose endpoint reported the chain id of its
    descriptor.  After a chain-id mismatch the task issues no contract
    check: the code returns before [Object.keys(contracts)]. *)
Theorem getCode_after_confirmed_id (header : list line) (keys : list string) (w : world)
    (cl : PublicClient) (a : Address) :
  star (init_world cfg header keys) w -> In (CallGetCode cl a) (calls w) ->
  getChainId cl = Fulfilled (id (client_chain cl)).
Proof.
  intros S Hin. exact (proj1 (star_calls_inv _ _ S (init_calls_inv header keys)) cl a Hin).
Qed.

(** no settlement resets the shared flag: [hasFailed] only goes
    from [false] to [true]. *)
Theorem hasFailed_monotone (w w' : world) : step w w' -> hasFailed w = true -> hasFailed w' = true.
Proof.
  intros S Hf; destruct S as [w i cl chainId contracts Cw Hi | w i cl pending f j nc Cw Hi Hj | w i cl f Cw Hi].
  - destruct (on_chain_id cl chainId contracts (getChainId cl)); simpl; auto.
  - unfold after_code. destruct (check_contract cl (fst nc) (snd nc)). exact Hf.
  - unfold after_join. destruct (on_join cl f). simpl. now rewrite Hf.
Qed.
End Safety.

(** ** Concrete runs *)

(** An endpoint that reports each descriptor's own id and has code at
    every address. *)
#[local] Instance rpc_honest : ChainRpc := {|
  getChainId := fun cl => Fulfilled (id (client_chain cl));
  getCode := fun _ _ => Fulfilled (Some "0x60")
|}.

(** Chain 1 with one contract; chain 999 is absent from the catalogue. *)
Definition demo_cfg : RunConfig := {|
  latestContracts := [("1", [("DelegationManager", "0xdb9B")]); ("999", [("SimpleFactory", "0x69Aa")])];
  catalogue := [("mainnet", viem_chain 1 "Ethereum")];
  overrides := []
|}.

Definition demo_client : PublicClient := {| client_chain := viem_chain 1 "Ethereum"; client_url := None |}.

(** The run of chain 1: its id settles, its one check settles, it joins. *)
Lemma demo_run (header : list line) :
  exists w, star (init_world demo_cfg header ["1"]) w /\ terminal w /\
    In (CallGetCode demo_client "0xdb9B") (calls w) /\ crashed w = false.
Proof.
  eexists. split; [|split; [|split]].
  - eapply star_step; [eapply (step_chain_id _ 0); reflexivity|].
    eapply star_step; [eapply (step_code _ 0 _ _ _ 0); reflexivity|].
    eapply star_step; [eapply (step_join _ 0); reflexivity|]. apply star_refl.
  - right. repeat constructor.
  - simpl. tauto.
  - reflexivity.
Qed.

Lemma demo_step (header : list line) : exists w', step (init_world demo_cfg header ["999"; "1"]) w'.
Proof. eexists. eapply (step_chain_id _ 1); reflexivity. Qed.

Example fanout_refines_witness :
  run_ref demo_cfg [] ["1"] =
    Exited 0 [Stdout "Ethereum succeeded"; Stdout ""; Stdout "Successfully validated contract deployments"] /\
  exists w, star (init_world demo_cfg [] ["1"]) w /\ terminal w /\
    same_outcome (outcome w) (run_ref demo_cfg [] ["1"]).
Proof.
  split; [reflexivity|]. destruct (demo_run []) as (w & S & T & _).
  exists w. split; [exact S|]. split; [exact T|]. exact (fanout_refines demo_cfg [] ["1"] w S T).
Defined.

Example getCode_after_confirmed_id_witness :
  exists w, star (init_world demo_cfg [] ["1"]) w /\ In (CallGetCode demo_client "0xdb9B") (calls w) /\
    getChainId demo_client = Fulfilled (id (client_chain demo_client)).
Proof.
  destruct (demo_run []) as (w & S & _ & Hin & _). exists w. split; [exact S|]. split; [exact Hin|].
  exact (getCode_after_confirmed_id demo_cfg [] ["1"] w demo_client "0xdb9B" S Hin).
Defined.

Example hasFailed_monotone_witness :
  hasFailed (init_world demo_cfg [] ["999"; "1"]) = true /\
  exists w', step (init_world demo_cfg [] ["999"; "1"]) w' /\ hasFailed w' = true.
Proof.
  split; [reflexivity|]. destruct (demo_step []) as (w' & S). exists w'. split; [exact S|].
  exact (hasFailed_monotone _ _ S eq_refl).
Defined.

(** Two chains, both in the catalogue. *)
Definition demo2_cfg : RunConfig := {|
  latestContracts := [("1", [("DelegationManager", "0xdb9B")]); ("10", [("SimpleFactory", "0x69Aa")])];
  catalogue := [("mainnet", viem_chain 1 "Ethereum"); ("optimism", viem_chain 10 "OP Mainnet")];
  overrides := []
|}.

(** Chain 1 settles first in one run and chain 10 in the other: the
    console differs. *)
Lemma demo_two_orders :
  exists w1 w2, star (init_world demo2_cfg [] ["1"; "10"]) w1 /\ terminal w1 /\
    star (init_world demo2_cfg [] ["1"; "10"]) w2 /\ terminal w2 /\
    out w1 = [Stdout "Ethereum succeeded"; Stdout "OP Mainnet succeeded"] /\
    out w2 = [Stdout "OP Mainnet succeeded"; Stdout "Ethereum succeeded"].
Proof.
  do 2 eexists. split; [|split; [|split; [|split; [|split]]]].
  - eapply star_step; [eapply (step_chain_id _ 0); reflexivity|].
    eapply star_step; [eapply (step_code _ 0 _ _ _ 0); reflexivity|].
    eapply star_step; [eapply (step_join _ 0); reflexivity|].
    eapply star_step; [eapply (step_chain_id _ 1); reflexivity|].
    eapply star_step; [eapply (step_code _ 1 _ _ _ 0); reflexivity|].
    eapply star_step; [eapply (step_join _ 1); reflexivity|]. apply star_refl.
  - right. repeat constructor.
  - eapply star_step; [eapply (step_chain_id _ 1); reflexivity|].
    eapply star_step; [eapply (step_code _ 1 _ _ _ 0); reflexivity|].
    eapply star_step; [eapply (step_join _ 1); reflexivity|].
    eapply star_step; [eapply (step_chain_id _ 0); reflexivity|].
    eapply star_step; [eapply (step_code _ 0 _ _ _ 0); reflexivity|].
    eapply star_step; [eapply (step_join _ 0); reflexivity|]. apply star_refl.
  - right. repeat constructor.
  - reflexivity.
  - reflexivity.
Qed.

Example fanout_deterministic_witness :
  exists w1 w2, star (init_world demo2_cfg [] ["1"; "10"]) w1 /\ terminal w1 /\
    star (init_world demo2_cfg [] ["1"; "10"]) w2 /\ terminal w2 /\ out w1 <> out w2 /\
    same_outcome (outcome w1) (outcome w2).
Proof.
  destruct demo_two_orders as (w1 & w2 & S1 & T1 & S2 & T2 & O1 & O2).
  exists w1, w2. split; [exact S1|]. split; [exact T1|]. split; [exact S2|]. split; [exact T2|].
  split; [rewrite O1, O2; discriminate|].
  exact (fanout_deterministic demo2_cfg [] ["1"; "10"] w1 w2 S1 T1 S2 T2).
Defined.

Example fanout_exit_zero_witness :
  exists w, star (init_world demo_cfg [] ["1"]) w /\ terminal w /\ exists o, outcome w = Exited 0 o.
Proof.
  destruct (demo_run []) as (w & S & T & _). exists w. split; [exact S|]. split; [exact T|].
  apply (proj2 (fanout_exit_zero demo_cfg [] ["1"] w S T)).
  apply Forall_cons; [do 2 eexists; reflexivity | apply Forall_nil].
Defined.

Example fanout_reports_every_chain_witness :
  exists w, star (init_world demo_cfg [] ["1"]) w /\ terminal w /\ crashed w = false /\
    incl (chain_log (run_chain_ref demo_cfg "1")) (out w).
Proof.
  destruct (demo_run []) as (w & S & T & _ & C). exists w. split; [exact S|]. split; [exact T|]. split; [exact C|].
  exact (fanout_reports_every_chain demo_cfg [] ["1"] w "1" S T C (or_introl eq_refl)).
Defined.

(** A registry with one version and one chain. *)
Definition demo_registry : DeployedContracts := [("1.0.0", [("1", [("DelegationManager", "0xdb9B")])])].

Lemma demo_program : exists o, program_end small_catalogue demo_registry o.
Proof.
  unfold program_end.
  destruct (script_prefix small_catalogue demo_registry) as [header [[cfg keys]|e]] eqn:E;
    vm_compute in E; [|discriminate]. injection E as <- <- <-.
  eexists. eexists. split; [|split].
  - eapply star_step; [eapply (step_chain_id _ 0); reflexivity|].
    eapply star_step; [eapply (step_code _ 0 _ _ _ 0); reflexivity|].
    eapply star_step; [eapply (step_join _ 0); reflexivity|]. apply star_refl.
  - right. repeat constructor.
  - reflexivity.
Qed.

Example program_exit_zero_witness :
  exists o, program_end small_catalogue demo_registry o /\ exists out, o = Exited 0 out.
Proof.
  destruct demo_program as (o & P). exists o. split; [exact P|].
  apply (proj2 (program_exit_zero small_catalogue demo_registry o P)).
  do 3 eexists. split; [reflexivity|]. split; [reflexivity|]. split; [reflexivity|].
  apply Forall_cons; [do 2 eexists; reflexivity | apply Forall_nil].
Defined.

Example fanout_calls_witness :
  exists w, star (init_world demo_cfg [] ["1"]) w /\ terminal w /\ crashed w = false /\
    Permutation (calls w) [CallGetChainId demo_client; CallGetCode demo_client "0xdb9B"].
Proof.
  destruct (demo_run []) as (w & S & T & _ & C). exists w. split; [exact S|]. split; [exact T|]. split; [exact C|].
  exact (fanout_calls demo_cfg [] ["1"] w S T C).
Defined.

Example fanout_steps_bound_witness :
  exists w, steps 3 (init_world demo_cfg [] ["1"]) w /\ 3 <= list_sum (map (chain_budget demo_cfg) ["1"]).
Proof.
  assert (R : exists w, steps 3 (init_world demo_cfg [] ["1"]) w).
  { eexists. eapply steps_step; [eapply (step_chain_id _ 0); reflexivity|].
    eapply steps_step; [eapply (step_code _ 0 _ _ _ 0); reflexivity|].
    eapply steps_step; [eapply (step_join _ 0); reflexivity|]. apply steps_refl. }
  destruct R as (w & S). exists w. split; [exact S|]. exact (fanout_steps_bound demo_cfg [] ["1"] 3 w S).
Defined.

Example fanout_flag_is_reduction_witness :
  exists w, star (init_world demo_cfg [] ["1"]) w /\ terminal w /\ crashed w = false /\
    hasFailed w = existsb chain_failed (map (run_chain_ref demo_cfg) ["1"]).
Proof.
  destruct (demo_run []) as (w & S & T & _ & C). exists w. split; [exact S|]. split; [exact T|]. split; [exact C|].
  exact (fanout_flag_is_reduction demo_cfg [] ["1"] w S T C).
Defined.

Example fanout_stderr_iff_failed_witness :
  exists w, star (init_world demo_cfg [] ["1"]) w /\ terminal w /\ crashed w = false /\
    ((exists s, In (Stderr s) (out w ++ final_lines (hasFailed w))) <-> exit_code (hasFailed w) = 1%Z).
Proof.
  destruct (demo_run []) as (w & S & T & _ & C). exists w. split; [exact S|]. split; [exact T|]. split; [exact C|].
  exact (fanout_stderr_iff_failed demo_cfg [] ["1"] w S T C (Forall_nil _)).
Defined.

Example fanout_header_first_witness :
  exists w, star (init_world demo_cfg [Stdout "Testing version 1.3.0"; Stdout ""] ["999"; "1"]) w /\
    (exists rest, out w = [Stdout "Testing version 1.3.0"; Stdout "";
                           Stderr "Chain configuration not found for chainId 999"] ++ rest) /\
    (exists l, out w = out (init_world demo_cfg [Stdout "Testing version 1.3.0"; Stdout ""] ["999"; "1"]) ++ l).
Proof.
  destruct (demo_step [Stdout "Testing version 1.3.0"; Stdout ""]) as (w & S). exists w. split; [exact (star_step _ _ _ S (star_refl _))|].
  destruct (fanout_header_first demo_cfg [Stdout "Testing version 1.3.0"; Stdout ""] ["999"; "1"] _ _
              (star_step _ _ _ S (star_refl _)) (star_refl w)) as [H1 _].
  destruct (fanout_header_first demo_cfg _ ["999"; "1"] _ _ (star_refl _) (star_step _ _ _ S (star_refl _)))
    as [_ H2].
  split; [exact H1 | exact H2].
Defined.

Example fanout_chain_lines_witness :
  exists w, star (init_world demo_cfg [] ["1"]) w /\ terminal w /\ crashed w = false /\
    exists done, Permutation done [("DelegationManager", "0xdb9B")] /\
      subseq (List.concat (map (contract_log demo_client) done) ++
              [snd (on_join demo_client (existsb (contract_failed demo_client) [("DelegationManager", "0xdb9B")]))])
             (out w).
Proof.
  destruct (demo_run []) as (w & S & T & _ & C). exists w. split; [exact S|]. split; [exact T|]. split; [exact C|].
  exact (fanout_chain_lines demo_cfg [] ["1"] w 0 "1" demo_client (parseInt "1") _ _ S T C eq_refl eq_refl eq_refl).
Defined.

(** An endpoint that is down: every request rejects. *)
Definition rpc_down : ChainRpc := {| getChainId := fun _ => Rejected; getCode := fun _ _ => Rejected |}.

(** With the endpoint down, the script crashes at the first [getChainId]. *)
Lemma demo_program_crash : @program_end _ rpc_down small_catalogue demo_registry Crashed.
Proof.
  unfold program_end.
  destruct (script_prefix small_catalogue demo_registry) as [header [[cfg keys]|e]] eqn:E;
    vm_compute in E; [|discriminate]. injection E as <- <- <-.
  eexists. split; [|split].
  - eapply star_step; [eapply (step_chain_id _ 0); reflexivity | apply star_refl].
  - left. reflexivity.
  - reflexivity.
Qed.

Example program_crashed_witness :
  @program_end _ rpc_down small_catalogue demo_registry Crashed /\
  ((exists e, snd (script_prefix small_catalogue demo_registry) = Throw e) \/
   exists header cfg keys k cl chainId cs,
     script_prefix small_catalogue demo_registry = (header, Ok (cfg, keys)) /\ In k keys /\
     chain_start cfg k = StartAwait cl chainId cs /\ @getChainId rpc_down cl = Rejected).
Proof.
  split; [exact demo_program_crash|].
  exact (proj1 (@program_crashed _ rpc_down small_catalogue demo_registry Crashed demo_program_crash) eq_refl).
Defined.
