(* ===== verification/Scheduler.v ===== *)
(** * An executable event loop

    [Concurrency] lets any pending settlement fire next.  This file fixes
    one schedule: the lowest-numbered task that is not done settles
    next, and a task awaiting its checks settles its first pending check
    (or joins when none is left).  [next_step] is one settlement of that
    schedule and [run_sched fuel w] runs at most [fuel] of them.

    It is the executable counterpart of [star]: every settlement it
    makes is a [step] ([run_sched_sound]), and with at least
    [world_measure w] of fuel it stops in a terminal world
    ([run_sched_terminal]).  From the initial world a budget of [2 + c]
    per chain key with [c] contracts is enough ([init_measure]).  So a
    concrete run of the script is computed by [vm_compute].

    The schedule's output is also known exactly, not only up to order
    ([sched_exact]).  An invariant, [sched_prediction], says what the
    run will end with: what is printed so far, then the remaining lines
    of each task ([rem_log]) in task order.  It is kept by every
    settlement of the schedule.  From the initial world it is
    [sched_ref]: the sequential reference with the messages of the
    chains missing from the catalogue moved to the front, since
    [chainIds.map] prints them before its first await.  With no chain
    missing it is [run_ref] itself. *)

From Stdlib Require Import List String ZArith Lia Permutation Bool Btauto.
From S2P Require Import Prelude JsNumber JsObject Registry Versions Chains Validator Concurrency.
Import ListNotations.
Local Open Scope string_scope.
Local Open Scope list_scope.

(** The first task that is not done, with its index. *)
Fixpoint first_pending (ts : list task) : option (nat * task) :=
  match ts with
  | [] => None
  | TDone :: ts' => option_map (fun p => (S (fst p), snd p)) (first_pending ts')
  | t :: _ => Some (0, t)
  end.

Section Scheduler.
Context `{ChainRpc}.

(** One settlement of the schedule, or [None] in a terminal world. *)
Definition next_step (w : world) : option world :=
  if crashed w then None else
  match first_pending (tasks w) with
  | None | Some (_, TDone) => None
  | Some (i, TAwaitId cl chainId cs) => Some (after_chain_id w i cl (on_chain_id cl chainId cs (getChainId cl)))
  | Some (i, TAwaitCodes cl (nc :: pending) f) => Some (after_code w i cl (nc :: pending) f 0 nc)
  | Some (i, TAwaitCodes cl [] f) => Some (after_join w i cl f)
  end.

(** At most [fuel] settlements of the schedule. *)
Fixpoint run_sched (fuel : nat) (w : world) : world :=
  match fuel with
  | O => w
  | S n => match next_step w with Some w' => run_sched n w' | None => w end
  end.
End Scheduler.

(** ** Theorems *)

Lemma first_pending_some (ts : list task) (i : nat) (t : task) :
  first_pending ts = Some (i, t) -> nth_error ts i = Some t /\ t <> TDone.
Proof.
  revert i; induction ts as [|t' ts IH]; intros i; simpl; [discriminate|].
  destruct t' as [|cl c cs|cl p f].
  - destruct (first_pending ts) as [[j u]|] eqn:E; simpl; [|discriminate].
    intros [= <- <-]. exact (IH j eq_refl).
  - intros [= <- <-]. split; [reflexivity | discriminate].
  - intros [= <- <-]. split; [reflexivity | discriminate].
Qed.

Lemma first_pending_none (ts : list task) :
  first_pending ts = None -> Forall (fun t => t = TDone) ts.
Proof.
  induction ts as [|t ts IH]; simpl; [constructor|].
  destruct t; [|discriminate|discriminate].
  destruct (first_pending ts); simpl; [discriminate|]. intros _. constructor; auto.
Qed.

Section SchedulerTheorems.
Context `{ChainRpc}.

(** Every settlement the scheduler makes is a step of the event loop. *)
Lemma next_step_sound (w w' : world) : next_step w = Some w' -> step w w'.
Proof.
  unfold next_step. destruct (crashed w) eqn:C; [discriminate|].
  destruct (first_pending (tasks w)) as [[i t]|] eqn:F; [|discriminate].
  apply first_pending_some in F as [Hi _].
  destruct t as [|cl c cs|cl [|nc p] f]; intros E; try discriminate; injection E as <-.
  - exact (step_chain_id w i cl c cs C Hi).
  - exact (step_join w i cl f C Hi).
  - exact (step_code w i cl (nc :: p) f 0 nc C Hi eq_refl).
Qed.

(** The scheduler stops only in a terminal world. *)
Lemma next_step_none (w : world) : next_step w = None -> terminal w.
Proof.
  unfold next_step, terminal. destruct (crashed w); [auto|].
  destruct (first_pending (tasks w)) as [[i t]|] eqn:F.
  - apply first_pending_some in F as [_ Ht].
    destruct t as [|cl c cs|cl [|nc p] f]; try discriminate. contradiction.
  - intros _. right. exact (first_pending_none _ F).
Qed.

Lemma run_sched_sound (fuel : nat) (w : world) : star w (run_sched fuel w).
Proof.
  revert w; induction fuel as [|n IH]; intros w; simpl; [constructor|].
  destruct (next_step w) as [w'|] eqn:E; [|constructor].
  econstructor; [exact (next_step_sound _ _ E) | apply IH].
Qed.

(** Enough fuel: with at least [world_measure w] settlements the
    scheduler reaches a terminal world. *)
Lemma run_sched_terminal (fuel : nat) (w : world) :
  world_measure w <= fuel -> terminal (run_sched fuel w).
Proof.
  revert w; induction fuel as [|n IH]; intros w Hm; simpl;
    destruct (next_step w) as [w'|] eqn:E; try (apply next_step_none; exact E).
  - pose proof (step_measure _ _ (next_step_sound _ _ E)). lia.
  - apply IH. pose proof (step_measure _ _ (next_step_sound _ _ E)). lia.
Qed.

(** The pending work of the initial world is the settlement budget of
    its chain keys. *)
Lemma init_measure (cfg : RunConfig) (header : list line) (keys : list string) :
  world_measure (init_world cfg header keys) <= list_sum (map (chain_budget cfg) keys).
Proof.
  pose proof (start_tasks_measure cfg keys
                {| tasks := []; hasFailed := false; out := header; calls := []; crashed := false |} eq_refl) as B.
  unfold init_world. unfold world_measure at 2 in B. simpl in B. lia.
Qed.

End SchedulerTheorems.

(** ** The schedule's output, exactly *)

(** The lowest-numbered pending task runs to its end before the next
    one starts, and its checks settle in the order of [pending].  So,
    unlike an arbitrary run, the scheduled run prints each task's
    remaining lines ([rem_log]) back to back, in task order, with no
    permutation. *)

(** How a run ends from its flags and output. *)
Definition end_of (rejected failed : bool) (o : list line) : run_outcome :=
  if rejected then Crashed else Exited (exit_code failed) (o ++ final_lines failed).

Section SchedulerExact.
Context `{ChainRpc}.

(** The outcome the schedule produces from [w]: what is printed, then
    the remainder of each task in order. *)
Definition sched_prediction (w : world) : run_outcome :=
  if crashed w then Crashed
  else end_of (existsb rem_rejected (tasks w)) (hasFailed w || existsb rem_failed (tasks w))
              (out w ++ List.concat (map rem_log (tasks w))).

Lemma first_pending_split (ts : list task) (i : nat) (t : task) :
  first_pending ts = Some (i, t) ->
  exists pre post, ts = pre ++ t :: post /\ Forall (fun u => u = TDone) pre /\ i = List.length pre.
Proof.
  revert i; induction ts as [|t' ts IH]; intros i; simpl; [discriminate|].
  destruct t' as [|cl c cs|cl p f].
  - destruct (first_pending ts) as [[j u]|] eqn:E; simpl; [|discriminate].
    intros [= <- <-]. destruct (IH j eq_refl) as (pre & post & -> & All & ->).
    exists (TDone :: pre), post. auto.
  - intros [= <- <-]. exists [], ts. auto.
  - intros [= <- <-]. exists [], ts. auto.
Qed.

Lemma set_nth_split {A : Type} (pre post : list A) (x y : A) :
  set_nth (List.length pre) y (pre ++ x :: post) = pre ++ y :: post.
Proof. induction pre as [|z pre IH]; simpl; [reflexivity | now rewrite IH]. Qed.

(** Replacing the first pending task [t] by [t'] keeps the prediction
    when the lines written are the head of [t]'s remainder. *)
Lemma prediction_replace (w w' : world) (pre post : list task) (t t' : task) (written : list line) :
  Forall (fun u => u = TDone) pre -> crashed w = false -> crashed w' = false ->
  tasks w = pre ++ t :: post -> tasks w' = pre ++ t' :: post -> out w' = out w ++ written ->
  (hasFailed w' || rem_failed t') = (hasFailed w || rem_failed t) ->
  rem_log t = written ++ rem_log t' -> rem_rejected t' = rem_rejected t ->
  sched_prediction w' = sched_prediction w.
Proof.
  intros All Cw Cw' Ht Ht' Ho Hf Hl Hr. unfold sched_prediction. rewrite Cw, Cw', Ht, Ht', Ho.
  rewrite !existsb_app, !map_app, !concat_app, !(all_done_existsb _ _ eq_refl All), (all_done_concat _ All).
  simpl. rewrite Hr, !orb_assoc, Hf, Hl, <- !app_assoc. reflexivity.
Qed.

(** A task whose [getChainId] rejects (or whose contracts are
    undefined) crashes the run, in the prediction as in the run. *)
Lemma prediction_crash (w : world) (pre post : list task) (t : task) :
  tasks w = pre ++ t :: post -> rem_rejected t = true -> sched_prediction w = Crashed.
Proof.
  intros Ht Hr. unfold sched_prediction, end_of. rewrite Ht, existsb_app. simpl. rewrite Hr, orb_true_r.
  destruct (crashed w); reflexivity.
Qed.

(** One settlement of the schedule keeps the prediction. *)
Lemma next_step_prediction (w w' : world) : next_step w = Some w' -> sched_prediction w' = sched_prediction w.
Proof.
  unfold next_step. destruct (crashed w) eqn:Cw; [discriminate|].
  destruct (first_pending (tasks w)) as [[i t]|] eqn:F; [|discriminate].
  destruct (first_pending_split _ _ _ F) as (pre & post & Ht & All & ->).
  destruct t as [|cl c cs|cl [|nc p] f]; intros E; try discriminate; injection E as <-.
  - destruct (on_chain_id cl c cs (getChainId cl)) as [| msg | | checks] eqn:Eo.
    + rewrite (prediction_crash w pre post _ Ht); [reflexivity|]. unfold rem_rejected. simpl. now rewrite Eo.
    + apply (prediction_replace _ _ pre post (TAwaitId cl c cs) TDone [msg]); simpl;
        rewrite ?Ht, ?set_nth_split; auto; unfold rem_failed, rem_log, rem_rejected; simpl; rewrite Eo; auto.
      now rewrite orb_true_r.
    + rewrite (prediction_crash w pre post _ Ht); [reflexivity|]. unfold rem_rejected. simpl. now rewrite Eo.
    + apply (prediction_replace _ _ pre post (TAwaitId cl c cs) (TAwaitCodes cl checks false) []); simpl;
        rewrite ?Ht, ?set_nth_split, ?app_nil_r; auto; unfold rem_failed, rem_log, rem_rejected; simpl; rewrite Eo; auto.
  - unfold after_join. destruct (on_join cl f) as [b l] eqn:Ej.
    apply (prediction_replace _ _ pre post (TAwaitCodes cl [] f) TDone [l]); simpl; rewrite ?Ht, ?set_nth_split; auto.
    + rewrite rem_codes_failed. unfold rem_failed. simpl. rewrite !orb_false_r, <- (on_join_failed cl f), Ej. reflexivity.
    + unfold rem_log. simpl. rewrite orb_false_r, Ej. reflexivity.
  - unfold after_code. simpl. destruct (check_contract cl (fst nc) (snd nc)) as [b ls] eqn:Ec.
    assert (Hb : contract_failed cl nc = b) by (unfold contract_failed; now rewrite Ec).
    assert (Hls : contract_log cl nc = ls) by (unfold contract_log; now rewrite Ec).
    apply (prediction_replace _ _ pre post (TAwaitCodes cl (nc :: p) f) (TAwaitCodes cl p (f || b)) ls);
      simpl; rewrite ?Ht, ?set_nth_split; auto.
    + rewrite !rem_codes_failed. simpl. now rewrite Hb, !orb_assoc.
    + unfold rem_log. simpl. rewrite Hb, Hls, orb_assoc, <- app_assoc. reflexivity.
Qed.

(** Where the schedule stops, the prediction is the outcome. *)
Lemma next_step_none_prediction (w : world) : next_step w = None -> sched_prediction w = outcome w.
Proof.
  intros E. destruct (next_step_none w E) as [C|All]; unfold sched_prediction, outcome; rewrite ?C; [reflexivity|].
  destruct (crashed w); [reflexivity|].
  rewrite !(all_done_existsb _ _ eq_refl All), (all_done_concat _ All), orb_false_r, app_nil_r. reflexivity.
Qed.

(** With enough fuel the scheduled run ends as predicted. *)
Lemma run_sched_prediction (fuel : nat) (w : world) :
  world_measure w <= fuel -> outcome (run_sched fuel w) = sched_prediction w.
Proof.
  revert w; induction fuel as [|n IH]; intros w Hm; simpl;
    destruct (next_step w) as [w'|] eqn:E; try (symmetry; apply next_step_none_prediction; exact E).
  - pose proof (step_measure _ _ (next_step_sound _ _ E)). lia.
  - rewrite <- (next_step_prediction _ _ E). apply IH.
    pose proof (step_measure _ _ (next_step_sound _ _ E)). lia.
Qed.
End SchedulerExact.

(** The sequential reference with the synchronous messages first: the
    header, the message of each chain missing from the catalogue (printed
    by [chainIds.map] before any await), then the log of each remaining
    chain in key order. *)
Section SchedRef.
Context `{ChainRpc}.
Variable cfg : RunConfig.

Definition await_log (k : string) : list line :=
  match chain_start cfg k with StartMissing _ => [] | StartAwait _ _ _ => chain_log (run_chain_ref cfg k) end.

Definition sched_ref (header : list line) (keys : list string) : run_outcome :=
  let rs := map (run_chain_ref cfg) keys in
  end_of (existsb chain_rejected rs) (existsb chain_failed rs)
         (header ++ missing_lines cfg keys ++ List.concat (map await_log keys)).

Lemma missing_lines_cons (k : string) (keys : list string) :
  missing_lines cfg (k :: keys) =
    match chain_start cfg k with StartMissing msg => [msg] | StartAwait _ _ _ => [] end ++ missing_lines cfg keys.
Proof. reflexivity. Qed.

(** Starting the tasks in key order: the flags and the predicted lines
    of the world grow by the reference's results for those keys. *)
Lemma start_tasks_prediction (keys : list string) (w : world) :
  crashed w = false ->
  crashed (fold_left (start_task cfg) keys w) = false /\
  existsb rem_rejected (tasks (fold_left (start_task cfg) keys w)) =
    existsb rem_rejected (tasks w) || existsb chain_rejected (map (run_chain_ref cfg) keys) /\
  (hasFailed (fold_left (start_task cfg) keys w) || existsb rem_failed (tasks (fold_left (start_task cfg) keys w))) =
    (hasFailed w || existsb rem_failed (tasks w)) || existsb chain_failed (map (run_chain_ref cfg) keys) /\
  out (fold_left (start_task cfg) keys w) ++ List.concat (map rem_log (tasks (fold_left (start_task cfg) keys w))) =
    out w ++ missing_lines cfg keys ++ List.concat (map rem_log (tasks w)) ++ List.concat (map await_log keys).
Proof.
  revert w; induction keys as [|k keys IH]; intros w Cw; cbn [fold_left map existsb List.concat].
  - change (missing_lines cfg []) with (@nil line). rewrite !orb_false_r, !app_nil_r. auto.
  - assert (Cs : crashed (start_task cfg w k) = false) by (unfold start_task; destruct (chain_start cfg k); exact Cw).
    destruct (IH _ Cs) as (C & R & F & O). rewrite C, R, F, O, missing_lines_cons.
    unfold start_task.
    destruct (chain_start cfg k) as [msg|cl c cs] eqn:E;
      [replace (await_log k) with (@nil line) by (unfold await_log; now rewrite E)
      |replace (await_log k) with (chain_log (run_chain_ref cfg k)) by (unfold await_log; now rewrite E)].
    + replace (run_chain_ref cfg k) with (ChainDone true [msg] []) by (unfold run_chain_ref; now rewrite E).
      simpl. rewrite !existsb_app, !map_app, !concat_app. simpl.
      split; [reflexivity|]. split; [btauto|]. split; [btauto|]. rewrite !app_nil_r, <- !app_assoc. reflexivity.
    + rewrite <- (rem_result_start cfg k cl c cs E). simpl. rewrite !existsb_app, !map_app, !concat_app. simpl.
      unfold rem_rejected, rem_failed, rem_log at 2. simpl.
      split; [reflexivity|]. split; [btauto|]. split; [btauto|]. rewrite !app_nil_r, <- !app_assoc. reflexivity.
Qed.

Lemma init_prediction (header : list line) (keys : list string) :
  sched_prediction (init_world cfg header keys) = sched_ref header keys.
Proof.
  destruct (start_tasks_prediction keys {| tasks := []; hasFailed := false; out := header; calls := []; crashed := false |}
              eq_refl) as (C & R & F & O).
  unfold sched_prediction, sched_ref, init_world. rewrite C, R, F, O. reflexivity.
Qed.

(** With every chain key in the catalogue, nothing is hoisted and the
    reference with the synchronous messages first is [run_ref]. *)
Lemma sched_ref_no_missing (header : list line) (keys : list string) :
  missing_lines cfg keys = [] -> sched_ref header keys = run_ref cfg header keys.
Proof.
  intros M. unfold sched_ref, run_ref, end_of. rewrite M. simpl.
  replace (List.concat (map await_log keys)) with (List.concat (map chain_log (map (run_chain_ref cfg) keys)));
    [now rewrite <- app_assoc|].
  induction keys as [|k keys IH]; [reflexivity|]. rewrite missing_lines_cons in M. simpl.
  unfold await_log at 1. destruct (chain_start cfg k); [discriminate|]. rewrite IH; [reflexivity | exact M].
Qed.
End SchedRef.

(** C13: The executable event loop, given the settlement budget of the
    chain keys, prints exactly [sched_ref]: the header, the message of
    each chain missing from the catalogue in key order, then each other
    chain's lines in key order, each chain run to its end before the
    next (its checks in the order of the deployment object), then the
    summary.  The exit status and a crash are the reference's.  When
    every key is in the catalogue, this is exactly the sequential
    reference [run_ref], with no reordering. *)
Theorem sched_exact `{ChainRpc} (cfg : RunConfig) (header : list line) (keys : list string) (fuel : nat) :
  list_sum (map (chain_budget cfg) keys) <= fuel ->
  outcome (run_sched fuel (init_world cfg header keys)) = sched_ref cfg header keys /\
  (missing_lines cfg keys = [] -> outcome (run_sched fuel (init_world cfg header keys)) = run_ref cfg header keys).
Proof.
  intros Hf. assert (E : outcome (run_sched fuel (init_world cfg header keys)) = sched_ref cfg header keys).
  { rewrite run_sched_prediction; [apply init_prediction|]. pose proof (init_measure cfg header keys). lia. }
  split; [exact E|]. intros M. rewrite E. exact (sched_ref_no_missing cfg header keys M).
Qed.

(** ** Concrete runs *)

(** An endpoint for BNB Smart Chain that reports the testnet's id 97,
    and no code at 0xdead. *)
#[local] Instance rpc_mixed : ChainRpc := {|
  getChainId := fun cl => if Z.eqb (id (client_chain cl)) 56 then Fulfilled 97%Z else Fulfilled (id (client_chain cl));
  getCode := fun _ a => if String.eqb a "0xdead" then Fulfilled None else Fulfilled (Some "0x60")
|}.

(** Chain 1 with a contract missing, chain 56 behind the wrong endpoint,
    chain 999 absent from the catalogue. *)
Definition mixed_cfg : RunConfig := {|
  latestContracts := [("1", [("DelegationManager", "0xdb9B"); ("SimpleFactory", "0xdead")]);
                      ("56", [("DelegationManager", "0xdb9B")]); ("999", [("SimpleFactory", "0x69Aa")])];
  catalogue := [("bsc", viem_chain 56 "BNB Smart Chain"); ("mainnet", viem_chain 1 "Ethereum")];
  overrides := [("1", "https://eth.merkle.io"); ("56", "https://bsc-dataseed1.binance.org/")]
|}.

Definition mixed_header : list line := [Stdout "Testing version 1.3.0"; Stdout ""].

(** The scheduled run prints the missing chain first (it is logged
    before the first await), then each chain as it settles, then the
    summary, and exits with status 1. *)
Example sched_mixed_run :
  outcome (run_sched 10 (init_world mixed_cfg mixed_header ["1"; "56"; "999"])) =
    Exited 1 [Stdout "Testing version 1.3.0"; Stdout "";
              Stderr "Chain configuration not found for chainId 999";
              Stderr "Ethereum: SimpleFactory is not deployed at 0xdead";
              Stderr "Ethereum failed";
              Stderr "ChainId mismatch for BNB Smart Chain: 97 !== 56";
              Stdout ""; Stderr "Failed to validate contract deployments"].
Proof. vm_compute. reflexivity. Qed.

Example sched_exact_witness :
  list_sum (map (chain_budget mixed_cfg) ["1"; "56"; "999"]) <= 10 /\
  outcome (run_sched 10 (init_world mixed_cfg mixed_header ["1"; "56"; "999"])) =
    sched_ref mixed_cfg mixed_header ["1"; "56"; "999"] /\
  missing_lines mixed_cfg ["1"; "56"] = [] /\
  outcome (run_sched 10 (init_world mixed_cfg mixed_header ["1"; "56"])) = run_ref mixed_cfg mixed_header ["1"; "56"].
Proof.
  assert (B : list_sum (map (chain_budget mixed_cfg) ["1"; "56"; "999"]) <= 10)
    by (apply Nat.leb_le; vm_compute; reflexivity).
  assert (B' : list_sum (map (chain_budget mixed_cfg) ["1"; "56"]) <= 10)
    by (apply Nat.leb_le; vm_compute; reflexivity).
  assert (M : missing_lines mixed_cfg ["1"; "56"] = []) by (vm_compute; reflexivity).
  split; [exact B|]. split; [exact (proj1 (sched_exact mixed_cfg mixed_header _ 10 B))|].
  split; [exact M | exact (proj2 (sched_exact mixed_cfg mixed_header _ 10 B') M)].
Defined.
